(** * nebula1: the learning-path / quiz REST backend ([src/backend/server.js])

    A shallow embedding of the Express handlers of [server.js], of the
    login through the Google strategy and of the frontend's handlers and
    [calculateScore], followed by the properties the specification
    states about them and by further properties of the code.

    - JavaScript numbers are IEEE-754 binary64 values, modelled with the
      Standard Library's [spec_float] and its correctly rounded
      operations ([SFdiv], [SFmul]) at precision 53.
    - JavaScript strings are lists of UTF-16 code units.
    - Request bodies and parsed model replies are JSON values.
    - A handler is a computation over the document store in a small
      state-and-exception monad: [respond] is an early
      [return res.status(..).json(..)], [throw] is an exception that the
      handler's [catch] block turns into a 500 response.
    - The runtime built-ins and third-party libraries the handlers call
      ([JSON.parse], [parseInt], the model API, the ODM's casting and
      validation) are the fields of a [Runtime] record over which every
      statement is quantified.
    - A request is taken at its route: the application-wide middleware
      in front of the routes (headers, CORS, rate limiting, body
      parsing) has let it through, and the database is reachable.
    - A route ([PATCH_lesson_complete] and the like, [handle]) is the
      handler run from start to end. Requests that overlap, one handler
      running while another is suspended at an [await], are the steps
      of [reachable]. *)

From Stdlib Require Import ZArith NArith String Ascii DecimalString.
From Stdlib Require Import Floats.SpecFloat.
From stdpp Require Import list gmap sorting.

Local Open Scope nat_scope.

(** ** JavaScript numbers *)

Definition number : Type := spec_float.

Definition prec : Z := 53.
Definition emax : Z := 1024.

(** The number denoted by an integer literal or an array length. *)
Definition of_Z (z : Z) : number := binary_normalize prec emax z 0 false.
Definition of_nat (n : nat) : number := of_Z (Z.of_nat n).

(** [x / y] and [x * y] on numbers. *)
Definition div (x y : number) : number := SFdiv prec emax x y.
Definition mul (x y : number) : number := SFmul prec emax x y.

Definition NaN : number := S754_nan.

#[global] Instance number_eq_dec : EqDecision number.
Proof. solve_decision. Defined.

(** [Math.round(x)]: the integer nearest to [x], ties towards +infinity;
    NaN, the infinities and the zeros are returned as they are, and a
    result of zero keeps the sign of [x]. *)
Definition Math_round (x : number) : number :=
  match x with
  | S754_finite s m e =>
      if (0 <=? e)%Z then x
      else
        let d := (2 ^ (- e))%Z in
        let r := ((2 * cond_Zopp s (Z.pos m) + d) / (2 * d))%Z in
        if (r =? 0)%Z then S754_zero s else of_Z r
  | _ => x
  end.

(** [(count / total) * 100], the percentage expression shared by the
    progress update, the quiz score and the frontend. *)
Definition percent (count total : nat) : number :=
  mul (div (of_nat count) (of_nat total)) (of_Z 100).

(** ** JavaScript strings *)

Definition JsString : Type := list N.

Definition str (s : string) : JsString :=
  map N_of_ascii (list_ascii_of_string s).

(** Code units removed by [String.prototype.trim]: WhiteSpace and
    LineTerminator of ECMA-262. *)
Definition is_whitespace (c : N) : bool :=
  ((9 <=? c) && (c <=? 13) || (c =? 32) || (c =? 160) || (c =? 5760)
   || (8192 <=? c) && (c <=? 8202) || (c =? 8232) || (c =? 8233)
   || (c =? 8239) || (c =? 8287) || (c =? 12288) || (c =? 65279))%N.

Fixpoint trimStart (s : JsString) : JsString :=
  match s with
  | c :: rest => if is_whitespace c then trimStart rest else s
  | [] => []
  end.

Definition trim (s : JsString) : JsString :=
  rev (trimStart (rev (trimStart s))).

Definition open_brace : N := 123%N.
Definition close_brace : N := 125%N.

(** The suffix of [s] that starts at the first occurrence of [c]. *)
Fixpoint from_first (c : N) (s : JsString) : option JsString :=
  match s with
  | [] => None
  | x :: rest => if (x =? c)%N then Some s else from_first c rest
  end.

(** [responseText.match(/\{[\s\S]*\}/)]: the leftmost match starts at the
    first opening brace and, the star being greedy over every code unit,
    ends at the last closing brace after it; [None] is the [null] of a
    failed match, [Some m] carries [jsonMatch[0]]. *)
Definition match_braces (responseText : JsString) : option JsString :=
  match from_first open_brace responseText with
  | None => None
  | Some tail =>
      match from_first close_brace (rev tail) with
      | None => None
      | Some r => Some (rev r)
      end
  end.

(** ** JSON values as the handlers see them *)

#[local] Unset Elimination Schemes.
Inductive JsValue : Type :=
| JUndefined
| JNull
| JBool (b : bool)
| JNum (x : number)
| JStr (s : JsString)
| JArr (elems : list JsValue)
| JObj (props : list (JsString * JsValue)).
#[local] Set Elimination Schemes.

(** ToBoolean. *)
Definition truthy (v : JsValue) : bool :=
  match v with
  | JUndefined | JNull => false
  | JBool b => b
  | JNum (S754_zero _) | JNum S754_nan => false
  | JNum _ => true
  | JStr [] => false
  | JStr _ => true
  | JArr _ | JObj _ => true
  end.

(** [a === b]. Two numbers compare as IEEE values (NaN differs from
    itself, the two zeros are equal); arrays and objects compare by
    reference, and the two operands of the comparisons below always come
    from different places of a parsed body, hence are different
    references. *)
Definition strict_eq (a b : JsValue) : bool :=
  match a, b with
  | JUndefined, JUndefined => true
  | JNull, JNull => true
  | JBool x, JBool y => Bool.eqb x y
  | JNum x, JNum y => SFeqb x y
  | JStr s, JStr t => bool_decide (s = t)
  | _, _ => false
  end.

(** Own property lookup in an object's property list. *)
Fixpoint own (k : JsString) (props : list (JsString * JsValue)) : JsValue :=
  match props with
  | [] => JUndefined
  | (k', v) :: rest => if bool_decide (k = k') then v else own k rest
  end.

(** [v.k] for a data property name [k] that no built-in prototype defines
    (title, lessons, correct, ...): a TypeError ([None]) on [undefined]
    and [null], the own property of an object, [undefined] elsewhere. *)
Definition member (v : JsValue) (k : string) : option JsValue :=
  match v with
  | JUndefined | JNull => None
  | JObj props => Some (own (str k) props)
  | _ => Some JUndefined
  end.

(** ToString of an array index. *)
Definition index_key (idx : nat) : JsString :=
  str (NilEmpty.string_of_uint (Nat.to_uint idx)).

(** [v[idx]] for an array index [idx]. *)
Definition at_index (v : JsValue) (idx : nat) : option JsValue :=
  match v with
  | JUndefined | JNull => None
  | JArr elems => Some (default JUndefined (elems !! idx))
  | JStr s => Some (from_option (fun c => JStr [c]) JUndefined (s !! idx))
  | JObj props => Some (own (index_key idx) props)
  | _ => Some JUndefined
  end.

(** [undefined] and [null], on which a property access throws. *)
Definition nullish (v : JsValue) : bool :=
  match v with
  | JUndefined | JNull => true
  | _ => false
  end.

(** The receiver of [v.map(..)], [v.forEach(..)] and [v.filter(..)]: only
    an array has these methods; the call is a TypeError on anything
    else. *)
Definition as_array (v : JsValue) : option (list JsValue) :=
  match v with
  | JArr elems => Some elems
  | _ => None
  end.

(** The receiver of [v.trim()]. *)
Definition as_string (v : JsValue) : option JsString :=
  match v with
  | JStr s => Some s
  | _ => None
  end.

(** [Object.values(v)]: the values of the own enumerable properties. An
    object's property list is kept in enumeration order. *)
Definition Object_values (v : JsValue) : list JsValue :=
  match v with
  | JObj props => map snd props
  | JArr elems => elems
  | JStr s => map (fun c => JStr [c]) s
  | _ => []
  end.

(** ** Documents (the three Mongoose schemas) *)

Definition ObjectId : Type := N.
(** A [Date], in milliseconds since the epoch. *)
Definition Date : Type := Z.

(** Text fields ([title], [description], [content], ...) and the quiz
    payload are carried as the JSON values the handler was given; whether
    the ODM accepts them is decided by the [Runtime] below. *)
Module Lesson.
Record t : Type := mk {
  id : Z;
  title : JsValue;
  content : JsValue;
  completed : bool;
  hasQuiz : bool;
  completedAt : option Date
}.
End Lesson.

Module LearningPath.
Record t : Type := mk {
  _id : ObjectId;
  userId : ObjectId;
  title : JsValue;
  description : JsValue;
  progress : number;
  lessons : list Lesson.t;
  createdAt : Date;
  updatedAt : Date
}.
End LearningPath.

Module QuizResult.
Record t : Type := mk {
  _id : ObjectId;
  userId : ObjectId;
  pathId : JsValue;
  lessonId : JsValue;
  score : number;
  answers : list JsValue;
  completedAt : Date
}.
End QuizResult.

(** ** Responses *)

Inductive Body : Type :=
| error (message : string)
| path_doc (path : LearningPath.t)
| quiz_doc (pathId lessonId : JsValue) (questions : list (nat * JsValue))
| submit_doc (score : number) (correctCount totalQuestions : nat)
    (resultId : ObjectId)
| result_docs (results : list QuizResult.t).

Record Response : Type := mkResponse { status : nat; body : Body }.

(** [res.json(b)] and [res.status(code).json({ error: message })]. *)
Definition json (b : Body) : Response := mkResponse 200 b.
Definition fail (code : nat) (message : string) : Response :=
  mkResponse code (error message).

(** ** The world a request runs in *)

(** The two collections, the driver's source of fresh [_id]s and the log
    of prompts sent to the model API. *)
Record World : Type := mkWorld {
  paths : gmap ObjectId LearningPath.t;
  quizResults : list QuizResult.t;
  nextId : ObjectId;
  prompts : list JsString
}.

Definition empty_world : World := mkWorld ∅ [] 0%N [].

(** The parts of the JavaScript runtime and of the libraries that
    [server.js] calls but does not define. *)
Record Runtime : Type := mkRuntime {
  (** [JSON.parse(s)]; [None] is a SyntaxError. *)
  JSON_parse : JsString -> option JsValue;
  (** [parseInt(s)]; [None] is NaN. *)
  parseInt : JsString -> option Z;
  (** [anthropic.messages.create(..)] followed by [.content[0].text]:
      the reply to a prompt; [None] when the call or the access throws. *)
  messages_create : JsString -> option JsString;
  (** The two template literals that build the prompts (lines 248-263 and
      382-399). *)
  path_prompt : JsString -> JsString;
  quiz_prompt : JsValue -> JsValue -> JsString;
  (** The ODM's cast of a route parameter used as [_id] in a query;
      [None] is a CastError. *)
  castObjectId : JsString -> option ObjectId;
  (** Schema casting and validation on [Model.create]. *)
  validLearningPath : LearningPath.t -> bool;
  validQuizResult : QuizResult.t -> bool
}.

(** ** Handler computations *)

Inductive Outcome (A : Type) : Type :=
| Value (a : A)
| Respond (r : Response)
| Thrown.
Arguments Value {A} a.
Arguments Respond {A} r.
Arguments Thrown {A}.

Definition M (A : Type) : Type := World -> Outcome A * World.

Definition ret {A} (a : A) : M A := fun w => (Value a, w).

Definition bind {A B} (m : M A) (k : A -> M B) : M B :=
  fun w =>
    match m w with
    | (Value a, w') => k a w'
    | (Respond r, w') => (Respond r, w')
    | (Thrown, w') => (Thrown, w')
    end.

(** An early [return res...]. *)
Definition respond {A} (r : Response) : M A := fun w => (Respond r, w).
Definition throw {A} : M A := fun w => (Thrown, w).

(** A pure step that may throw. *)
Definition try {A} (o : option A) : M A :=
  match o with
  | Some a => ret a
  | None => throw
  end.

(** Reading the collections. *)
Definition get : M World := fun w => (Value w, w).

Declare Scope handler_scope.
Delimit Scope handler_scope with handler.
Notation "'let*' x := m 'in' k" := (bind m (fun x => k))
  (at level 10, x name, m at level 100, k at level 200) : handler_scope.
Notation "'when' b 'then_return' r ; k" :=
  (if b then respond r else k)
  (at level 10, b at level 100, r at level 100, k at level 200)
  : handler_scope.

(** [try { .. } catch (error) { res.status(500).json({ error: message }) }]
    around a handler body. *)
Definition catching (message : string) (m : M Response)
    (w : World) : Response * World :=
  match m w with
  | (Value r, w') => (r, w')
  | (Respond r, w') => (r, w')
  | (Thrown, w') => (fail 500 message, w')
  end.

(** The [isAuthenticated] middleware in front of a route; [session] is
    the [_id] of [req.user] when the request carries a valid session. *)
Definition isAuthenticated (session : option ObjectId)
    (next : ObjectId -> World -> Response * World)
    (w : World) : Response * World :=
  match session with
  | Some user => next user w
  | None => (fail 401 "Unauthorized. Please login.", w)
  end.

(** ** The handlers of [server.js] *)

(** Quiz results, most recent first: the order of
    [.sort({ completedAt: -1 })]. The database leaves the order of
    results with the same completion time open; the stable merge sort
    used below fixes one. *)
Definition newer (a b : QuizResult.t) : Prop :=
  (QuizResult.completedAt b <= QuizResult.completedAt a)%Z.

#[global] Instance newer_dec : RelDecision newer.
Proof. intros a b. unfold newer. apply _. Defined.

(** [lessons.map((lesson, idx) => ({ id: idx + 1, title: lesson.title,
    content: lesson.content, completed: false, hasQuiz: true }))],
    starting at index [idx]. *)
Fixpoint number_lessons (lessons : list JsValue) (idx : nat)
    : option (list Lesson.t) :=
  match lessons with
  | [] => Some []
  | lesson :: rest =>
      title ← member lesson "title";
      content ← member lesson "content";
      others ← number_lessons rest (S idx);
      Some (Lesson.mk (Z.of_nat idx + 1) title content false true None
              :: others)
  end.

(** [questions.map((q, idx) => ({ id: idx + 1, ...q }))]; the pair
    [(n, q)] stands for the object [{ id: n, ...q }]. *)
Definition number_questions (questions : list JsValue)
    : list (nat * JsValue) :=
  imap (fun idx q => (idx + 1, q)) questions.

(** The [forEach] loop of the submit handler, from position [idx] with
    the counter at [correctCount]. *)
Fixpoint count_correct (answers : JsValue) (questions : list JsValue)
    (idx correctCount : nat) : option nat :=
  match questions with
  | [] => Some correctCount
  | q :: rest =>
      a ← at_index answers idx;
      c ← member q "correct";
      count_correct answers rest (S idx)
        (if strict_eq a c then S correctCount else correctCount)
  end.

(** [path.lessons.find(l => l.id === lessonId)], as the position of the
    lesson found; [lessonId] is [None] when [parseInt] gave NaN. *)
Definition find_lesson (lessonId : option Z) (lessons : list Lesson.t)
    : option nat :=
  fst <$> list_find (fun l => Some (Lesson.id l) = lessonId) lessons.

(** [lesson.completed = true; lesson.completedAt = new Date()]. *)
Definition mark_completed (now : Date) (l : Lesson.t) : Lesson.t :=
  Lesson.mk (Lesson.id l) (Lesson.title l) (Lesson.content l)
    true (Lesson.hasQuiz l) (Some now).

(** [path.lessons.filter(l => l.completed).length]. *)
Definition completed_count (lessons : list Lesson.t) : nat :=
  length (List.filter Lesson.completed lessons).

(** The path after the assignments of lines 347-353 to the lesson at
    position [i]: the lesson is an element of [path.lessons], so marking
    it updates the list in place; the progress is then recomputed from
    the updated list. *)
Definition with_lesson_completed (now : Date) (i : nat)
    (path : LearningPath.t) : LearningPath.t :=
  let lessons := alter (mark_completed now) i (LearningPath.lessons path) in
  let completedCount := completed_count lessons in
  LearningPath.mk (LearningPath._id path) (LearningPath.userId path)
    (LearningPath.title path) (LearningPath.description path)
    (percent completedCount (length lessons))
    lessons (LearningPath.createdAt path) now.

(** What a response says about a submitted quiz. *)
Definition submitted_score (r : Response) : option number :=
  match body r with
  | submit_doc score _ _ _ => Some score
  | _ => None
  end.

Section Handlers.
Context (rt : Runtime).
Local Open Scope handler_scope.

(** The model call; the prompt is logged when the call is made. *)
Definition call_model (prompt : JsString) : M JsString :=
  fun w =>
    let w' := mkWorld (paths w) (quizResults w) (nextId w)
                (prompts w ++ [prompt]) in
    match messages_create rt prompt with
    | Some responseText => (Value responseText, w')
    | None => (Thrown, w')
    end.

(** [jsonMatch ? JSON.parse(jsonMatch[0]) : null]. *)
Definition parse_reply (responseText : JsString) : M JsValue :=
  match match_braces responseText with
  | Some m => try (JSON_parse rt m)
  | None => ret JNull
  end.

(** [LearningPath.create({ userId, title, description, progress: 0,
    lessons })]; the two timestamps take their schema default. *)
Definition LearningPath_create (userId : ObjectId)
    (title description : JsValue) (lessons : list Lesson.t) (now : Date)
    : M LearningPath.t :=
  fun w =>
    let doc := LearningPath.mk (nextId w) userId title description
                 (of_Z 0) lessons now now in
    if validLearningPath rt doc
    then (Value doc,
          mkWorld (<[nextId w := doc]> (paths w)) (quizResults w)
            (N.succ (nextId w)) (prompts w))
    else (Thrown, w).

(** [QuizResult.create({ userId, pathId, lessonId, score, answers })]. *)
Definition QuizResult_create (userId : ObjectId) (pathId lessonId : JsValue)
    (score : number) (answers : list JsValue) (now : Date)
    : M QuizResult.t :=
  fun w =>
    let doc := QuizResult.mk (nextId w) userId pathId lessonId score
                 answers now in
    if validQuizResult rt doc
    then (Value doc,
          mkWorld (paths w) (quizResults w ++ [doc])
            (N.succ (nextId w)) (prompts w))
    else (Thrown, w).

(** [LearningPath.findOne({ _id: id, userId })]. *)
Definition LearningPath_findOne (id : JsString) (userId : ObjectId)
    : M (option LearningPath.t) :=
  fun w =>
    match castObjectId rt id with
    | None => (Thrown, w)
    | Some oid =>
        (Value (match paths w !! oid with
                | Some path =>
                    if bool_decide (LearningPath.userId path = userId)
                    then Some path else None
                | None => None
                end), w)
    end.

(** [path.save()]. *)
Definition LearningPath_save (path : LearningPath.t) : M unit :=
  fun w =>
    (Value tt,
     mkWorld (<[LearningPath._id path := path]> (paths w)) (quizResults w)
       (nextId w) (prompts w)).

(** POST /api/learning-paths/generate, the body of the [try]
    (lines 236-292). *)
Definition generate_learning_path (user : ObjectId) (body : JsValue)
    (now : Date) : M Response :=
  let* topic := try (member body "topic") in
  when negb (truthy topic) then_return fail 400 "Topic is required";
  let* text := try (as_string topic) in
  when bool_decide (length (trim text) = 0)
    then_return fail 400 "Topic is required";
  let* responseText := call_model (path_prompt rt text) in
  let* pathData := parse_reply responseText in
  if negb (truthy pathData) then throw else
  let* entries := try (member pathData "lessons" ≫= as_array) in
  let* lessons := try (number_lessons entries 0) in
  let* title := try (member pathData "title") in
  let* description := try (member pathData "description") in
  let* learningPath :=
    LearningPath_create user title description lessons now in
  ret (json (path_doc learningPath)).

(** GET /api/learning-paths/:id (lines 314-323). *)
Definition get_learning_path (user : ObjectId) (id : JsString)
    : M Response :=
  let* found := LearningPath_findOne id user in
  match found with
  | None => respond (fail 404 "Learning path not found")
  | Some path => ret (json (path_doc path))
  end.

(** PATCH /api/learning-paths/:id/lessons/:lessonId/complete
    (lines 333-356). *)
Definition complete_lesson (user : ObjectId) (id lessonId : JsString)
    (now : Date) : M Response :=
  let* found := LearningPath_findOne id user in
  match found with
  | None => respond (fail 404 "Learning path not found")
  | Some path =>
      match find_lesson (parseInt rt lessonId) (LearningPath.lessons path)
      with
      | None => respond (fail 404 "Lesson not found")
      | Some i =>
          let path' := with_lesson_completed now i path in
          let* _ := LearningPath_save path' in
          ret (json (path_doc path'))
      end
  end.

(** POST /api/quizzes/generate (lines 370-421). *)
Definition generate_quiz (user : ObjectId) (body : JsValue) : M Response :=
  let* pathId := try (member body "pathId") in
  let* lessonId := try (member body "lessonId") in
  let* lessonTitle := try (member body "lessonTitle") in
  let* lessonContent := try (member body "lessonContent") in
  when negb (truthy pathId && truthy lessonId && truthy lessonTitle
             && truthy lessonContent)
    then_return fail 400 "Missing required fields";
  let* responseText := call_model (quiz_prompt rt lessonTitle lessonContent) in
  let* quizData := parse_reply responseText in
  if negb (truthy quizData) then throw else
  let* listed := try (member quizData "questions") in
  if negb (truthy listed) then throw else
  let* entries := try (as_array listed) in
  ret (json (quiz_doc pathId lessonId (number_questions entries))).

(** POST /api/quizzes/submit (lines 431-461). *)
Definition submit_quiz (user : ObjectId) (body : JsValue) (now : Date)
    : M Response :=
  let* pathId := try (member body "pathId") in
  let* lessonId := try (member body "lessonId") in
  let* answers := try (member body "answers") in
  let* questions := try (member body "questions") in
  when negb (truthy pathId && truthy lessonId && truthy answers
             && truthy questions)
    then_return fail 400 "Missing required fields";
  let* entries := try (as_array questions) in
  let* correctCount := try (count_correct answers entries 0 0) in
  let score := Math_round (percent correctCount (length entries)) in
  let* result :=
    QuizResult_create user pathId lessonId score (Object_values answers)
      now in
  ret (json (submit_doc score correctCount (length entries)
               (QuizResult._id result))).

(** GET /api/quizzes/history (lines 471-474). *)
Definition quiz_history (user : ObjectId) : M Response :=
  let* w := get in
  let owned :=
    List.filter (fun r => bool_decide (QuizResult.userId r = user))
      (quizResults w) in
  ret (json (result_docs (take 20 (merge_sort newer owned)))).

(** The routes: [isAuthenticated], then the handler inside its
    [try]/[catch]. *)
Definition POST_learning_paths_generate (session : option ObjectId)
    (body : JsValue) (now : Date) : World -> Response * World :=
  isAuthenticated session (fun user =>
    catching "Failed to generate learning path"
      (generate_learning_path user body now)).

Definition GET_learning_path (session : option ObjectId) (id : JsString)
    : World -> Response * World :=
  isAuthenticated session (fun user =>
    catching "Failed to fetch learning path" (get_learning_path user id)).

Definition PATCH_lesson_complete (session : option ObjectId)
    (id lessonId : JsString) (now : Date) : World -> Response * World :=
  isAuthenticated session (fun user =>
    catching "Failed to update lesson"
      (complete_lesson user id lessonId now)).

Definition POST_quizzes_generate (session : option ObjectId)
    (body : JsValue) : World -> Response * World :=
  isAuthenticated session (fun user =>
    catching "Failed to generate quiz" (generate_quiz user body)).

Definition POST_quizzes_submit (session : option ObjectId)
    (body : JsValue) (now : Date) : World -> Response * World :=
  isAuthenticated session (fun user =>
    catching "Failed to submit quiz" (submit_quiz user body now)).

Definition GET_quizzes_history (session : option ObjectId)
    : World -> Response * World :=
  isAuthenticated session (fun user =>
    catching "Failed to fetch quiz history" (quiz_history user)).

End Handlers.

(** ** The frontend's [calculateScore] (lines 717-723) *)

(** [quiz.questions.filter((q, idx) => quizAnswers[idx] === q.correct)],
    from position [idx]. *)
Fixpoint filter_correct (quizAnswers : JsValue) (questions : list JsValue)
    (idx : nat) : option (list JsValue) :=
  match questions with
  | [] => Some []
  | q :: rest =>
      a ← at_index quizAnswers idx;
      c ← member q "correct";
      kept ← filter_correct quizAnswers rest (S idx);
      Some (if strict_eq a c then q :: kept else kept)
  end.

(** [None] when evaluating the function throws. *)
Definition calculateScore (quiz quizAnswers : JsValue) : option number :=
  if negb (truthy quiz) then Some (of_Z 0) else
  questions ← member quiz "questions" ≫= as_array;
  correct ← filter_correct quizAnswers questions 0;
  Some (Math_round (percent (length correct) (length questions))).

(** ** Requests handled in turn *)

Inductive Request : Type :=
| GeneratePath (body : JsValue) (now : Date)
| GetPath (id : JsString)
| CompleteLesson (id lessonId : JsString) (now : Date)
| GenerateQuiz (body : JsValue)
| SubmitQuiz (body : JsValue) (now : Date)
| QuizHistory.

Definition handle (rt : Runtime) (session : option ObjectId)
    (req : Request) : World -> Response * World :=
  match req with
  | GeneratePath body now => POST_learning_paths_generate rt session body now
  | GetPath id => GET_learning_path rt session id
  | CompleteLesson id lessonId now =>
      PATCH_lesson_complete rt session id lessonId now
  | GenerateQuiz body => POST_quizzes_generate rt session body
  | SubmitQuiz body now => POST_quizzes_submit rt session body now
  | QuizHistory => GET_quizzes_history session
  end.

(** The worlds that requests handled in turn bring about, starting from
    empty collections: each request is answered before the next one is
    taken up, so no handler runs while another is suspended at an
    [await]. Requests that overlap are the subject of [reachable]
    below. *)
Inductive reachable_in_turn (rt : Runtime) : World -> Prop :=
| in_turn_empty : reachable_in_turn rt empty_world
| in_turn_step w session req :
    reachable_in_turn rt w ->
    reachable_in_turn rt (handle rt session req w).2.

(** ** Requests that overlap

    A handler runs up to its next [await], and the handlers of other
    requests run in the meantime. Path generation and quiz submission
    reach the store once, with an insert; the lookup of a path and the
    quiz history reach it once, with a query; quiz generation does not
    reach it: for the store each of them is one step. The completion of
    a lesson reaches the store twice: the handler is suspended at
    [await LearningPath.findOne(..)] (line 333) and again at
    [await path.save()] (line 355), and what [save] sends is not the
    document in memory but an update, on the stored document with the
    [_id] that was read, of the fields whose value the handler's
    assignments changed. No request changes the length of a [lessons]
    array, so the version the update is conditioned on still matches. *)

(** The update sent by [path.save()]: the [$set] of
    [lessons.i.completed: true], of [lessons.i.completedAt], of
    [progress] and of [updatedAt], each one present when the assignment
    changed the value read. *)
Record Update : Type := mkUpdate {
  update_id : ObjectId;
  update_lesson : nat;
  set_completed : bool;
  set_completedAt : option Date;
  set_progress : option number;
  set_updatedAt : option Date
}.

(** The fields that the assignments of lines 347-353, to the lesson at
    position [i], change in the document [path] as it was read. *)
Definition modified_fields (now : Date) (i : nat) (path : LearningPath.t)
    : Update :=
  let read := LearningPath.lessons path !! i in
  let progress := LearningPath.progress (with_lesson_completed now i path) in
  mkUpdate (LearningPath._id path) i
    (negb (from_option Lesson.completed false read))
    (if bool_decide (read ≫= Lesson.completedAt = Some now)
     then None else Some now)
    (if bool_decide (progress = LearningPath.progress path)
     then None else Some progress)
    (if bool_decide (LearningPath.updatedAt path = now)
     then None else Some now).

(** The stored lesson and the stored path after the update. *)
Definition updated_lesson (u : Update) (l : Lesson.t) : Lesson.t :=
  Lesson.mk (Lesson.id l) (Lesson.title l) (Lesson.content l)
    (if set_completed u then true else Lesson.completed l)
    (Lesson.hasQuiz l)
    (match set_completedAt u with
     | Some time => Some time
     | None => Lesson.completedAt l
     end).

Definition updated (u : Update) (stored : LearningPath.t) : LearningPath.t :=
  LearningPath.mk (LearningPath._id stored) (LearningPath.userId stored)
    (LearningPath.title stored) (LearningPath.description stored)
    (default (LearningPath.progress stored) (set_progress u))
    (alter (updated_lesson u) (update_lesson u) (LearningPath.lessons stored))
    (LearningPath.createdAt stored)
    (default (LearningPath.updatedAt stored) (set_updatedAt u)).

Section Overlap.
Context (rt : Runtime).
Local Open Scope handler_scope.

(** The completion handler from [findOne] up to [await path.save()]
    (lines 333-354): the document in memory after the assignments, and
    the update that [save] is about to send. *)
Definition complete_lesson_read (user : ObjectId) (id lessonId : JsString)
    (now : Date) : M (LearningPath.t * Update) :=
  let* found := LearningPath_findOne rt id user in
  match found with
  | None => respond (fail 404 "Learning path not found")
  | Some path =>
      match find_lesson (parseInt rt lessonId) (LearningPath.lessons path)
      with
      | None => respond (fail 404 "Lesson not found")
      | Some i =>
          ret (with_lesson_completed now i path, modified_fields now i path)
      end
  end.

(** The update reaching the store. *)
Definition LearningPath_updateOne (u : Update) : M unit :=
  fun w =>
    (Value tt,
     mkWorld (alter (updated u) (update_id u) (paths w)) (quizResults w)
       (nextId w) (prompts w)).

(** The rest of the handler (lines 355-356): [save] sends the update
    and the document in memory is answered. *)
Definition complete_lesson_write (saved : LearningPath.t * Update)
    : M Response :=
  let* _ := LearningPath_updateOne saved.2 in
  ret (json (path_doc saved.1)).

End Overlap.

(** A generation request is suspended at
    [await anthropic.messages.create(..)] (lines 242 and 376), after it
    sent its prompt and before it does anything to the collections. The
    two parts of what a request does are its prompt, sent when the
    request is taken up, and what it stores once the reply is there;
    neither depends on the other, since no handler reads the log and a
    prompt is built from the request alone. *)
Definition prompt_sent (rt : Runtime) (session : option ObjectId)
    (req : Request) (w : World) : World :=
  mkWorld (paths w) (quizResults w) (nextId w)
    (prompts (handle rt session req w).2).

Definition documents_stored (rt : Runtime) (session : option ObjectId)
    (req : Request) (w : World) : World :=
  let w' := (handle rt session req w).2 in
  mkWorld (paths w') (quizResults w') (nextId w') (prompts w).

(** What is under way: a completion suspended at [await path.save()]
    with the update it is about to send, or a request suspended at the
    call of the model. *)
Inductive Suspended : Type :=
| AwaitingSave (u : Update)
| AwaitingReply (session : option ObjectId) (req : Request).

(** The worlds that requests bring about when they may overlap, each
    with what is under way in it. A request that nothing interrupts is
    one step. Otherwise a request sends its prompt and is suspended, and
    stores its documents in a later step; and a completion reads the
    path and is suspended with its update, which reaches the store in a
    later step. *)
Inductive reachable (rt : Runtime) : World -> list Suspended -> Prop :=
| reachable_empty : reachable rt empty_world []
| reachable_request w pending session req :
    reachable rt w pending ->
    reachable rt (handle rt session req w).2 pending
| reachable_sent w pending session req :
    reachable rt w pending ->
    reachable rt (prompt_sent rt session req w)
      (AwaitingReply session req :: pending)
| reachable_replied w pending session req pending' :
    reachable rt w (pending ++ AwaitingReply session req :: pending') ->
    reachable rt (documents_stored rt session req w) (pending ++ pending')
| reachable_read w pending user id lessonId now path u :
    reachable rt w pending ->
    complete_lesson_read rt user id lessonId now w = (Value (path, u), w) ->
    reachable rt w (AwaitingSave u :: pending)
| reachable_write w pending u pending' :
    reachable rt w (pending ++ AwaitingSave u :: pending') ->
    reachable rt (LearningPath_updateOne u w).2 (pending ++ pending').

(** ** The specification's formulas *)

(** round(100 × count / total) on exact rationals, a tie going up. *)
Definition round_percent (count total : nat) : Z :=
  ((200 * Z.of_nat count + Z.of_nat total) / (2 * Z.of_nat total))%Z.

(** Whether the answer at position [idx] equals the correct index of the
    question at that position. *)
Definition position_correct (answers : JsValue) (questions : list JsValue)
    (idx : nat) : bool :=
  match at_index answers idx, questions !! idx ≫= (fun q => member q "correct")
  with
  | Some a, Some c => strict_eq a c
  | _, _ => false
  end.

(** The number of positions at which the answer is the correct one. *)
Definition matching_positions (answers : JsValue) (questions : list JsValue)
    : nat :=
  length (List.filter (position_correct answers questions)
            (seq 0 (length questions))).

(** The progress that the completed flags of a path's lessons determine:
    0 while no lesson is completed, the percentage otherwise. *)
Definition progress_of_flags (lessons : list Lesson.t) : number :=
  if bool_decide (completed_count lessons = 0) then of_Z 0
  else percent (completed_count lessons) (length lessons).

Definition progress_derivable (w : World) : Prop :=
  ∀ k path, paths w !! k = Some path ->
    LearningPath.progress path
    = progress_of_flags (LearningPath.lessons path).

(** A topic that is missing ([undefined] or [null]), empty or made of
    white space only. *)
Definition blank_topic (topic : JsValue) : Prop :=
  topic = JUndefined ∨ topic = JNull
  ∨ ∃ s, topic = JStr s ∧ forallb is_whitespace s = true.

(** The document that path generation hands to [LearningPath.create]
    for a parsed reply [pathData] and its numbered lessons. *)
Definition new_path (w : World) (user : ObjectId) (pathData : JsValue)
    (lessons : list Lesson.t) (now : Date) : LearningPath.t :=
  LearningPath.mk (nextId w) user
    (default JUndefined (member pathData "title"))
    (default JUndefined (member pathData "description"))
    (of_Z 0) lessons now now.

(** A parsed reply from which a path can be stored: its [lessons] is an
    array without [null] entries and the ODM accepts the document. *)
Definition storable_path (rt : Runtime) (w : World) (user : ObjectId)
    (now : Date) (pathData : JsValue) : Prop :=
  ∃ entries lessons,
    member pathData "lessons" = Some (JArr entries)
    ∧ number_lessons entries 0 = Some lessons
    ∧ validLearningPath rt (new_path w user pathData lessons now) = true.

(** The world after one more prompt was sent to the model. *)
Definition prompted (prompt : JsString) (w : World) : World :=
  mkWorld (paths w) (quizResults w) (nextId w) (prompts w ++ [prompt]).

(** ** A concrete runtime and sample data

    Used to evaluate the handlers on explicit requests. *)

Definition quoted (s : string) : JsString := [34%N] ++ str s ++ [34%N].

(** The JSON text of one lesson and the value it denotes. *)
Definition lesson_text (title content : string) : JsString :=
  str "{" ++ quoted "title" ++ str ":" ++ quoted title ++ str ","
  ++ quoted "content" ++ str ":" ++ quoted content ++ str "}".

Definition lesson_value (title content : string) : JsValue :=
  JObj [(str "title", JStr (str title)); (str "content", JStr (str content))].

Definition sample_lessons : list (string * string) :=
  [("Values", "Numbers and strings"); ("Names", "Variables");
   ("Branches", "if and else"); ("Loops", "for and while");
   ("Functions", "def and return")]%string.

Fixpoint join_with (sep : JsString) (parts : list JsString) : JsString :=
  match parts with
  | [] => []
  | [p] => p
  | p :: rest => p ++ sep ++ join_with sep rest
  end.

Definition sample_path_text : JsString :=
  str "{" ++ quoted "title" ++ str ":" ++ quoted "Python basics" ++ str ","
  ++ quoted "description" ++ str ":" ++ quoted "A first course" ++ str ","
  ++ quoted "lessons" ++ str ":["
  ++ join_with (str ",") (map (fun tc => lesson_text tc.1 tc.2) sample_lessons)
  ++ str "]}".

Definition sample_path_value : JsValue :=
  JObj [(str "title", JStr (str "Python basics"));
        (str "description", JStr (str "A first course"));
        (str "lessons",
         JArr (map (fun tc => lesson_value tc.1 tc.2) sample_lessons))].

(** A model reply: prose around the JSON object. *)
Definition sample_reply : JsString :=
  str "Here is your learning path: " ++ sample_path_text ++ str " Enjoy!".

(** [JSON.parse] on the two texts used below. *)
Definition sample_JSON_parse (s : JsString) : option JsValue :=
  if bool_decide (s = str "{}") then Some (JObj [])
  else if bool_decide (s = sample_path_text) then Some sample_path_value
  else None.

(** [parseInt] on a string of decimal digits. *)
Definition digit (c : N) : option Z :=
  if ((48 <=? c) && (c <=? 57))%N then Some (Z.of_N c - 48)%Z else None.

Fixpoint digits_value (acc : Z) (s : JsString) : option Z :=
  match s with
  | [] => Some acc
  | c :: rest => d ← digit c; digits_value (10 * acc + d)%Z rest
  end.

Definition sample_parseInt (s : JsString) : option Z :=
  match s with
  | [] => None
  | _ => digits_value 0 s
  end.

(** The ODM's cast of an id string: the text of an ObjectId is 24
    hexadecimal digits. *)
Definition hex_digit (c : N) : option N :=
  if ((48 <=? c) && (c <=? 57))%N then Some (c - 48)%N
  else if ((97 <=? c) && (c <=? 102))%N then Some (c - 87)%N
  else if ((65 <=? c) && (c <=? 70))%N then Some (c - 55)%N
  else None.

Fixpoint hex_value (acc : N) (s : JsString) : option N :=
  match s with
  | [] => Some acc
  | c :: rest => d ← hex_digit c; hex_value (16 * acc + d)%N rest
  end.

Definition sample_castObjectId (s : JsString) : option ObjectId :=
  if bool_decide (length s = 24) then hex_value 0 s else None.

Definition sample_path_prompt (topic : JsString) : JsString :=
  str "Create a comprehensive learning path for " ++ [34%N] ++ topic
  ++ [34%N] ++ str ". Generate exactly 4-6 lessons".

Definition sample_quiz_prompt (lessonTitle lessonContent : JsValue)
    : JsString :=
  str "Based on this lesson: generate exactly 5 multiple-choice questions".

(** The model answers [reply] to every prompt; the ODM accepts every
    document. *)
Definition sample_runtime (reply : JsString) : Runtime :=
  mkRuntime sample_JSON_parse sample_parseInt (fun _ => Some reply)
    sample_path_prompt sample_quiz_prompt sample_castObjectId
    (fun _ => true) (fun _ => true).

Definition alice : ObjectId := 1000%N.
Definition bob : ObjectId := 2000%N.

Definition topic_body (topic : string) : JsValue :=
  JObj [(str "topic", JStr (str topic))].

(** The world after alice asked for a path on Python basics, and the id
    under which the path is then addressed. *)
Definition world_with_path : World :=
  (POST_learning_paths_generate (sample_runtime sample_reply) (Some alice)
     (topic_body "Python basics") 10%Z empty_world).2.

Definition first_id : JsString := str "000000000000000000000000".

(** The same world after alice completed lessons 1 and 2. *)
Definition world_with_two_completed : World :=
  (PATCH_lesson_complete (sample_runtime sample_reply) (Some alice)
     first_id (str "2") 12%Z
     (PATCH_lesson_complete (sample_runtime sample_reply) (Some alice)
        first_id (str "1") 11%Z world_with_path).2).2.

(** A submission: [answers] maps each position to the chosen option. *)
Definition answers_map (chosen : list nat) : JsValue :=
  JObj (imap (fun i c => (index_key i, JNum (of_nat c))) chosen).

Definition question (correct : nat) : JsValue :=
  JObj [(str "question", JStr (str "Which one?"));
        (str "correct", JNum (of_nat correct))].

Definition submission (answers : JsValue) (questions : list JsValue)
    : JsValue :=
  JObj [(str "pathId", JStr first_id); (str "lessonId", JNum (of_nat 1));
        (str "answers", answers); (str "questions", JArr questions)].

(** Forty questions whose correct option is 0, answered with 0 at the
    first twenty-three positions and with 1 at the others. *)
Definition forty_questions : list JsValue := replicate 40 (question 0).
Definition twenty_three_right : JsValue :=
  answers_map (replicate 23 0 ++ replicate 17 1).

(** Eighty such questions, the first forty-six answered with 0. *)
Definition eighty_questions : list JsValue := replicate 80 (question 0).
Definition forty_six_right : JsValue :=
  answers_map (replicate 46 0 ++ replicate 34 1).

(** A request for a quiz on a lesson. *)
Definition quiz_request : JsValue :=
  JObj [(str "pathId", JStr first_id); (str "lessonId", JNum (of_nat 1));
        (str "lessonTitle", JStr (str "Values"));
        (str "lessonContent", JStr (str "Numbers and strings"))].

(** Stored results: three of alice, completed at times 5, 9 and 7, and
    one of bob. *)
Definition result_at (k : N) (user : ObjectId) (time : Date) : QuizResult.t :=
  QuizResult.mk k user (JStr first_id) (JNum (of_nat 1)) (of_Z 80) [] time.

Definition world_with_results : World :=
  mkWorld ∅ [result_at 1 alice 5; result_at 2 bob 6; result_at 3 alice 9;
             result_at 4 alice 7]%Z 5%N [].

(** A question that carries no [correct] field. *)
Definition question_without_correct : JsValue :=
  JObj [(str "question", JStr (str "Which one?"))].
(** * The other routes of [server.js] *)

(** [x + y] on numbers. *)
Definition add (x y : number) : number := SFadd prec emax x y.

(** The answer of a route whose JSON payload is an [A]:
    [res.json(data)] or [res.status(code).json({ error: message })]. *)
Inductive Answer (A : Type) : Type :=
| Sent (code : nat) (data : A)
| Refused (code : nat) (message : string).
Arguments Sent {A} code data.
Arguments Refused {A} code message.

(** [isAuthenticated] in front of such a route. *)
Definition authenticated {A} (session : option ObjectId)
    (next : ObjectId -> World -> Answer A * World)
    (w : World) : Answer A * World :=
  match session with
  | Some user => next user w
  | None => (Refused 401 "Unauthorized. Please login.", w)
  end.

(** ** Listing paths and statistics *)

(** [LearningPath.find({ userId })] and [QuizResult.find({ userId })];
    the documents come in the order the collection enumerates them. *)
Definition LearningPath_find (userId : ObjectId) (w : World)
    : list LearningPath.t :=
  List.filter (fun path => bool_decide (LearningPath.userId path = userId))
    (map snd (map_to_list (paths w))).

Definition QuizResult_find (userId : ObjectId) (w : World)
    : list QuizResult.t :=
  List.filter (fun r => bool_decide (QuizResult.userId r = userId))
    (quizResults w).

(** Paths, most recently created first: the order of
    [.sort({ createdAt: -1 })]. *)
Definition later (a b : LearningPath.t) : Prop :=
  (LearningPath.createdAt b <= LearningPath.createdAt a)%Z.

#[global] Instance later_dec : RelDecision later.
Proof. intros a b. unfold later. apply _. Defined.

(** GET /api/learning-paths (lines 300-309). *)
Definition GET_learning_paths (session : option ObjectId)
    : World -> Answer (list LearningPath.t) * World :=
  authenticated session (fun user w =>
    (Sent 200 (merge_sort later (LearningPath_find user w)), w)).

Record Stats : Type := mkStats {
  totalPaths : nat;
  completedLessons : nat;
  totalLessons : nat;
  overallProgress : number;
  averageQuizScore : number;
  totalQuizzes : nat
}.

(** GET /api/stats, the body of the [try] (lines 487-507). *)
Definition stats_of (user : ObjectId) (w : World) : Stats :=
  let paths := LearningPath_find user w in
  let quizResults := QuizResult_find user w in
  let totalPaths := length paths in
  let completedLessons :=
    fold_left (fun acc path =>
                 acc + completed_count (LearningPath.lessons path)) paths 0 in
  let totalLessons :=
    fold_left (fun acc path => acc + length (LearningPath.lessons path))
      paths 0 in
  let overallProgress :=
    if bool_decide (0 < totalLessons)
    then percent completedLessons totalLessons else of_Z 0 in
  let averageQuizScore :=
    if bool_decide (0 < length quizResults)
    then div (fold_left (fun acc r => add acc (QuizResult.score r))
                quizResults (of_Z 0))
           (of_nat (length quizResults))
    else of_Z 0 in
  mkStats totalPaths completedLessons totalLessons
    (Math_round overallProgress) (Math_round averageQuizScore)
    (length quizResults).

Definition GET_stats (session : option ObjectId)
    : World -> Answer Stats * World :=
  authenticated session (fun user w => (Sent 200 (stats_of user w), w)).

(** ** Accounts and sessions *)

Module User.
Record t : Type := mk {
  _id : ObjectId;
  googleId : JsString;
  email : JsValue;
  name : JsValue;
  picture : JsValue;
  createdAt : Date;
  lastLogin : Date
}.
End User.

(** The profile the Google strategy hands to the verify callback; its
    [id] is the account's subject string. *)
Module Profile.
Record t : Type := mk {
  id : JsString;
  displayName : JsValue;
  emails : JsValue;
  photos : JsValue
}.
End Profile.

(** The [User] collection and the driver's source of fresh [_id]s. *)
Record Accounts : Type := mkAccounts {
  users : gmap ObjectId User.t;
  nextUserId : ObjectId
}.

Definition no_accounts : Accounts := mkAccounts ∅ 0%N.

(** [User.findOne({ googleId })]. *)
Definition User_findOne (googleId : JsString) (a : Accounts)
    : option User.t :=
  List.find (fun user => bool_decide (User.googleId user = googleId))
    (map snd (map_to_list (users a))).

(** [profile.photos[0]?.value]: a TypeError when [photos] is missing,
    [undefined] when it has no first entry. *)
Definition first_photo (photos : JsValue) : option JsValue :=
  photo ← at_index photos 0;
  if nullish photo then Some JUndefined else member photo "value".

(** [profile.emails[0].value]. *)
Definition first_email (emails : JsValue) : option JsValue :=
  at_index emails 0 ≫= (fun entry => member entry "value").

Section Login.
(** Schema validation and the unique indexes on [User.create]. *)
Context (validUser : Accounts -> User.t -> bool).

(** The verify callback of the Google strategy (lines 137-157); [None]
    is [done(error, null)], [Some user] is [done(null, user)]. *)
Definition verify (profile : Profile.t) (now : Date) (a : Accounts)
    : option User.t * Accounts :=
  match User_findOne (Profile.id profile) a with
  | None =>
      match first_email (Profile.emails profile),
            first_photo (Profile.photos profile) with
      | Some email, Some picture =>
          let user := User.mk (nextUserId a) (Profile.id profile) email
                        (Profile.displayName profile) picture now now in
          if validUser a user
          then (Some user,
                mkAccounts (<[nextUserId a := user]> (users a))
                  (N.succ (nextUserId a)))
          else (None, a)
      | _, _ => (None, a)
      end
  | Some user =>
      let user' := User.mk (User._id user) (User.googleId user)
                     (User.email user) (User.name user) (User.picture user)
                     (User.createdAt user) now in
      (Some user', mkAccounts (<[User._id user := user']> (users a))
                     (nextUserId a))
  end.

End Login.

(** [passport.serializeUser] and [passport.deserializeUser]
    (lines 160-171): the session keeps the user's id, each request looks
    the user up again. *)
Definition serializeUser (user : User.t) : ObjectId := User._id user.

Definition deserializeUser (id : ObjectId) (a : Accounts) : option User.t :=
  users a !! id.

(** [req.user] for a request whose session holds [cookie]. *)
Definition req_user (cookie : option ObjectId) (a : Accounts)
    : option User.t :=
  cookie ≫= (fun id => deserializeUser id a).

(** The [session] argument of the routes above: [req.user._id] when
    [req.isAuthenticated()]. *)
Definition session_of (cookie : option ObjectId) (a : Accounts)
    : option ObjectId :=
  User._id <$> req_user cookie a.

(** The OAuth callback (lines 202-207) once the strategy has obtained
    [profile]: a verified user is logged in, an error leaves the session
    as it was. *)
Definition login (validUser : Accounts -> User.t -> bool)
    (profile : Profile.t) (now : Date)
    (cookie : option ObjectId) (a : Accounts)
    : option ObjectId * Accounts :=
  match verify validUser profile now a with
  | (Some user, a') => (Some (serializeUser user), a')
  | (None, a') => (cookie, a')
  end.

Module CurrentUser.
Record t : Type := mk {
  id : ObjectId;
  name : JsValue;
  email : JsValue;
  picture : JsValue
}.
End CurrentUser.

(** GET /api/auth/user (lines 210-217). *)
Definition GET_auth_user (cookie : option ObjectId) (a : Accounts)
    : Answer CurrentUser.t :=
  match req_user cookie a with
  | Some user =>
      Sent 200 (CurrentUser.mk (User._id user) (User.name user)
                  (User.email user) (User.picture user))
  | None => Refused 401 "Unauthorized. Please login."
  end.

(** POST /api/auth/logout (lines 220-227): [req.logout] removes the user
    from the session. *)
Definition POST_auth_logout (cookie : option ObjectId)
    : Answer string * option ObjectId :=
  (Sent 200 "Logged out successfully"%string, None).

(** ** What a request may do to the collections *)

(** The lessons of a path as the API makes them: numbered 1..n in order,
    every one with a quiz, and a completion time exactly on the
    completed ones. *)
Definition lessons_shaped (lessons : list Lesson.t) : Prop :=
  map Lesson.id lessons = map Z.of_nat (seq 1 (length lessons))
  ∧ Forall (fun l => Lesson.hasQuiz l = true
                     ∧ (Lesson.completed l = true
                        ↔ is_Some (Lesson.completedAt l))) lessons.

(** Every document sits under its own [_id], every [_id] in use is below
    the next fresh one, and no two documents share one. *)
Definition ids_fresh (w : World) : Prop :=
  (∀ k path, paths w !! k = Some path ->
     LearningPath._id path = k ∧ (k < nextId w)%N)
  ∧ (∀ r, r ∈ quizResults w ->
       (QuizResult._id r < nextId w)%N
       ∧ paths w !! QuizResult._id r = None)
  ∧ NoDup (map QuizResult._id (quizResults w)).

(** The four things a request of [session] can do to the collections of
    [w], giving [w']. *)
Inductive Effect (session : option ObjectId) (w w' : World) : Prop :=
| Nothing :
    paths w' = paths w ->
    quizResults w' = quizResults w ->
    nextId w' = nextId w ->
    Effect session w w'
| PathCreated (doc : LearningPath.t) :
    session = Some (LearningPath.userId doc) ->
    LearningPath._id doc = nextId w ->
    LearningPath.progress doc = of_Z 0 ->
    lessons_shaped (LearningPath.lessons doc) ->
    Forall (fun l => Lesson.completed l = false)
      (LearningPath.lessons doc) ->
    paths w' = <[nextId w := doc]> (paths w) ->
    quizResults w' = quizResults w ->
    nextId w' = N.succ (nextId w) ->
    Effect session w w'
| LessonCompleted (k : ObjectId) (path : LearningPath.t) (i : nat)
    (l : Lesson.t) (now : Date) :
    session = Some (LearningPath.userId path) ->
    paths w !! k = Some path ->
    LearningPath.lessons path !! i = Some l ->
    paths w'
    = <[LearningPath._id path := with_lesson_completed now i path]>
        (paths w) ->
    quizResults w' = quizResults w ->
    nextId w' = nextId w ->
    Effect session w w'
| ResultStored (doc : QuizResult.t) :
    session = Some (QuizResult.userId doc) ->
    QuizResult._id doc = nextId w ->
    paths w' = paths w ->
    quizResults w' = quizResults w ++ [doc] ->
    nextId w' = N.succ (nextId w) ->
    Effect session w w'.

(** A pending update is for a stored path and one of its lessons; it
    sets the lesson's flag together with a completion time, or it leaves
    out the flag of a lesson that is completed. *)
Definition update_ok (w : World) (u : Update) : Prop :=
  ∃ path l,
    paths w !! update_id u = Some path
    ∧ LearningPath.lessons path !! update_lesson u = Some l
    ∧ (if set_completed u then is_Some (set_completedAt u)
       else Lesson.completed l = true).

Definition suspended_ok (w : World) (s : Suspended) : Prop :=
  match s with
  | AwaitingSave u => update_ok w u
  | AwaitingReply _ _ => True
  end.
(** Every user sits under its own [_id], below the next fresh one, and
    no two users have the same Google id. *)
Definition accounts_ok (a : Accounts) : Prop :=
  (∀ k user, users a !! k = Some user ->
     User._id user = k ∧ (k < nextUserId a)%N)
  ∧ (∀ k1 k2 user1 user2,
       users a !! k1 = Some user1 ->
       users a !! k2 = Some user2 ->
       User.googleId user1 = User.googleId user2 ->
       k1 = k2).

(** The accounts after verify callbacks that run in turn, each one to
    its end before the next starts, starting with none. Two callbacks
    that overlap for the same new Google id both find no user and both
    create one; what then keeps Google ids apart is the unique index,
    which is part of [validUser]. *)
Definition accounts_after_in_turn (validUser : Accounts -> User.t -> bool)
    (calls : list (Profile.t * Date)) : Accounts :=
  fold_left (fun a call => (verify validUser call.1 call.2 a).2) calls
    no_accounts.

(** * The frontend ([SmartLearningApp])

    The component's state is a record of its [useState] variables, each
    with its setter; [alerts] records the calls of [alert]. A handler
    reads the state of the render it was created in and its updates
    apply to the current state; what is given below is the state once
    every request the handler started has been answered. A request made
    through axios succeeds when the answer's status is 200 and throws
    otherwise. *)

Module Quiz.
Record t : Type := mk {
  pathId : JsValue;
  lessonId : JsValue;
  questions : list (nat * JsValue)
}.
End Quiz.

Module App.
Record t : Type := mk {
  user : option CurrentUser.t;
  currentView : string;
  learningPaths : list LearningPath.t;
  activePath : option LearningPath.t;
  currentLesson : option Lesson.t;
  quiz : option Quiz.t;
  quizAnswers : JsValue;
  showResults : bool;
  loading : bool;
  newTopic : JsString;
  stats : option Stats;
  alerts : list string
}.
End App.

Definition setUser (v : option CurrentUser.t) (s : App.t) : App.t :=
  App.mk v (App.currentView s) (App.learningPaths s) (App.activePath s)
    (App.currentLesson s) (App.quiz s) (App.quizAnswers s)
    (App.showResults s) (App.loading s) (App.newTopic s) (App.stats s)
    (App.alerts s).

Definition setCurrentView (v : string) (s : App.t) : App.t :=
  App.mk (App.user s) v (App.learningPaths s) (App.activePath s)
    (App.currentLesson s) (App.quiz s) (App.quizAnswers s)
    (App.showResults s) (App.loading s) (App.newTopic s) (App.stats s)
    (App.alerts s).

Definition setLearningPaths (v : list LearningPath.t) (s : App.t) : App.t :=
  App.mk (App.user s) (App.currentView s) v (App.activePath s)
    (App.currentLesson s) (App.quiz s) (App.quizAnswers s)
    (App.showResults s) (App.loading s) (App.newTopic s) (App.stats s)
    (App.alerts s).

Definition setActivePath (v : option LearningPath.t) (s : App.t) : App.t :=
  App.mk (App.user s) (App.currentView s) (App.learningPaths s) v
    (App.currentLesson s) (App.quiz s) (App.quizAnswers s)
    (App.showResults s) (App.loading s) (App.newTopic s) (App.stats s)
    (App.alerts s).

Definition setQuiz (v : option Quiz.t) (s : App.t) : App.t :=
  App.mk (App.user s) (App.currentView s) (App.learningPaths s)
    (App.activePath s) (App.currentLesson s) v (App.quizAnswers s)
    (App.showResults s) (App.loading s) (App.newTopic s) (App.stats s)
    (App.alerts s).

Definition setQuizAnswers (v : JsValue) (s : App.t) : App.t :=
  App.mk (App.user s) (App.currentView s) (App.learningPaths s)
    (App.activePath s) (App.currentLesson s) (App.quiz s) v
    (App.showResults s) (App.loading s) (App.newTopic s) (App.stats s)
    (App.alerts s).

Definition setShowResults (v : bool) (s : App.t) : App.t :=
  App.mk (App.user s) (App.currentView s) (App.learningPaths s)
    (App.activePath s) (App.currentLesson s) (App.quiz s)
    (App.quizAnswers s) v (App.loading s) (App.newTopic s) (App.stats s)
    (App.alerts s).

Definition setLoading (v : bool) (s : App.t) : App.t :=
  App.mk (App.user s) (App.currentView s) (App.learningPaths s)
    (App.activePath s) (App.currentLesson s) (App.quiz s)
    (App.quizAnswers s) (App.showResults s) v (App.newTopic s) (App.stats s)
    (App.alerts s).

Definition setNewTopic (v : JsString) (s : App.t) : App.t :=
  App.mk (App.user s) (App.currentView s) (App.learningPaths s)
    (App.activePath s) (App.currentLesson s) (App.quiz s)
    (App.quizAnswers s) (App.showResults s) (App.loading s) v (App.stats s)
    (App.alerts s).

Definition setStats (v : option Stats) (s : App.t) : App.t :=
  App.mk (App.user s) (App.currentView s) (App.learningPaths s)
    (App.activePath s) (App.currentLesson s) (App.quiz s)
    (App.quizAnswers s) (App.showResults s) (App.loading s) (App.newTopic s)
    v (App.alerts s).

(** [alert(message)]. *)
Definition alert (message : string) (s : App.t) : App.t :=
  App.mk (App.user s) (App.currentView s) (App.learningPaths s)
    (App.activePath s) (App.currentLesson s) (App.quiz s)
    (App.quizAnswers s) (App.showResults s) (App.loading s) (App.newTopic s)
    (App.stats s) (App.alerts s ++ [message]).

(** The state on first render. *)
Definition initial_app : App.t :=
  App.mk None "dashboard" [] None None None (JObj []) false false [] None [].

(** What the browser talks to: the two stores and the session the
    browser's cookie stands for. *)
Record Backend : Type := mkBackend {
  world : World;
  accounts : Accounts;
  cookie : option ObjectId
}.

Definition session (b : Backend) : option ObjectId :=
  session_of (cookie b) (accounts b).

Definition with_world (w : World) (b : Backend) : Backend :=
  mkBackend w (accounts b) (cookie b).

(** The body of the request for a path on [topic]. *)
Definition topic_request (topic : JsString) : JsValue :=
  JObj [(str "topic", JStr topic)].

(** The body of the request for a quiz on [lesson] of [path]; [text]
    gives the text of an [_id]. *)
Definition quiz_request_for (text : ObjectId -> JsString)
    (path : LearningPath.t) (lesson : Lesson.t) : JsValue :=
  JObj [(str "pathId", JStr (text (LearningPath._id path)));
        (str "lessonId", JNum (of_Z (Lesson.id lesson)));
        (str "lessonTitle", Lesson.title lesson);
        (str "lessonContent", Lesson.content lesson)].

(** [learningPaths.map(p => p._id === updatedPath._id ? updatedPath : p)]. *)
Definition replace_path (updatedPath : LearningPath.t)
    (learningPaths : list LearningPath.t) : list LearningPath.t :=
  map (fun p =>
         if bool_decide (LearningPath._id p = LearningPath._id updatedPath)
         then updatedPath else p) learningPaths.

(** What the component shows: every state variable but [loading]. *)
Definition same_data (s s' : App.t) : Prop :=
  App.user s' = App.user s
  ∧ App.currentView s' = App.currentView s
  ∧ App.learningPaths s' = App.learningPaths s
  ∧ App.activePath s' = App.activePath s
  ∧ App.currentLesson s' = App.currentLesson s
  ∧ App.quiz s' = App.quiz s
  ∧ App.quizAnswers s' = App.quizAnswers s
  ∧ App.showResults s' = App.showResults s
  ∧ App.newTopic s' = App.newTopic s
  ∧ App.stats s' = App.stats s.

(** What axios hands to the caller: the body of an answer with status
    200, the only status with which the routes report success; every
    other answer makes the request throw. *)
Definition response_data (r : Response) : option Body :=
  if bool_decide (status r = 200) then Some (body r) else None.

Section Frontend.
Context (rt : Runtime).
(** The text of an [_id] and of a lesson id inside a URL or a JSON
    body. *)
Context (ObjectId_text : ObjectId -> JsString) (Number_text : Z -> JsString).

(** [checkAuth] (lines 590-598). *)
Definition checkAuth (s : App.t) (b : Backend) : App.t * Backend :=
  match GET_auth_user (cookie b) (accounts b) with
  | Sent _ data => (setUser (Some data) s, b)
  | Refused _ _ => (setUser None s, b)
  end.

(** [handleLogout] (lines 604-614). *)
Definition handleLogout (s : App.t) (b : Backend) : App.t * Backend :=
  match POST_auth_logout (cookie b) with
  | (Sent _ _, cookie') =>
      (setCurrentView "dashboard"
         (setActivePath None (setLearningPaths [] (setUser None s))),
       mkBackend (world b) (accounts b) cookie')
  | (Refused _ _, cookie') => (s, mkBackend (world b) (accounts b) cookie')
  end.

(** [fetchLearningPaths] (lines 616-623). *)
Definition fetchLearningPaths (s : App.t) (b : Backend) : App.t * Backend :=
  match GET_learning_paths (session b) (world b) with
  | (Sent _ data, w) => (setLearningPaths data s, with_world w b)
  | (Refused _ _, w) => (s, with_world w b)
  end.

(** [fetchStats] (lines 625-632). *)
Definition fetchStats (s : App.t) (b : Backend) : App.t * Backend :=
  match GET_stats (session b) (world b) with
  | (Sent _ data, w) => (setStats (Some data) s, with_world w b)
  | (Refused _ _, w) => (s, with_world w b)
  end.

(** The effect on [user] (lines 583-588), run after [user] was set. *)
Definition user_effect (s : App.t) (b : Backend) : App.t * Backend :=
  match App.user s with
  | Some _ =>
      let '(s1, b1) := fetchLearningPaths s b in
      fetchStats s1 b1
  | None => (s, b)
  end.

(** Mounting the component: [checkAuth], then the effect on [user]. *)
Definition mount (s : App.t) (b : Backend) : App.t * Backend :=
  let '(s1, b1) := checkAuth s b in
  user_effect s1 b1.

(** [generateLearningPath] (lines 634-651); [now] is the time at which
    the server handles the request. *)
Definition generateLearningPath (now : Date) (s : App.t) (b : Backend)
    : App.t * Backend :=
  if negb (truthy (JStr (trim (App.newTopic s)))) then (s, b) else
  let s := setLoading true s in
  let '(r, w) :=
    POST_learning_paths_generate rt (session b)
      (topic_request (App.newTopic s)) now (world b) in
  let b := with_world w b in
  match response_data r with
  | Some (path_doc data) =>
      let s := setLearningPaths (data :: App.learningPaths s) s in
      let s := setNewTopic [] s in
      let '(s, b) := fetchStats s b in
      (setLoading false s, b)
  | _ =>
      (setLoading false
         (alert "Failed to generate learning path. Please try again." s), b)
  end.

(** [generateQuiz(lesson)] (lines 653-673), reading [activePath] from
    the render the handler belongs to. *)
Definition generateQuiz (activePath : option LearningPath.t)
    (lesson : Lesson.t) (s : App.t) (b : Backend) : App.t * Backend :=
  let s := setLoading true s in
  match activePath with
  | None =>
      (setLoading false
         (alert "Failed to generate quiz. Please try again." s), b)
  | Some path =>
      let '(r, w) :=
        POST_quizzes_generate rt (session b)
          (quiz_request_for ObjectId_text path lesson) (world b) in
      let b := with_world w b in
      match response_data r with
      | Some (quiz_doc pathId lessonId questions) =>
          let s := setQuiz (Some (Quiz.mk pathId lessonId questions)) s in
          let s := setQuizAnswers (JObj []) s in
          let s := setShowResults false s in
          let s := setCurrentView "quiz" s in
          (setLoading false s, b)
      | _ =>
          (setLoading false
             (alert "Failed to generate quiz. Please try again." s), b)
      end
  end.

(** [completeLesson] (lines 675-698). *)
Definition completeLesson (now : Date) (s : App.t) (b : Backend)
    : App.t * Backend :=
  match App.activePath s, App.currentLesson s with
  | Some path, Some lesson =>
      let '(r, w) :=
        PATCH_lesson_complete rt (session b)
          (ObjectId_text (LearningPath._id path))
          (Number_text (Lesson.id lesson)) now (world b) in
      let b := with_world w b in
      match response_data r with
      | Some (path_doc updatedPath) =>
          let s' :=
            setLearningPaths
              (replace_path updatedPath (App.learningPaths s)) s in
          let s' := setActivePath (Some updatedPath) s' in
          let '(s', b) := fetchStats s' b in
          if Lesson.hasQuiz lesson
          then generateQuiz (App.activePath s) lesson s' b
          else (setCurrentView "path" s', b)
      | _ =>
          (alert "Failed to complete lesson. Please try again." s, b)
      end
  | _, _ => (alert "Failed to complete lesson. Please try again." s, b)
  end.

End Frontend.


(** ** Sample accounts, replies and frontend states *)

(** The user schema on [User.create]: [email] and [name] are non-empty
    strings and no stored user has the same [email]. *)
Definition sample_validUser (a : Accounts) (user : User.t) : bool :=
  match User.email user, User.name user with
  | JStr (_ :: _), JStr (_ :: _) =>
      forallb (fun u => negb (strict_eq (User.email u) (User.email user)))
        (map snd (map_to_list (users a)))
  | _, _ => false
  end.

Definition one_value (s : string) : JsValue :=
  JArr [JObj [(str "value", JStr (str s))]].

(** A Google profile with an email and a photo, and one without
    photo. *)
Definition sample_profile : Profile.t :=
  Profile.mk (str "google-1") (JStr (str "Alice"))
    (one_value "alice@example.org") (one_value "https://example.org/a.png").

Definition profile_without_photo : Profile.t :=
  Profile.mk (str "google-2") (JStr (str "Bob"))
    (one_value "bob@example.org") (JArr []).

(** A profile that the strategy delivers without [emails]. *)
Definition profile_without_emails : Profile.t :=
  Profile.mk (str "google-3") (JStr (str "Carol")) JUndefined (JArr []).

(** The accounts after that first profile logged in at time 5. *)
Definition accounts_with_one : Accounts :=
  (verify sample_validUser sample_profile 5%Z no_accounts).2.

(** Accounts in which alice is registered, and the backend as alice's
    browser sees it once she has a path. *)
Definition alice_account : User.t :=
  User.mk alice (str "google-1") (JStr (str "alice@example.org"))
    (JStr (str "Alice")) JUndefined 1%Z 1%Z.

Definition sample_accounts : Accounts :=
  mkAccounts {[alice := alice_account]} (N.succ alice).

Definition sample_backend : Backend :=
  mkBackend world_with_path sample_accounts (Some alice).

(** The same backend for a browser without session. *)
Definition anonymous_backend : Backend :=
  mkBackend world_with_path sample_accounts None.

(** The text of an [_id]: 24 hexadecimal digits. *)
Definition hex_char (d : N) : N :=
  if (d <? 10)%N then (48 + d)%N else (87 + d)%N.

Fixpoint hex_text (digits : nat) (n : N) : JsString :=
  match digits with
  | 0 => []
  | S digits => hex_text digits (n / 16)%N ++ [hex_char (n mod 16)%N]
  end.

Definition sample_ObjectId_text (id : ObjectId) : JsString := hex_text 24 id.

(** The text of a lesson id inside a URL. *)
Definition sample_Number_text (n : Z) : JsString :=
  str (NilEmpty.string_of_int (Z.to_int n)).

(** The state in which the path stored under [k] in [w] is open at its
    lesson number [i] (from 0): what the dashboard and the path view
    set before [completeLesson] can be clicked. *)
Definition app_on_lesson (w : World) (k : ObjectId) (i : nat) : App.t :=
  let path := paths w !! k in
  App.mk None "lesson" (option_list path) path
    (path ≫= fun p => LearningPath.lessons p !! i)
    None (JObj []) false false [] None [].

(** The state with [topic] typed into the dashboard's input. *)
Definition app_with_topic (topic : JsString) : App.t :=
  App.mk None "dashboard" [] None None None (JObj []) false false topic
    None [].




(** * Properties *)

Ltac run_handler :=
  unfold catching, isAuthenticated, bind, try, ret, respond, throw; simpl.

(** Closed computations on sample data. *)
Ltac by_evaluation := vm_compute; reflexivity.

(** ** Strings *)

Lemma trimStart_blank s : forallb is_whitespace s = true -> trimStart s = [].
Proof.
  induction s as [|c s IH]; simpl; [done|].
  intros [Hc Hs]%andb_prop. rewrite Hc. auto.
Qed.

Lemma trim_blank s : forallb is_whitespace s = true -> trim s = [].
Proof. intros H. unfold trim. by rewrite (trimStart_blank s H). Qed.

(** ** Lessons *)

Lemma number_lessons_spec entries : ∀ idx lessons,
  number_lessons entries idx = Some lessons ->
  map Lesson.id lessons = map Z.of_nat (seq (S idx) (length entries))
  ∧ Forall (fun l => Lesson.completed l = false ∧ Lesson.hasQuiz l = true
                     ∧ Lesson.completedAt l = None) lessons
  ∧ Forall2 (fun l e => member e "title" = Some (Lesson.title l)
                        ∧ member e "content" = Some (Lesson.content l))
      lessons entries.
Proof.
  induction entries as [|e entries IH]; intros idx lessons; simpl.
  - intros [= <-]. by repeat constructor.
  - destruct (member e "title") as [t|] eqn:Ht; [|done].
    destruct (member e "content") as [c|] eqn:Hc; [|done]. simpl.
    destruct (number_lessons entries (S idx)) as [others|] eqn:Ho; [|done].
    simpl. intros [= <-].
    destruct (IH _ _ Ho) as (Hid & Hflags & Htext).
    split_and!.
    + simpl. f_equal; [lia | done].
    + by constructor.
    + by constructor.
Qed.

Lemma find_lesson_Some lessonId lessons i :
  find_lesson lessonId lessons = Some i ↔
  ∃ l, lessons !! i = Some l ∧ Some (Lesson.id l) = lessonId
       ∧ ∀ j l', lessons !! j = Some l' -> j < i ->
           Some (Lesson.id l') ≠ lessonId.
Proof.
  unfold find_lesson. rewrite fmap_Some. split.
  - intros ([j l] & Hfind & ->). apply list_find_Some in Hfind.
    destruct Hfind as (Hl & Hid & Hfirst). by exists l.
  - intros (l & Hl & Hid & Hfirst). exists (i, l). split; [|done].
    by apply list_find_Some.
Qed.

Lemma find_lesson_None lessonId lessons :
  find_lesson lessonId lessons = None ↔
  ∀ l, l ∈ lessons -> Some (Lesson.id l) ≠ lessonId.
Proof.
  unfold find_lesson. rewrite fmap_None, list_find_None, Forall_forall. done.
Qed.

Lemma find_lesson_present n lessons :
  n ∈ map Lesson.id lessons -> is_Some (find_lesson (Some n) lessons).
Proof.
  intros Hin. destruct (find_lesson (Some n) lessons) eqn:Hfind; [eauto|].
  rewrite find_lesson_None in Hfind.
  apply list_elem_of_In, in_map_iff in Hin as (l & <- & Hl).
  apply list_elem_of_In in Hl. by destruct (Hfind l Hl).
Qed.

Lemma completed_count_alter now lessons : ∀ i l,
  lessons !! i = Some l ->
  completed_count (alter (mark_completed now) i lessons)
  = completed_count lessons + (if Lesson.completed l then 0 else 1).
Proof.
  unfold completed_count.
  induction lessons as [|x lessons IH]; intros [|i] l; simpl; try done.
  - intros [= ->]. destruct (Lesson.completed l); simpl; lia.
  - intros Hl. specialize (IH i l Hl).
    change (list_alter (mark_completed now) i lessons)
      with (alter (mark_completed now) i lessons).
    destruct (Lesson.completed x); simpl; lia.
Qed.

Lemma completed_count_zero lessons l :
  completed_count lessons = 0 -> l ∈ lessons -> Lesson.completed l = false.
Proof.
  unfold completed_count. intros Hzero Hl.
  destruct (Lesson.completed l) eqn:Hc; [|done]. exfalso.
  assert (In l (List.filter Lesson.completed lessons)) as Hmem.
  { apply filter_In. split; [by apply list_elem_of_In | done]. }
  by destruct (List.filter Lesson.completed lessons).
Qed.

Lemma completed_count_fresh lessons :
  Forall (fun l => Lesson.completed l = false) lessons ->
  completed_count lessons = 0.
Proof.
  unfold completed_count. induction 1 as [|l lessons Hl _ IH]; simpl; [done|].
  by rewrite Hl.
Qed.

(** ** The path routes, case by case *)

Section PathRoutes.
Context (rt : Runtime).

Lemma findOne_foreign user id w oid :
  castObjectId rt id = Some oid ->
  (∀ path, paths w !! oid = Some path -> LearningPath.userId path ≠ user) ->
  LearningPath_findOne rt id user w = (Value None, w).
Proof.
  intros Hcast Hforeign. unfold LearningPath_findOne. rewrite Hcast.
  destruct (paths w !! oid) as [path|] eqn:Hpath; [|done].
  by rewrite bool_decide_eq_false_2 by eauto.
Qed.

Lemma findOne_result user id w :
  LearningPath_findOne rt id user w = (Thrown, w)
  ∨ LearningPath_findOne rt id user w = (Value None, w)
  ∨ ∃ oid path, castObjectId rt id = Some oid
                ∧ paths w !! oid = Some path
                ∧ LearningPath.userId path = user
                ∧ LearningPath_findOne rt id user w = (Value (Some path), w).
Proof.
  unfold LearningPath_findOne.
  destruct (castObjectId rt id) as [oid|]; [|by left].
  destruct (paths w !! oid) as [path|] eqn:Hpath; [|by right; left].
  case_bool_decide; [|by right; left]. right; right. by exists oid, path.
Qed.

Lemma PATCH_owned user id lessonId now w oid path :
  castObjectId rt id = Some oid ->
  paths w !! oid = Some path ->
  LearningPath.userId path = user ->
  PATCH_lesson_complete rt (Some user) id lessonId now w
  = match find_lesson (parseInt rt lessonId) (LearningPath.lessons path) with
    | None => (fail 404 "Lesson not found", w)
    | Some i =>
        let path' := with_lesson_completed now i path in
        (json (path_doc path'),
         mkWorld (<[LearningPath._id path := path']> (paths w))
           (quizResults w) (nextId w) (prompts w))
    end.
Proof.
  intros Hcast Hpath Huser.
  unfold PATCH_lesson_complete, complete_lesson, LearningPath_findOne.
  run_handler. rewrite Hcast, Hpath. rewrite bool_decide_eq_true_2 by done.
  by destruct (find_lesson _ _).
Qed.

End PathRoutes.

Lemma no_foreign_path_in_response rt user id lessonId now w path :
  body (GET_learning_path rt (Some user) id w).1 = path_doc path
  ∨ body (PATCH_lesson_complete rt (Some user) id lessonId now w).1
    = path_doc path ->
  LearningPath.userId path = user.
Proof.
  unfold GET_learning_path, get_learning_path, PATCH_lesson_complete,
    complete_lesson.
  run_handler.
  destruct (findOne_result rt user id w)
    as [-> | [-> | (oid & found & _ & _ & Howner & ->)]]; simpl.
  - by intros [?|?].
  - by intros [?|?].
  - destruct (find_lesson _ _); simpl; intros [[= <-] | H]; try done.
    by injection H as <-.
Qed.

(** An id string that the ODM cannot cast makes the query throw: both
    routes answer 500 and the world is as it was. *)
Lemma uncastable_id_is_500 rt user id lessonId now w :
  castObjectId rt id = None ->
  GET_learning_path rt (Some user) id w
  = (fail 500 "Failed to fetch learning path", w)
  ∧ PATCH_lesson_complete rt (Some user) id lessonId now w
    = (fail 500 "Failed to update lesson", w).
Proof.
  intros Hcast.
  unfold GET_learning_path, get_learning_path, PATCH_lesson_complete,
    complete_lesson, LearningPath_findOne.
  run_handler. by rewrite Hcast.
Qed.

(** C1. Completing a lesson whose id occurs in an owned path answers with
    the updated path and stores it: the first lesson carrying that id now
    has [completed = true] and [completedAt] set to the time of the
    request, no other lesson changes, and the stored progress is
    [(completedCount / lessons.length) * 100] computed in double
    precision over the updated flags. On a path of five lessons this is
    20 when no lesson was completed before and 60 when two others
    were. *)
Theorem complete_lesson_updates rt user id lessonId now w oid path n :
  castObjectId rt id = Some oid ->
  paths w !! oid = Some path ->
  LearningPath.userId path = user ->
  parseInt rt lessonId = Some n ->
  n ∈ map Lesson.id (LearningPath.lessons path) ->
  ∃ i l path',
    PATCH_lesson_complete rt (Some user) id lessonId now w
    = (json (path_doc path'),
       mkWorld (<[LearningPath._id path := path']> (paths w))
         (quizResults w) (nextId w) (prompts w))
    ∧ LearningPath.lessons path !! i = Some l
    ∧ Lesson.id l = n
    ∧ (∀ j l', LearningPath.lessons path !! j = Some l' -> j < i ->
         Lesson.id l' ≠ n)
    ∧ LearningPath.lessons path' !! i
      = Some (Lesson.mk n (Lesson.title l) (Lesson.content l) true
                (Lesson.hasQuiz l) (Some now))
    ∧ (∀ j, j ≠ i ->
         LearningPath.lessons path' !! j = LearningPath.lessons path !! j)
    ∧ length (LearningPath.lessons path') = length (LearningPath.lessons path)
    ∧ completed_count (LearningPath.lessons path')
      = completed_count (LearningPath.lessons path)
        + (if Lesson.completed l then 0 else 1)
    ∧ LearningPath.progress path'
      = percent (completed_count (LearningPath.lessons path'))
          (length (LearningPath.lessons path'))
    ∧ (length (LearningPath.lessons path) = 5 ->
       completed_count (LearningPath.lessons path) = 0 ->
       LearningPath.progress path' = of_Z 20)
    ∧ (length (LearningPath.lessons path) = 5 ->
       completed_count (LearningPath.lessons path) = 2 ->
       Lesson.completed l = false ->
       LearningPath.progress path' = of_Z 60).
Proof.
  intros Hcast Hpath Huser Hparse Hin.
  destruct (find_lesson_present _ _ Hin) as [i Hfind].
  pose proof Hfind as (l & Hl & [= Hid] & Hfirst)%find_lesson_Some.
  exists i, l, (with_lesson_completed now i path).
  rewrite (PATCH_owned rt user id lessonId now w oid path) by done.
  rewrite Hparse, Hfind. simpl.
  pose proof (completed_count_alter now _ _ _ Hl) as Hcount.
  assert (length (alter (mark_completed now) i (LearningPath.lessons path))
          = length (LearningPath.lessons path)) as Hlen by apply length_alter.
  split_and!; try done.
  - intros j l' Hl' Hj Heq. apply (Hfirst j l' Hl' Hj). by rewrite Heq.
  - rewrite list_lookup_alter_eq, Hl. simpl. unfold mark_completed.
    by rewrite Hid.
  - intros j Hj. by apply list_lookup_alter_ne.
  - intros H5 H0. rewrite Hcount, Hlen, H5, H0.
    rewrite (completed_count_zero _ l H0)
      by (by eapply list_elem_of_lookup_2).
    by_evaluation.
  - intros H5 H2 Hc. rewrite Hcount, Hlen, H5, H2, Hc. by_evaluation.
Qed.

(** On the sample path of five lessons, alice completes lesson 3: first
    on the fresh path, then after lessons 1 and 2. *)
Lemma complete_lesson_updates_witness :
  (∃ path',
     (PATCH_lesson_complete (sample_runtime sample_reply) (Some alice)
        first_id (str "3") 20%Z world_with_path).1 = json (path_doc path')
     ∧ LearningPath.progress path' = of_Z 20)
  ∧ (∃ path',
       (PATCH_lesson_complete (sample_runtime sample_reply) (Some alice)
          first_id (str "3") 20%Z world_with_two_completed).1
       = json (path_doc path')
       ∧ LearningPath.progress path' = of_Z 60).
Proof.
  split.
  - assert (∃ path, paths world_with_path !! 0%N = Some path
                    ∧ LearningPath.userId path = alice
                    ∧ 3%Z ∈ map Lesson.id (LearningPath.lessons path)
                    ∧ length (LearningPath.lessons path) = 5
                    ∧ completed_count (LearningPath.lessons path) = 0)
      as (path & Hpath & Howner & Hin & Hlen & Hcount).
    { eexists. split; [by_evaluation|]. split; [by_evaluation|].
      split; [|split; by_evaluation].
      apply list_elem_of_In. vm_compute. tauto. }
    destruct (complete_lesson_updates (sample_runtime sample_reply) alice
                first_id (str "3") 20%Z world_with_path 0%N path 3%Z)
      as (i & l & path' & Hrun & _ & _ & _ & _ & _ & _ & _ & _ & H20 & _);
      [by_evaluation | done | done | by_evaluation | done |].
    exists path'. split; [by rewrite Hrun | by apply H20].
  - assert (∃ path, paths world_with_two_completed !! 0%N = Some path
                    ∧ LearningPath.userId path = alice
                    ∧ 3%Z ∈ map Lesson.id (LearningPath.lessons path)
                    ∧ length (LearningPath.lessons path) = 5
                    ∧ completed_count (LearningPath.lessons path) = 2
                    ∧ Lesson.id <$> LearningPath.lessons path
                      = [1; 2; 3; 4; 5]%Z
                    ∧ Lesson.completed <$> LearningPath.lessons path !! 2
                      = Some false)
      as (path & Hpath & Howner & Hin & Hlen & Hcount & Hids & Hthird).
    { eexists. split; [by_evaluation|]. split; [by_evaluation|].
      split; [|split_and!; by_evaluation].
      apply list_elem_of_In. vm_compute. tauto. }
    destruct (complete_lesson_updates (sample_runtime sample_reply) alice
                first_id (str "3") 20%Z world_with_two_completed 0%N path 3%Z)
      as (i & l & path' & Hrun & Hl & Hid & _ & _ & _ & _ & _ & _ & _ & H60);
      [by_evaluation | done | done | by_evaluation | done |].
    exists path'. split; [by rewrite Hrun|].
    apply H60; [done | done |].
    assert (i = 2) as ->.
    { pose proof (f_equal (fmap Lesson.id) Hl) as Hi.
      rewrite <- list_lookup_fmap, Hids in Hi. simpl in Hi. rewrite Hid in Hi.
      by destruct i as [|[|[|[|[|]]]]]. }
    rewrite Hl in Hthird. by injection Hthird.
Defined.

(** C4, as the code has it. The id of the route is cast to an ObjectId
    before the lookup. When the cast succeeds and the id denotes no path
    of the caller (no path at all, or a path of another user), fetching
    the path and completing a lesson on it both answer 404 "Learning
    path not found" and leave the world as it was; completing a lesson
    whose id is not in an owned path answers 404 "Lesson not found".
    When the cast fails the lookup throws and both routes answer 500
    with their generic message. In every case a path document returned
    by either route belongs to the caller. *)
Theorem path_lookup_outcomes rt user id lessonId now w :
  (∀ oid,
     castObjectId rt id = Some oid ->
     paths w !! oid = None
     ∨ (∃ path, paths w !! oid = Some path
                ∧ LearningPath.userId path ≠ user) ->
     GET_learning_path rt (Some user) id w
     = (fail 404 "Learning path not found", w)
     ∧ PATCH_lesson_complete rt (Some user) id lessonId now w
       = (fail 404 "Learning path not found", w))
  ∧ (∀ oid path,
       castObjectId rt id = Some oid ->
       paths w !! oid = Some path ->
       LearningPath.userId path = user ->
       (∀ l, l ∈ LearningPath.lessons path ->
          Some (Lesson.id l) ≠ parseInt rt lessonId) ->
       PATCH_lesson_complete rt (Some user) id lessonId now w
       = (fail 404 "Lesson not found", w))
  ∧ (castObjectId rt id = None ->
     GET_learning_path rt (Some user) id w
     = (fail 500 "Failed to fetch learning path", w)
     ∧ PATCH_lesson_complete rt (Some user) id lessonId now w
       = (fail 500 "Failed to update lesson", w))
  ∧ (∀ path,
       body (GET_learning_path rt (Some user) id w).1 = path_doc path
       ∨ body (PATCH_lesson_complete rt (Some user) id lessonId now w).1
         = path_doc path ->
       LearningPath.userId path = user).
Proof.
  split_and!.
  - intros oid Hcast Hforeign.
    assert (LearningPath_findOne rt id user w = (Value None, w)) as Hfind.
    { apply (findOne_foreign rt user id w oid Hcast).
      intros path Hpath.
      destruct Hforeign as [Hnone | (path' & Hpath' & Hother)]; congruence. }
    unfold GET_learning_path, get_learning_path, PATCH_lesson_complete,
      complete_lesson.
    run_handler. by rewrite Hfind.
  - intros oid path Hcast Hpath Huser Habsent.
    rewrite (PATCH_owned rt user id lessonId now w oid path) by done.
    by rewrite (proj2 (find_lesson_None _ _) Habsent).
  - apply uncastable_id_is_500.
  - apply no_foreign_path_in_response.
Qed.

(** Bob asks for alice's path; alice asks for a path that does not exist
    and for lesson 9 of her five-lesson path. *)
Lemma path_lookup_outcomes_witness :
  GET_learning_path (sample_runtime sample_reply) (Some bob) first_id
    world_with_path
  = (fail 404 "Learning path not found", world_with_path)
  ∧ PATCH_lesson_complete (sample_runtime sample_reply) (Some alice)
      (str "00000000000000000000000f") (str "1") 20%Z world_with_path
    = (fail 404 "Learning path not found", world_with_path)
  ∧ PATCH_lesson_complete (sample_runtime sample_reply) (Some alice)
      first_id (str "9") 20%Z world_with_path
    = (fail 404 "Lesson not found", world_with_path).
Proof.
  split_and!.
  - destruct (path_lookup_outcomes (sample_runtime sample_reply) bob
                first_id (str "1") 20%Z world_with_path)
      as (Hforeign & _ & _ & _).
    apply (Hforeign 0%N); [by_evaluation|].
    right. eexists. split; [by_evaluation | by vm_compute].
  - destruct (path_lookup_outcomes (sample_runtime sample_reply) alice
                (str "00000000000000000000000f") (str "1") 20%Z
                world_with_path)
      as (Hmissing & _ & _ & _).
    apply (Hmissing 15%N); [by_evaluation|]. left. by_evaluation.
  - destruct (path_lookup_outcomes (sample_runtime sample_reply) alice
                first_id (str "9") 20%Z world_with_path)
      as (_ & Hlesson & _ & _).
    eapply (Hlesson 0%N); [by_evaluation | by_evaluation | by_evaluation |].
    intros l Hl. vm_compute in Hl.
    repeat (apply elem_of_cons in Hl as [-> | Hl]; [by vm_compute|]).
    by apply not_elem_of_nil in Hl.
Defined.

(** A path id that is not an ObjectId: no path has the id [abc], yet the
    answer to alice is 500, not 404. *)
Lemma malformed_path_id_is_500 :
  castObjectId (sample_runtime sample_reply) (str "abc") = None
  ∧ GET_learning_path (sample_runtime sample_reply) (Some alice) (str "abc")
      world_with_path
    = (fail 500 "Failed to fetch learning path", world_with_path)
  ∧ PATCH_lesson_complete (sample_runtime sample_reply) (Some alice)
      (str "abc") (str "1") 20%Z world_with_path
    = (fail 500 "Failed to update lesson", world_with_path).
Proof. split_and!; by_evaluation. Qed.

(** C5. A create-path request whose topic is missing, empty or made of
    white space only is answered 400 "Topic is required"; the world is
    returned as it was: no prompt was sent to the model and no document
    was stored. *)
Theorem blank_topic_rejected rt user body now w topic :
  member body "topic" = Some topic ->
  blank_topic topic ->
  POST_learning_paths_generate rt (Some user) body now w
  = (fail 400 "Topic is required", w).
Proof.
  intros Hm Hb.
  unfold POST_learning_paths_generate, generate_learning_path.
  run_handler. rewrite Hm. simpl.
  destruct Hb as [->|[->|(s & -> & Hs)]]; [done..|].
  destruct s as [|c s]; [done|]. simpl.
  by rewrite (trim_blank _ Hs).
Qed.

(** A topic of two spaces and a tab. *)
Lemma blank_topic_rejected_witness :
  POST_learning_paths_generate (sample_runtime sample_reply) (Some alice)
    (JObj [(str "topic", JStr [32; 32; 9]%N)]) 10%Z world_with_path
  = (fail 400 "Topic is required", world_with_path).
Proof.
  apply (blank_topic_rejected _ _ _ _ _ (JStr [32; 32; 9]%N)).
  - reflexivity.
  - right; right. eexists. split; reflexivity.
Defined.

(** C6. When path generation succeeds, the model's reply contained a JSON
    object whose [lessons] array has some [n] entries, and the path that
    is stored and returned has [n] lessons, in the order of the reply,
    with ids 1..n, every one not completed (and without completion
    time), every one with [hasQuiz] set, and progress 0. *)
Theorem generated_path_shape rt user body now w :
  status (POST_learning_paths_generate rt (Some user) body now w).1 = 200 ->
  ∃ text responseText m pathData entries path,
    member body "topic" = Some (JStr text)
    ∧ messages_create rt (path_prompt rt text) = Some responseText
    ∧ match_braces responseText = Some m
    ∧ JSON_parse rt m = Some pathData
    ∧ member pathData "lessons" = Some (JArr entries)
    ∧ (POST_learning_paths_generate rt (Some user) body now w).1
      = json (path_doc path)
    ∧ paths (POST_learning_paths_generate rt (Some user) body now w).2
        !! LearningPath._id path = Some path
    ∧ LearningPath.userId path = user
    ∧ LearningPath.progress path = of_Z 0
    ∧ map Lesson.id (LearningPath.lessons path)
      = map Z.of_nat (seq 1 (length entries))
    ∧ Forall (fun l => Lesson.completed l = false ∧ Lesson.hasQuiz l = true
                       ∧ Lesson.completedAt l = None)
        (LearningPath.lessons path)
    ∧ Forall2 (fun l e => member e "title" = Some (Lesson.title l)
                          ∧ member e "content" = Some (Lesson.content l))
        (LearningPath.lessons path) entries.
Proof.
  unfold POST_learning_paths_generate, generate_learning_path.
  run_handler.
  destruct (member body "topic") as [topic|] eqn:Htopic; simpl; [|done].
  destruct (truthy topic) eqn:Htruthy; simpl; [|done].
  destruct topic as [| | | |text| |]; simpl; try done.
  case_bool_decide; simpl; [done|].
  unfold call_model.
  destruct (messages_create rt (path_prompt rt text)) as [responseText|]
    eqn:Hreply; simpl; [|done].
  unfold parse_reply.
  destruct (match_braces responseText) as [m|] eqn:Hmatch; simpl; [|done].
  destruct (JSON_parse rt m) as [pathData|] eqn:Hparse; simpl; [|done].
  destruct (truthy pathData) eqn:Hdata; simpl; [|done].
  destruct (member pathData "lessons") as [listed|] eqn:Hlessons; simpl;
    [|done].
  destruct listed as [| | | | |entries|]; simpl; try done.
  destruct (number_lessons entries 0) as [lessons|] eqn:Hnum; simpl; [|done].
  destruct (member pathData "title") as [title|] eqn:Htitle; simpl; [|done].
  destruct (member pathData "description") as [description|] eqn:Hdesc;
    simpl; [|done].
  unfold LearningPath_create. simpl.
  destruct (validLearningPath rt _) eqn:Hvalid; simpl; [|done].
  intros _.
  destruct (number_lessons_spec _ _ _ Hnum) as (Hid & Hflags & Htext).
  eexists text, responseText, m, pathData, entries, _.
  split_and!; try done.
  simpl. by rewrite lookup_insert_eq.
Qed.

(** The spec's example: topic "Python basics", five lessons in the
    reply. *)
Lemma generated_path_shape_witness :
  ∃ path,
    (POST_learning_paths_generate (sample_runtime sample_reply) (Some alice)
       (topic_body "Python basics") 10%Z empty_world).1
    = json (path_doc path)
    ∧ map Lesson.id (LearningPath.lessons path) = [1; 2; 3; 4; 5]%Z
    ∧ LearningPath.progress path = of_Z 0.
Proof.
  destruct (generated_path_shape (sample_runtime sample_reply) alice
              (topic_body "Python basics") 10%Z empty_world)
    as (text & responseText & m & pathData & entries & path & _ & Hreply
        & Hmatch & Hparse & Hlessons & Hrun & _ & _ & Hprogress & Hids & _);
    [by_evaluation|].
  exists path. split_and!; [done | | done].
  rewrite Hids.
  injection Hreply as <-. vm_compute in Hmatch. injection Hmatch as <-.
  vm_compute in Hparse. injection Hparse as <-.
  vm_compute in Hlessons. injection Hlessons as <-. reflexivity.
Defined.

(** ** What each route does to the stored paths *)

Ltac inner_case :=
  match goal with
  | |- context [match ?x with _ => _ end] =>
      lazymatch x with
      | context [match _ with _ => _ end] => fail
      | _ => destruct x eqn:?
      end
  end.
Ltac split_cases := repeat (simpl; inner_case); simpl.

Lemma generate_paths rt session body now w :
  let w' := (POST_learning_paths_generate rt session body now w).2 in
  paths w' = paths w
  ∨ ∃ doc lessons,
      paths w' = <[LearningPath._id doc := doc]> (paths w)
      ∧ LearningPath.progress doc = of_Z 0
      ∧ LearningPath.lessons doc = lessons
      ∧ Forall (fun l => Lesson.completed l = false) lessons.
Proof.
  unfold POST_learning_paths_generate, generate_learning_path,
    LearningPath_create, call_model, parse_reply.
  run_handler.
  split_cases; auto.
  right.
  match goal with H : number_lessons _ _ = Some _ |- _ =>
    destruct (number_lessons_spec _ _ _ H) as (_ & Hflags & _) end.
  eexists (LearningPath.mk _ _ _ _ _ _ _ _), _.
  split_and!; [reflexivity..|].
  eapply Forall_impl; [exact Hflags|]. by intros ? (? & _).
Qed.

Lemma complete_paths rt session id lessonId now w :
  let w' := (PATCH_lesson_complete rt session id lessonId now w).2 in
  paths w' = paths w
  ∨ ∃ path i l,
      LearningPath.lessons path !! i = Some l
      ∧ paths w'
        = <[LearningPath._id path := with_lesson_completed now i path]>
            (paths w).
Proof.
  unfold PATCH_lesson_complete, complete_lesson, LearningPath_findOne,
    LearningPath_save.
  run_handler.
  split_cases; auto.
  right.
  match goal with H : find_lesson _ _ = Some _ |- _ =>
    apply find_lesson_Some in H as (l & Hl & _) end.
  eauto.
Qed.

Lemma other_routes_paths rt session w :
  (∀ id, paths (GET_learning_path rt session id w).2 = paths w)
  ∧ (∀ body, paths (POST_quizzes_generate rt session body w).2 = paths w)
  ∧ (∀ body now,
       paths (POST_quizzes_submit rt session body now w).2 = paths w)
  ∧ paths (GET_quizzes_history session w).2 = paths w.
Proof.
  split_and!; intros;
    unfold GET_learning_path, get_learning_path, LearningPath_findOne,
      POST_quizzes_generate, generate_quiz, call_model, parse_reply,
      POST_quizzes_submit, submit_quiz, QuizResult_create,
      GET_quizzes_history, quiz_history, get;
    run_handler; split_cases; auto.
Qed.

Lemma completed_path_derivable now i path l :
  LearningPath.lessons path !! i = Some l ->
  LearningPath.progress (with_lesson_completed now i path)
  = progress_of_flags (LearningPath.lessons (with_lesson_completed now i path)).
Proof.
  intros Hl. unfold progress_of_flags. simpl.
  rewrite bool_decide_eq_false_2; [done|].
  intros Hzero.
  assert (Lesson.completed (mark_completed now l) = false) as Hflag; [|done].
  apply (completed_count_zero _ _ Hzero).
  eapply (list_elem_of_lookup_2 _ i).
  by rewrite list_lookup_alter_eq, Hl.
Qed.

Lemma handle_keeps_derivable rt w session req :
  progress_derivable w -> progress_derivable (handle rt session req w).2.
Proof.
  intros Hinv.
  destruct (other_routes_paths rt session w) as (Hget & Hquiz & Hsubmit & Hhist).
  unfold progress_derivable.
  destruct req as [body now | id | id lessonId now | body | body now |]; simpl.
  - destruct (generate_paths rt session body now w)
      as [-> | (doc & lessons & -> & Hzero & Hlessons & Hfresh)]; [done|].
    intros k path [[<- <-] | [_ Hold]]%lookup_insert_Some; [|by eapply Hinv].
    rewrite Hzero, Hlessons. unfold progress_of_flags.
    by rewrite (completed_count_fresh _ Hfresh).
  - by rewrite Hget.
  - destruct (complete_paths rt session id lessonId now w)
      as [-> | (found & i & l & Hl & ->)]; [done|].
    intros k path [[_ <-] | [_ Hold]]%lookup_insert_Some; [|by eapply Hinv].
    by eapply completed_path_derivable.
  - by rewrite Hquiz.
  - by rewrite Hsubmit.
  - by rewrite Hhist.
Qed.

(** C7, as the code has it. As long as requests are handled in turn, the
    progress stored with a path is the one its lessons' completed flags
    determine, namely 0 while no lesson is completed and
    [(completedCount / lessons.length) * 100] in double precision
    otherwise: this holds of the empty store, every request run from
    start to end preserves it, and so it holds in every world that
    requests handled in turn can reach. *)
Theorem progress_stays_derivable rt :
  progress_derivable empty_world
  ∧ (∀ w session req,
       progress_derivable w -> progress_derivable (handle rt session req w).2)
  ∧ (∀ w, reachable_in_turn rt w -> progress_derivable w).
Proof.
  assert (progress_derivable empty_world) as Hempty
    by (intros k path Hk; simpl in Hk; by rewrite lookup_empty in Hk).
  split_and!; [done | intros; by apply handle_keeps_derivable |].
  induction 1; [done | by apply handle_keeps_derivable].
Qed.

(** After alice generated the sample path and completed its lesson 3. *)
Lemma progress_stays_derivable_witness :
  let rt := sample_runtime sample_reply in
  let w := (handle rt (Some alice) (CompleteLesson first_id (str "3") 20%Z)
              (handle rt (Some alice)
                 (GeneratePath (topic_body "Python basics") 10%Z)
                 empty_world).2).2 in
  reachable_in_turn rt w
  ∧ ∃ path, paths w !! 0%N = Some path
            ∧ completed_count (LearningPath.lessons path) = 1
            ∧ LearningPath.progress path = of_Z 20.
Proof.
  intros rt w.
  assert (reachable_in_turn rt w) as Hreach
    by (do 2 apply in_turn_step; constructor).
  split; [done|].
  assert (∃ path, paths w !! 0%N = Some path
                  ∧ completed_count (LearningPath.lessons path) = 1
                  ∧ length (LearningPath.lessons path) = 5)
    as (path & Hpath & Hcount & Hlen).
  { eexists. split; [by_evaluation|]. split; by_evaluation. }
  exists path. split_and!; [done..|].
  rewrite (proj2 (proj2 (progress_stays_derivable rt)) w Hreach 0%N path Hpath).
  unfold progress_of_flags. rewrite Hcount, Hlen. by_evaluation.
Defined.

(** Two completions that overlap. Alice has the sample path, with no
    lesson completed; the completions of its lessons 1 and 2 both read
    the path before either writes, and then both updates reach the
    store. Each update sets the flag of its own lesson and the progress
    computed from the document it read, so the stored path has two
    completed lessons of five with the progress 20 of one, where the
    flags determine 40. *)
Lemma overlapping_completions_break_progress :
  let rt := sample_runtime sample_reply in
  let w0 := (handle rt (Some alice)
               (GeneratePath (topic_body "Python basics") 10%Z)
               empty_world).2 in
  ∃ read1 u1 read2 u2 path,
    complete_lesson_read rt alice first_id (str "1") 11%Z w0
    = (Value (read1, u1), w0)
    ∧ complete_lesson_read rt alice first_id (str "2") 12%Z w0
      = (Value (read2, u2), w0)
    ∧ let w := (LearningPath_updateOne u2
                  (LearningPath_updateOne u1 w0).2).2 in
      reachable rt w []
      ∧ paths w !! 0%N = Some path
      ∧ map Lesson.completed (LearningPath.lessons path)
        = [true; true; false; false; false]
      ∧ LearningPath.progress path = of_Z 20
      ∧ progress_of_flags (LearningPath.lessons path) = of_Z 40
      ∧ ¬ progress_derivable w.
Proof.
  intros rt w0. do 5 eexists.
  split; [by_evaluation|]. split; [by_evaluation|].
  intros w.
  assert (reachable rt w []) as Hreach.
  { apply (reachable_write rt _ [] _ []).
    apply (reachable_write rt w0 [] _ [_]).
    eapply (reachable_read rt w0 [_] alice first_id (str "1") 11%Z);
      [|by_evaluation].
    eapply (reachable_read rt w0 [] alice first_id (str "2") 12%Z);
      [|by_evaluation].
    apply reachable_request, reachable_empty. }
  split; [exact Hreach|].
  split; [by_evaluation|].
  split; [by_evaluation|].
  split; [by_evaluation|].
  split; [by_evaluation|].
  intros Hderivable.
  pose proof (Hderivable 0%N _ ltac:(by_evaluation)) as Hprogress.
  vm_compute in Hprogress. discriminate Hprogress.
Qed.

(** ** Quiz history *)

#[local] Instance newer_total : Total newer.
Proof. intros a b. unfold newer. lia. Qed.

#[local] Instance newer_transitive : Transitive newer.
Proof. intros a b c. unfold newer. lia. Qed.

(** C8. The quiz history of a user holds at most 20 results (exactly 20
    when the user has that many), every one a stored result of that
    user, ordered by completion time from the latest on; the results
    left out are the user's other results, and none of them was
    completed after one that is listed. The store is not changed. *)
Theorem quiz_history_most_recent user w :
  let owned :=
    List.filter (fun r => bool_decide (QuizResult.userId r = user))
      (quizResults w) in
  ∃ results rest,
    GET_quizzes_history (Some user) w = (json (result_docs results), w)
    ∧ length results ≤ 20
    ∧ length results = min 20 (length owned)
    ∧ Forall (fun r => QuizResult.userId r = user ∧ r ∈ quizResults w) results
    ∧ StronglySorted newer results
    ∧ results ++ rest ≡ₚ owned
    ∧ (∀ a b, a ∈ results -> b ∈ rest ->
         (QuizResult.completedAt b <= QuizResult.completedAt a)%Z).
Proof.
  intros owned.
  pose proof (StronglySorted_merge_sort newer owned) as Hsorted.
  pose proof (merge_sort_Permutation newer owned) as Hperm.
  rewrite <- (take_drop 20 (merge_sort newer owned)) in Hsorted, Hperm.
  exists (take 20 (merge_sort newer owned)), (drop 20 (merge_sort newer owned)).
  split_and!.
  - done.
  - rewrite length_take. lia.
  - rewrite length_take. f_equal.
    apply Permutation_length, merge_sort_Permutation.
  - apply Forall_forall. intros r Hr.
    assert (r ∈ owned) as Hin.
    { rewrite <- Hperm. apply elem_of_app. by left. }
    apply list_elem_of_In, filter_In in Hin as [Hstored Howner].
    split; [by apply bool_decide_eq_true in Howner | by apply list_elem_of_In].
  - by eapply StronglySorted_app_1_l.
  - done.
  - intros a b Ha Hb. by eapply (StronglySorted_app_1_elem_of newer).
Qed.

(** Alice's history lists her three results, latest first. *)
Example quiz_history_of_alice :
  GET_quizzes_history (Some alice) world_with_results
  = (json (result_docs [result_at 3 alice 9; result_at 4 alice 7;
                        result_at 1 alice 5]%Z),
     world_with_results).
Proof. by_evaluation. Qed.

(** ** Quiz scoring *)

Lemma count_correct_filter answers questions : ∀ idx correctCount,
  count_correct answers questions idx correctCount
  = (fun kept => correctCount + length kept)
      <$> filter_correct answers questions idx.
Proof.
  induction questions as [|q rest IH]; intros idx n; simpl.
  - f_equal. lia.
  - destruct (at_index answers idx) as [a|]; simpl; [|done].
    destruct (member q "correct") as [c|]; simpl; [|done].
    rewrite IH. destruct (filter_correct answers rest (S idx)); simpl; [|done].
    f_equal. destruct (strict_eq a c); simpl; lia.
Qed.

Lemma member_not_nullish v k : nullish v = false -> is_Some (member v k).
Proof. destruct v; simpl; eauto; done. Qed.

Lemma at_index_truthy v idx : truthy v = true -> is_Some (at_index v idx).
Proof. destruct v; simpl; eauto; done. Qed.

Lemma count_correct_positions answers : ∀ rest seen correctCount,
  truthy answers = true ->
  Forall (fun q => nullish q = false) rest ->
  count_correct answers rest (length seen) correctCount
  = Some (correctCount
          + length (List.filter (position_correct answers (seen ++ rest))
                      (seq (length seen) (length rest)))).
Proof.
  induction rest as [|q rest IH]; intros seen n Hanswers Hrest; simpl.
  - f_equal. lia.
  - apply Forall_cons in Hrest as [Hq Hrest].
    destruct (at_index_truthy answers (length seen) Hanswers) as [a Ha].
    destruct (member_not_nullish q "correct" Hq) as [c Hc].
    rewrite Ha, Hc. simpl.
    assert (position_correct answers (seen ++ q :: rest) (length seen)
            = strict_eq a c) as ->.
    { unfold position_correct. rewrite Ha, list_lookup_middle by done.
      simpl. by rewrite Hc. }
    specialize (IH (seen ++ [q]) (if strict_eq a c then S n else n)
                  Hanswers Hrest).
    rewrite length_app, Nat.add_1_r, <- app_assoc in IH. simpl in IH.
    rewrite IH. f_equal. destruct (strict_eq a c); simpl; lia.
Qed.

Lemma matching_positions_le answers questions :
  matching_positions answers questions ≤ length questions.
Proof.
  unfold matching_positions.
  etrans; [apply List.filter_length_le|]. by rewrite length_seq.
Qed.

Lemma small_scores_checked :
  forallb (fun n =>
    forallb (fun c =>
      bool_decide (Math_round (percent c n) = of_Z (round_percent c n)))
      (seq 0 (S n)))
    (seq 1 39) = true.
Proof. by_evaluation. Qed.

Lemma small_scores_exact c n :
  0 < n < 40 -> c ≤ n ->
  Math_round (percent c n) = of_Z (round_percent c n).
Proof.
  intros Hn Hc.
  pose proof small_scores_checked as Hall.
  rewrite forallb_forall in Hall.
  specialize (Hall n). rewrite forallb_forall in Hall.
  eapply bool_decide_eq_true, Hall; apply in_seq; lia.
Qed.

Section Submit.
Context (rt : Runtime).

Lemma submit_run user body now w pathId lessonId answers entries :
  member body "pathId" = Some pathId ->
  member body "lessonId" = Some lessonId ->
  member body "answers" = Some answers ->
  member body "questions" = Some (JArr entries) ->
  truthy pathId = true -> truthy lessonId = true -> truthy answers = true ->
  POST_quizzes_submit rt (Some user) body now w
  = match count_correct answers entries 0 0 with
    | None => (fail 500 "Failed to submit quiz", w)
    | Some correctCount =>
        let score := Math_round (percent correctCount (length entries)) in
        let doc := QuizResult.mk (nextId w) user pathId lessonId score
                     (Object_values answers) now in
        if validQuizResult rt doc
        then (json (submit_doc score correctCount (length entries) (nextId w)),
              mkWorld (paths w) (quizResults w ++ [doc])
                (N.succ (nextId w)) (prompts w))
        else (fail 500 "Failed to submit quiz", w)
    end.
Proof.
  intros Hp Hl Ha Hq Tp Tl Ta.
  unfold POST_quizzes_submit, submit_quiz, QuizResult_create.
  run_handler. rewrite Hp, Hl, Ha, Hq. simpl. rewrite Tp, Tl, Ta. simpl.
  destruct (count_correct answers entries 0 0); simpl; [|done].
  by destruct (validQuizResult rt _).
Qed.

End Submit.

(** C2, as the code has it. A submission whose four fields are present,
    with a non-empty list of questions (none of them [null]), gets
    [correctCount] = the number of positions at which the answer equals
    the question's [correct] value, and [score] =
    [Math.round((correctCount / questions.length) * 100)], the quotient
    and the product being rounded to double precision before
    [Math.round]. When the store accepts the document, a QuizResult of
    the caller with that score is added and the score is returned; the
    score is a function of the submitted answers and questions alone.
    For fewer than 40 questions the score is round(100 × correctCount /
    questionCount). *)
Theorem submit_quiz_score rt user body now w pathId lessonId answers entries :
  member body "pathId" = Some pathId ->
  member body "lessonId" = Some lessonId ->
  member body "answers" = Some answers ->
  member body "questions" = Some (JArr entries) ->
  truthy pathId = true -> truthy lessonId = true -> truthy answers = true ->
  entries ≠ [] ->
  Forall (fun q => nullish q = false) entries ->
  let correctCount := matching_positions answers entries in
  let score := Math_round (percent correctCount (length entries)) in
  let doc := QuizResult.mk (nextId w) user pathId lessonId score
               (Object_values answers) now in
  POST_quizzes_submit rt (Some user) body now w
  = (if validQuizResult rt doc
     then (json (submit_doc score correctCount (length entries) (nextId w)),
           mkWorld (paths w) (quizResults w ++ [doc])
             (N.succ (nextId w)) (prompts w))
     else (fail 500 "Failed to submit quiz", w))
  ∧ (length entries < 40 ->
     score = of_Z (round_percent correctCount (length entries))).
Proof.
  intros Hp Hl Ha Hq Tp Tl Ta Hne Hentries correctCount score doc.
  split.
  - rewrite (submit_run rt user body now w pathId lessonId answers entries)
      by done.
    pose proof (count_correct_positions answers entries [] 0 Ta Hentries)
      as Hcount.
    simpl in Hcount. by rewrite Hcount.
  - intros Hsmall. apply small_scores_exact.
    + destruct entries; [done | simpl in *; lia].
    + apply matching_positions_le.
Qed.

(** Five questions, the first three answered correctly: score 60. *)
Lemma submit_quiz_score_witness :
  POST_quizzes_submit (sample_runtime sample_reply) (Some alice)
    (submission (answers_map [0; 0; 0; 1; 1]) (replicate 5 (question 0)))
    30%Z world_with_path
  = (json (submit_doc (of_Z 60) 3 5 1%N),
     mkWorld (paths world_with_path)
       [QuizResult.mk 1%N alice (JStr first_id) (JNum (of_nat 1)) (of_Z 60)
          (Object_values (answers_map [0; 0; 0; 1; 1])) 30%Z]
       2%N (prompts world_with_path)).
Proof.
  destruct (submit_quiz_score (sample_runtime sample_reply) alice
              (submission (answers_map [0; 0; 0; 1; 1])
                 (replicate 5 (question 0)))
              30%Z world_with_path (JStr first_id) (JNum (of_nat 1))
              (answers_map [0; 0; 0; 1; 1]) (replicate 5 (question 0)))
    as [Hrun _];
    [by_evaluation.. | done | simpl; by repeat constructor |].
  rewrite Hrun. by_evaluation.
Defined.

(** The specification's formula round(100 × correctCount / questionCount)
    does not hold of 23 right answers out of 40: 100 × 23 / 40 = 57.5
    rounds to 58, but the double nearest to 23 / 40 lies below it, its
    product with 100 is the double just below 57.5, and the score
    returned and stored is 57. *)
Lemma score_23_of_40_is_57 :
  matching_positions twenty_three_right forty_questions = 23
  ∧ length forty_questions = 40
  ∧ round_percent 23 40 = 58%Z
  ∧ div (of_nat 23) (of_nat 40) = S754_finite false 5179139571476070 (-53)
  ∧ (5179139571476070 * 40 < 23 * 2 ^ 53)%Z
  ∧ percent 23 40 = S754_finite false 8092405580431359 (-47)
  ∧ (8092405580431359 * 2 < 115 * 2 ^ 47)%Z
  ∧ Math_round (percent 23 40) = of_Z 57
  ∧ POST_quizzes_submit (sample_runtime sample_reply) (Some alice)
      (submission twenty_three_right forty_questions) 30%Z world_with_path
    = (json (submit_doc (of_Z 57) 23 40 1%N),
       mkWorld (paths world_with_path)
         [QuizResult.mk 1%N alice (JStr first_id) (JNum (of_nat 1)) (of_Z 57)
            (Object_values twenty_three_right) 30%Z]
         2%N (prompts world_with_path))
  ∧ of_Z 57 ≠ of_Z 58.
Proof. split_and!; try by_evaluation; by vm_compute. Qed.

(** C9. A submission whose [questions] is the empty array, with the other
    three fields present, passes the required-fields check: the score
    computed is [Math.round((0 / 0) * 100)], which is NaN, and the
    response is not a 400 (it is the 200 response carrying the NaN score
    when the store accepts the document, and the 500 of the [catch]
    block otherwise). *)
Theorem empty_questions_score_is_NaN rt user body now w pathId lessonId
    answers :
  member body "pathId" = Some pathId ->
  member body "lessonId" = Some lessonId ->
  member body "answers" = Some answers ->
  member body "questions" = Some (JArr []) ->
  truthy pathId = true -> truthy lessonId = true -> truthy answers = true ->
  let doc := QuizResult.mk (nextId w) user pathId lessonId NaN
               (Object_values answers) now in
  truthy (JArr []) = true
  ∧ div (of_nat 0) (of_nat 0) = NaN
  ∧ Math_round (percent 0 0) = NaN
  ∧ POST_quizzes_submit rt (Some user) body now w
    = (if validQuizResult rt doc
       then (json (submit_doc NaN 0 0 (nextId w)),
             mkWorld (paths w) (quizResults w ++ [doc])
               (N.succ (nextId w)) (prompts w))
       else (fail 500 "Failed to submit quiz", w))
  ∧ status (POST_quizzes_submit rt (Some user) body now w).1 ≠ 400.
Proof.
  intros Hp Hl Ha Hq Tp Tl Ta doc.
  assert (POST_quizzes_submit rt (Some user) body now w
          = (if validQuizResult rt doc
             then (json (submit_doc NaN 0 0 (nextId w)),
                   mkWorld (paths w) (quizResults w ++ [doc])
                     (N.succ (nextId w)) (prompts w))
             else (fail 500 "Failed to submit quiz", w))) as Hrun.
  { by rewrite (submit_run rt user body now w pathId lessonId answers [])
      by done. }
  split_and!; [done | by_evaluation | by_evaluation | done |].
  rewrite Hrun. by destruct (validQuizResult rt doc).
Qed.

(** An empty list of questions with an empty answers map. *)
Lemma empty_questions_score_is_NaN_witness :
  POST_quizzes_submit (sample_runtime sample_reply) (Some alice)
    (submission (JObj []) []) 30%Z world_with_path
  = (json (submit_doc NaN 0 0 1%N),
     mkWorld (paths world_with_path)
       [QuizResult.mk 1%N alice (JStr first_id) (JNum (of_nat 1)) NaN [] 30%Z]
       2%N (prompts world_with_path)).
Proof.
  destruct (empty_questions_score_is_NaN (sample_runtime sample_reply) alice
              (submission (JObj []) []) 30%Z world_with_path
              (JStr first_id) (JNum (of_nat 1)) (JObj []))
    as (_ & _ & _ & Hrun & _); [by_evaluation..|].
  rewrite Hrun. by_evaluation.
Defined.

Lemma member_array_truthy v k entries :
  member v k = Some (JArr entries) -> truthy v = true.
Proof. by destruct v. Qed.

(** C10, as the code has it. On the same answers and questions, whenever
    the submit route answers 200 the score it answers is the one the
    frontend's [calculateScore] computes; it answers 200 with that score
    as soon as the store accepts the one result that carries it, and
    when [calculateScore] throws the route answers 500 and stores
    nothing. Both count the positions at which
    [answers[idx] === questions[idx].correct] and both apply
    [Math.round] to the double-precision value of
    [(count / questions.length) * 100], which for fewer than 40
    questions is round(100 × count / questionCount). A position without
    an answer is counted exactly when the question at that position has
    no [correct] value either, so it is never counted for a question
    that carries one. *)
Theorem server_and_client_scores_agree rt user body now w pathId lessonId
    answers entries quiz :
  member body "pathId" = Some pathId ->
  member body "lessonId" = Some lessonId ->
  member body "answers" = Some answers ->
  member body "questions" = Some (JArr entries) ->
  truthy pathId = true -> truthy lessonId = true -> truthy answers = true ->
  member quiz "questions" = Some (JArr entries) ->
  (status (POST_quizzes_submit rt (Some user) body now w).1 = 200 ->
   submitted_score (POST_quizzes_submit rt (Some user) body now w).1
   = calculateScore quiz answers)
  ∧ (∀ score,
       calculateScore quiz answers = Some score ->
       validQuizResult rt
         (QuizResult.mk (nextId w) user pathId lessonId score
            (Object_values answers) now) = true ->
       status (POST_quizzes_submit rt (Some user) body now w).1 = 200
       ∧ submitted_score (POST_quizzes_submit rt (Some user) body now w).1
         = Some score)
  ∧ (calculateScore quiz answers = None ->
     POST_quizzes_submit rt (Some user) body now w
     = (fail 500 "Failed to submit quiz", w))
  ∧ (Forall (fun q => nullish q = false) entries ->
     calculateScore quiz answers
     = Some (Math_round (percent (matching_positions answers entries)
                           (length entries))))
  ∧ (Forall (fun q => nullish q = false) entries ->
     0 < length entries < 40 ->
     calculateScore quiz answers
     = Some (of_Z (round_percent (matching_positions answers entries)
                     (length entries))))
  ∧ (∀ idx q c,
       entries !! idx = Some q ->
       member q "correct" = Some c ->
       at_index answers idx = Some JUndefined ->
       position_correct answers entries idx = true ↔ c = JUndefined).
Proof.
  intros Hp Hl Ha Hq Tp Tl Ta Hquiz.
  assert (calculateScore quiz answers
          = (fun c => Math_round (percent c (length entries)))
              <$> count_correct answers entries 0 0) as Hclient.
  { unfold calculateScore.
    rewrite (member_array_truthy _ _ _ Hquiz), Hquiz. simpl.
    rewrite count_correct_filter.
    by destruct (filter_correct answers entries 0). }
  pose proof (submit_run rt user body now w pathId lessonId answers entries
                Hp Hl Ha Hq Tp Tl Ta) as Hrun.
  split_and!.
  - rewrite Hrun, Hclient.
    destruct (count_correct answers entries 0 0); simpl; [|done].
    by destruct (validQuizResult rt _).
  - intros score. rewrite Hrun, Hclient.
    destruct (count_correct answers entries 0 0); simpl; [|done].
    intros [= <-] Hvalid. by rewrite Hvalid.
  - rewrite Hrun, Hclient.
    by destruct (count_correct answers entries 0 0).
  - intros Hentries. rewrite Hclient.
    pose proof (count_correct_positions answers entries [] 0 Ta Hentries)
      as Hcount.
    simpl in Hcount. by rewrite Hcount.
  - intros Hentries Hsmall. rewrite Hclient.
    pose proof (count_correct_positions answers entries [] 0 Ta Hentries)
      as Hcount.
    simpl in Hcount. rewrite Hcount. simpl. f_equal.
    apply small_scores_exact; [done | apply matching_positions_le].
  - intros idx q c Hidx Hc Hmissing. unfold position_correct.
    rewrite Hmissing, Hidx. simpl. rewrite Hc.
    destruct c; simpl; split; done.
Qed.

(** Five questions, the first three answered correctly: 60 on both
    sides. *)
Lemma server_and_client_scores_agree_witness :
  let answers := answers_map [0; 0; 0; 1; 1] in
  let questions := replicate 5 (question 0) in
  submitted_score
    (POST_quizzes_submit (sample_runtime sample_reply) (Some alice)
       (submission answers questions) 30%Z world_with_path).1
  = calculateScore (JObj [(str "questions", JArr questions)]) answers
  ∧ calculateScore (JObj [(str "questions", JArr questions)]) answers
    = Some (of_Z 60).
Proof.
  intros answers questions.
  destruct (server_and_client_scores_agree (sample_runtime sample_reply)
              alice (submission answers questions) 30%Z world_with_path
              (JStr first_id) (JNum (of_nat 1)) answers questions
              (JObj [(str "questions", JArr questions)]))
    as (Hsame & _); [by_evaluation.. | done |].
  split; [apply Hsame; by_evaluation | by_evaluation].
Defined.

(** Two submissions on which server and client agree with each other but
    not with the specification's description. With no answer at
    position 0 and a question there that carries no [correct] field,
    both compare [undefined] with [undefined], count the position and
    score 100. And 46 right answers out of 80 make 57.5, which rounds to
    58, while both return 57. *)
Lemma missing_answer_counted_without_correct :
  let quiz := JObj [(str "questions", JArr [question_without_correct])] in
  at_index (JObj []) 0 = Some JUndefined
  ∧ member question_without_correct "correct" = Some JUndefined
  ∧ POST_quizzes_submit (sample_runtime sample_reply) (Some alice)
      (submission (JObj []) [question_without_correct]) 30%Z world_with_path
    = (json (submit_doc (of_Z 100) 1 1 1%N),
       mkWorld (paths world_with_path)
         [QuizResult.mk 1%N alice (JStr first_id) (JNum (of_nat 1))
            (of_Z 100) [] 30%Z]
         2%N (prompts world_with_path))
  ∧ calculateScore quiz (JObj []) = Some (of_Z 100)
  ∧ matching_positions forty_six_right eighty_questions = 46
  ∧ round_percent 46 80 = 58%Z
  ∧ submitted_score
      (POST_quizzes_submit (sample_runtime sample_reply) (Some alice)
         (submission forty_six_right eighty_questions) 30%Z
         world_with_path).1
    = Some (of_Z 57)
  ∧ calculateScore (JObj [(str "questions", JArr eighty_questions)])
      forty_six_right
    = Some (of_Z 57)
  ∧ of_Z 57 ≠ of_Z 58.
Proof. split_and!; try by_evaluation. by vm_compute. Qed.

(** ** Generation from the model's reply *)

Lemma from_first_Some c s t :
  from_first c s = Some t ↔
  ∃ before after, s = before ++ c :: after ∧ (c ∉ before) ∧ t = c :: after.
Proof.
  induction s as [|x s IH]; simpl.
  - split; [done|]. intros (before & after & Hs & _). by destruct before.
  - destruct (N.eqb_spec x c) as [->|Hne].
    + split.
      * intros [= <-]. exists [], s. split_and!; [done | apply not_elem_of_nil | done].
      * intros ([|y before] & after & Hs & Hnot & ->); simplify_eq/=; [done|].
        by destruct Hnot; left.
    + rewrite IH. split.
      * intros (before & after & -> & Hnot & ->).
        exists (x :: before), after. split_and!; [done | | done].
        by intros [?|?]%elem_of_cons.
      * intros ([|y before] & after & Hs & Hnot & ->); simplify_eq/=.
        exists before, after. split_and!; [done | | done].
        intros ?. apply Hnot. by right.
Qed.

(** The match is the span from the first opening brace to the last
    closing brace. *)
Lemma match_braces_Some responseText m :
  match_braces responseText = Some m ↔
  ∃ before inside after,
    responseText = before ++ [open_brace] ++ inside ++ [close_brace] ++ after
    ∧ (open_brace ∉ before) ∧ (close_brace ∉ after)
    ∧ m = [open_brace] ++ inside ++ [close_brace].
Proof.
  unfold match_braces. split.
  - destruct (from_first open_brace responseText) as [tail|] eqn:Hopen; [|done].
    apply from_first_Some in Hopen as (before & rest & -> & Hbefore & ->).
    destruct (from_first close_brace (rev (open_brace :: rest))) as [r|] eqn:Hclose;
      [|done].
    intros [= <-].
    apply from_first_Some in Hclose as (ra & rb & Hrev & Hafter & ->).
    apply (f_equal (@rev N)) in Hrev. rewrite rev_involutive in Hrev.
    rewrite rev_app_distr in Hrev. simpl in Hrev.
    rewrite <- app_assoc in Hrev. simpl in Hrev.
    destruct (rev rb) as [|x inside] eqn:Hrb; simpl in Hrev; [done|].
    injection Hrev as <- ->.
    exists before, inside, (rev ra). split_and!.
    + done.
    + done.
    + intros Hin. apply Hafter. by apply list_elem_of_In, in_rev, list_elem_of_In.
    + simpl. by rewrite Hrb.
  - intros (before & inside & after & -> & Hbefore & Hafter & ->).
    assert (from_first open_brace
              (before ++ [open_brace] ++ inside ++ [close_brace] ++ after)
            = Some (open_brace :: inside ++ [close_brace] ++ after)) as ->.
    { apply from_first_Some. by exists before, (inside ++ [close_brace] ++ after). }
    assert (from_first close_brace
              (rev (open_brace :: inside ++ [close_brace] ++ after))
            = Some (close_brace :: rev (open_brace :: inside))) as ->.
    { apply from_first_Some. exists (rev after), (rev (open_brace :: inside)).
      split_and!; [| by rewrite list_elem_of_In, <- in_rev, <- list_elem_of_In | done].
      simpl. rewrite !rev_app_distr. simpl. by rewrite <- !app_assoc. }
    f_equal.
    change (rev (close_brace :: rev (open_brace :: inside)))
      with (rev (rev (open_brace :: inside)) ++ [close_brace]).
    by rewrite rev_involutive.
Qed.


Section Generation.
Context (rt : Runtime).

Lemma generate_quiz_run user body w pathId lessonId lessonTitle lessonContent
    responseText :
  member body "pathId" = Some pathId ->
  member body "lessonId" = Some lessonId ->
  member body "lessonTitle" = Some lessonTitle ->
  member body "lessonContent" = Some lessonContent ->
  truthy pathId = true -> truthy lessonId = true ->
  truthy lessonTitle = true -> truthy lessonContent = true ->
  messages_create rt (quiz_prompt rt lessonTitle lessonContent)
  = Some responseText ->
  POST_quizzes_generate rt (Some user) body w
  = (match (match_braces responseText ≫= JSON_parse rt)
           ≫= (fun quizData => member quizData "questions") with
     | Some (JArr entries) =>
         json (quiz_doc pathId lessonId (number_questions entries))
     | _ => fail 500 "Failed to generate quiz"
     end,
     prompted (quiz_prompt rt lessonTitle lessonContent) w).
Proof.
  intros Hp Hl Ht Hc Tp Tl Tt Tc Hreply.
  unfold POST_quizzes_generate, generate_quiz, call_model, parse_reply.
  run_handler. rewrite Hp, Hl, Ht, Hc. simpl. rewrite Tp, Tl, Tt, Tc. simpl.
  rewrite Hreply.
  destruct (match_braces responseText) as [m|]; simpl; [|done].
  destruct (JSON_parse rt m) as [quizData|]; simpl; [|done].
  destruct quizData as [| |[]|[]|[]| |props]; simpl; try done.
  destruct (own (str "questions") props) as [| |[]|[]|[]| |]; simpl; done.
Qed.

Lemma generate_path_run user body now w text responseText :
  member body "topic" = Some (JStr text) ->
  trim text ≠ [] ->
  messages_create rt (path_prompt rt text) = Some responseText ->
  POST_learning_paths_generate rt (Some user) body now w
  = match match_braces responseText ≫= JSON_parse rt with
    | Some pathData =>
        match member pathData "lessons" with
        | Some (JArr entries) =>
            match number_lessons entries 0 with
            | Some lessons =>
                let doc := new_path w user pathData lessons now in
                if validLearningPath rt doc
                then (json (path_doc doc),
                      mkWorld (<[nextId w := doc]> (paths w)) (quizResults w)
                        (N.succ (nextId w))
                        (prompts w ++ [path_prompt rt text]))
                else (fail 500 "Failed to generate learning path",
                      prompted (path_prompt rt text) w)
            | None => (fail 500 "Failed to generate learning path",
                       prompted (path_prompt rt text) w)
            end
        | _ => (fail 500 "Failed to generate learning path",
                prompted (path_prompt rt text) w)
        end
    | None => (fail 500 "Failed to generate learning path",
               prompted (path_prompt rt text) w)
    end.
Proof.
  intros Htopic Htrim Hreply.
  unfold POST_learning_paths_generate, generate_learning_path, call_model,
    parse_reply, LearningPath_create.
  run_handler. rewrite Htopic. simpl.
  destruct text as [|c text]; [done|]. simpl.
  rewrite bool_decide_eq_false_2
    by (intros Hlen; by apply nil_length_inv in Hlen).
  rewrite Hreply.
  destruct (match_braces responseText) as [m|]; simpl; [|done].
  destruct (JSON_parse rt m) as [pathData|]; simpl; [|done].
  destruct pathData as [| |[]|[]|[]| |props]; simpl; try done.
  destruct (own (str "lessons") props) as [| | | | |entries|]; simpl; try done.
  destruct (number_lessons entries 0) as [lessons|]; simpl; [|done].
  unfold new_path. simpl.
  by destruct (validLearningPath rt _).
Qed.

End Generation.

Lemma reply_cases rt responseText (unusable : JsValue -> Prop) :
  (match_braces responseText = None
   ∨ (∃ m, match_braces responseText = Some m ∧ JSON_parse rt m = None)
   ∨ (∃ m parsed,
        match_braces responseText = Some m
        ∧ JSON_parse rt m = Some parsed
        ∧ unusable parsed))
  ↔ match match_braces responseText ≫= JSON_parse rt with
    | None => True
    | Some parsed => unusable parsed
    end.
Proof.
  destruct (match_braces responseText) as [m|]; simpl; [|by split; auto].
  destruct (JSON_parse rt m) as [parsed|] eqn:Hparse; simpl.
  - split.
    + intros [? | [(m' & [= <-] & ?) | (m' & d & [= <-] & Hd & ?)]];
        congruence.
    + intros ?. right; right. by exists m, parsed.
  - split; [done|]. intros _. right; left. by exists m.
Qed.

(** C3, as the code has it. What is extracted from a reply is the span
    from its first opening brace to its last closing brace, and that
    span is handed to [JSON.parse]. With a valid request and a reply
    from the model, either generation route sends exactly one prompt and
    answers 500 with its generic message exactly when no such span
    exists, or parsing it throws, or the parsed value is not usable: for
    a quiz, its [questions] is not an array; for a path, its [lessons]
    is not an array of non-null entries or the store rejects the
    document. Nothing is stored by a failed generation. *)
Theorem generation_fails_without_usable_reply rt user w :
  (∀ responseText m,
     match_braces responseText = Some m ↔
     ∃ before inside after,
       responseText
       = before ++ [open_brace] ++ inside ++ [close_brace] ++ after
       ∧ (open_brace ∉ before) ∧ (close_brace ∉ after)
       ∧ m = [open_brace] ++ inside ++ [close_brace])
  ∧ (∀ body pathId lessonId lessonTitle lessonContent responseText,
       member body "pathId" = Some pathId ->
       member body "lessonId" = Some lessonId ->
       member body "lessonTitle" = Some lessonTitle ->
       member body "lessonContent" = Some lessonContent ->
       truthy pathId = true -> truthy lessonId = true ->
       truthy lessonTitle = true -> truthy lessonContent = true ->
       messages_create rt (quiz_prompt rt lessonTitle lessonContent)
       = Some responseText ->
       let r := POST_quizzes_generate rt (Some user) body w in
       r.2 = prompted (quiz_prompt rt lessonTitle lessonContent) w
       ∧ (r.1 = fail 500 "Failed to generate quiz" ↔
          match_braces responseText = None
          ∨ (∃ m, match_braces responseText = Some m ∧ JSON_parse rt m = None)
          ∨ (∃ m quizData,
               match_braces responseText = Some m
               ∧ JSON_parse rt m = Some quizData
               ∧ ∀ entries, member quizData "questions" ≠ Some (JArr entries)))
       ∧ (∀ m quizData entries,
            match_braces responseText = Some m ->
            JSON_parse rt m = Some quizData ->
            member quizData "questions" = Some (JArr entries) ->
            r.1 = json (quiz_doc pathId lessonId (number_questions entries))))
  ∧ (∀ body now text responseText,
       member body "topic" = Some (JStr text) ->
       trim text ≠ [] ->
       messages_create rt (path_prompt rt text) = Some responseText ->
       let r := POST_learning_paths_generate rt (Some user) body now w in
       prompts r.2 = prompts w ++ [path_prompt rt text]
       ∧ (r.1 = fail 500 "Failed to generate learning path" ↔
          match_braces responseText = None
          ∨ (∃ m, match_braces responseText = Some m ∧ JSON_parse rt m = None)
          ∨ (∃ m pathData,
               match_braces responseText = Some m
               ∧ JSON_parse rt m = Some pathData
               ∧ ¬ storable_path rt w user now pathData))
       ∧ (r.1 = fail 500 "Failed to generate learning path" ->
          r.2 = prompted (path_prompt rt text) w)).
Proof.
  split_and!.
  - apply match_braces_Some.
  - intros body pathId lessonId lessonTitle lessonContent responseText
      Hp Hl Ht Hc Tp Tl Tt Tc Hreply r. subst r.
    rewrite (generate_quiz_run rt user body w pathId lessonId lessonTitle
               lessonContent responseText) by done.
    simpl. rewrite reply_cases. split_and!; [done | |].
    + destruct (match_braces responseText ≫= JSON_parse rt) as [quizData|];
        simpl; [|done].
      destruct (member quizData "questions") as [listed|]; [|done].
      destruct listed; split; try done.
      intros Hno. by destruct (Hno elems).
    + intros m quizData entries Hm Hparse Hlisted.
      rewrite Hm. simpl. rewrite Hparse. simpl. by rewrite Hlisted.
  - intros body now text responseText Htopic Htrim Hreply r. subst r.
    rewrite (generate_path_run rt user body now w text responseText) by done.
    rewrite reply_cases. unfold storable_path.
    destruct (match_braces responseText ≫= JSON_parse rt) as [pathData|];
      simpl; [|done].
    destruct (member pathData "lessons") as [listed|];
      [|split_and!; [done | split; [by intros _ (? & ? & ? & _) | done] | done]].
    destruct listed as [| | | | |entries|];
      try (split_and!;
           [done | split; [by intros _ (? & ? & ? & _) | done] | done]).
    destruct (number_lessons entries 0) as [lessons|] eqn:Hnum; simpl.
    + destruct (validLearningPath rt (new_path w user pathData lessons now))
        eqn:Hvalid; simpl; (split_and!; [done | | done]).
      * split; [done|]. intros Hno. destruct Hno. by exists entries, lessons.
      * split; [|done]. intros _ (? & ? & [= <-] & ? & ?). congruence.
    + split_and!; [done | | done].
      split; [|done]. intros _ (? & ? & [= <-] & ? & _). congruence.
Qed.

(** A reply without any brace: the quiz route answers 500. *)
Lemma generation_fails_without_usable_reply_witness :
  (POST_quizzes_generate (sample_runtime (str "I cannot help with that."))
     (Some alice) quiz_request world_with_path).1
  = fail 500 "Failed to generate quiz".
Proof.
  destruct (generation_fails_without_usable_reply
              (sample_runtime (str "I cannot help with that.")) alice
              world_with_path)
    as (_ & Hquiz & _).
  destruct (Hquiz quiz_request (JStr first_id) (JNum (of_nat 1))
              (JStr (str "Values")) (JStr (str "Numbers and strings"))
              (str "I cannot help with that."))
    as (_ & Hfails & _); [by_evaluation..|].
  apply Hfails. left. by_evaluation.
Defined.

(** A failure that is neither a missing JSON object nor a parse error:
    the reply [{}] contains a JSON object, the span extracted is that
    object and parsing it succeeds, yet the quiz route answers 500,
    because the parsed object has no [questions]. *)
Lemma empty_object_reply_fails :
  let rt := sample_runtime (str "{}") in
  messages_create rt (quiz_prompt rt (JStr (str "Values"))
                        (JStr (str "Numbers and strings")))
  = Some (str "{}")
  ∧ match_braces (str "{}") = Some (str "{}")
  ∧ JSON_parse rt (str "{}") = Some (JObj [])
  ∧ (POST_quizzes_generate rt (Some alice) quiz_request world_with_path).1
    = fail 500 "Failed to generate quiz".
Proof. split_and!; by_evaluation. Qed.

(** * Further properties of the routes *)

(** ** The effect of one request *)

Lemma number_lessons_shaped entries lessons :
  number_lessons entries 0 = Some lessons ->
  lessons_shaped lessons
  ∧ Forall (fun l => Lesson.completed l = false) lessons.
Proof.
  intros Hnum.
  destruct (number_lessons_spec _ _ _ Hnum) as (Hids & Hflags & Htext).
  apply Forall2_length in Htext.
  split; [split|].
  - by rewrite Hids, Htext.
  - eapply Forall_impl; [exact Hflags|].
    intros l (Hc & Hq & Hat). rewrite Hc, Hat. split; [done|].
    split; [done | by intros [? ?]].
  - eapply Forall_impl; [exact Hflags|]. by intros ? (? & _).
Qed.

Lemma generate_effect rt session body now w :
  Effect session w (POST_learning_paths_generate rt session body now w).2.
Proof.
  unfold POST_learning_paths_generate, generate_learning_path,
    LearningPath_create, call_model, parse_reply.
  run_handler.
  split_cases; try by apply Nothing.
  match goal with H : number_lessons _ _ = Some _ |- _ =>
    destruct (number_lessons_shaped _ _ H) as [Hshape Hfresh] end.
  by eapply (PathCreated _ _ _ (LearningPath.mk _ _ _ _ _ _ _ _)).
Qed.

Lemma complete_effect rt session id lessonId now w :
  Effect session w (PATCH_lesson_complete rt session id lessonId now w).2.
Proof.
  unfold PATCH_lesson_complete, complete_lesson, LearningPath_findOne,
    LearningPath_save.
  run_handler.
  split_cases; try by apply Nothing.
  match goal with H : find_lesson _ _ = Some _ |- _ =>
    apply find_lesson_Some in H as (l & Hl & _) end.
  match goal with H : bool_decide _ = true |- _ =>
    apply bool_decide_eq_true in H end.
  simplify_eq.
  by eapply LessonCompleted.
Qed.

Lemma submit_effect rt session body now w :
  Effect session w (POST_quizzes_submit rt session body now w).2.
Proof.
  unfold POST_quizzes_submit, submit_quiz, QuizResult_create.
  run_handler.
  split_cases; try by apply Nothing.
  by eapply (ResultStored _ _ _ (QuizResult.mk _ _ _ _ _ _ _)).
Qed.

Lemma reading_effect rt session w :
  (∀ id, (GET_learning_path rt session id w).2 = w)
  ∧ (GET_quizzes_history session w).2 = w
  ∧ (GET_learning_paths session w).2 = w
  ∧ (GET_stats session w).2 = w.
Proof.
  split_and!; intros;
    unfold GET_learning_path, get_learning_path, LearningPath_findOne,
      GET_quizzes_history, quiz_history, get, GET_learning_paths, GET_stats,
      authenticated;
    run_handler; split_cases; auto.
Qed.

Lemma quiz_effect rt session body w :
  Effect session w (POST_quizzes_generate rt session body w).2.
Proof.
  unfold POST_quizzes_generate, generate_quiz, call_model, parse_reply.
  run_handler.
  split_cases; by apply Nothing.
Qed.

Lemma prompts_grow rt session req w :
  prompts (handle rt session req w).2 = prompts w
  ∨ ∃ prompt,
      prompts (handle rt session req w).2 = prompts w ++ [prompt]
      ∧ ((∃ body now, req = GeneratePath body now)
         ∨ (∃ body, req = GenerateQuiz body)).
Proof.
  destruct req as [body now | id | id lessonId now | body | body now |]; simpl.
  - unfold POST_learning_paths_generate, generate_learning_path,
      LearningPath_create, call_model, parse_reply.
    run_handler. split_cases; eauto 10.
  - left. by rewrite (proj1 (reading_effect rt session w)).
  - left. unfold PATCH_lesson_complete, complete_lesson, LearningPath_findOne,
      LearningPath_save.
    run_handler. by split_cases.
  - unfold POST_quizzes_generate, generate_quiz, call_model, parse_reply.
    run_handler. split_cases; eauto 10.
  - left. unfold POST_quizzes_submit, submit_quiz, QuizResult_create.
    run_handler. by split_cases.
  - left. by rewrite (proj1 (proj2 (reading_effect rt session w))).
Qed.

Lemma handle_effect rt session req w :
  Effect session w (handle rt session req w).2.
Proof.
  destruct req as [body now | id | id lessonId now | body | body now |]; simpl.
  - apply generate_effect.
  - rewrite (proj1 (reading_effect rt session w)). by apply Nothing.
  - apply complete_effect.
  - apply quiz_effect.
  - apply submit_effect.
  - rewrite (proj1 (proj2 (reading_effect rt session w))). by apply Nothing.
Qed.

(** X1. Whatever the request, its effect on the collections is one of
    four: none; one new path of the caller, stored under a fresh id with
    progress 0 and lessons numbered from 1, none completed; one lesson
    of one path of the caller marked completed, with the progress
    recomputed; one new quiz result of the caller appended under a fresh
    id. At most one prompt is sent to the model, and only by the two
    generation routes. *)
Theorem request_effect rt session req w :
  Effect session w (handle rt session req w).2
  ∧ (prompts (handle rt session req w).2 = prompts w
     ∨ ∃ prompt,
         prompts (handle rt session req w).2 = prompts w ++ [prompt]
         ∧ ((∃ body now, req = GeneratePath body now)
            ∨ (∃ body, req = GenerateQuiz body))).
Proof. split; [apply handle_effect | apply prompts_grow]. Qed.

(** ** Invariants of the reachable worlds *)

Lemma mark_completed_ids now i lessons :
  map Lesson.id (alter (mark_completed now) i lessons) = map Lesson.id lessons.
Proof.
  revert i. induction lessons as [|l lessons IH]; intros [|i]; simpl;
    try done.
  f_equal. apply IH.
Qed.

Lemma completed_lessons_shaped now i lessons :
  lessons_shaped lessons ->
  lessons_shaped (alter (mark_completed now) i lessons).
Proof.
  intros [Hids Hflags]. split.
  - by rewrite mark_completed_ids, length_alter.
  - apply Forall_alter; [done|].
    intros l _ [Hquiz _]. simpl. split; [done|]. split; eauto.
Qed.

Lemma effect_keeps_ids_fresh session w w' :
  ids_fresh w -> Effect session w w' -> ids_fresh w'.
Proof.
  intros (Hpaths & Hresults & Hnodup) Heffect.
  assert (paths w !! nextId w = None) as Hnext.
  { destruct (paths w !! nextId w) as [path|] eqn:Hpath; [|done].
    destruct (Hpaths _ _ Hpath) as [_ Hlt]. lia. }
  destruct Heffect
    as [Hp Hr Hn | doc _ Hid _ _ _ Hp Hr Hn
        | k path i l now _ Hpath _ Hp Hr Hn | doc _ Hid Hp Hr Hn];
    unfold ids_fresh; rewrite Hp, Hr, Hn.
  - done.
  - split_and!; [| |done].
    + intros k path [[<- <-] | [Hne Hold]]%lookup_insert_Some.
      * split; [done | lia].
      * destruct (Hpaths _ _ Hold). split; [done | lia].
    + intros r Hr'. destruct (Hresults r Hr') as [Hlt Hnone].
      split; [lia|]. rewrite lookup_insert_ne; [done | lia].
  - destruct (Hpaths _ _ Hpath) as [Hkey Hlt]. rewrite Hkey.
    split_and!; [| |done].
    + intros k' path' [[<- <-] | [Hne Hold]]%lookup_insert_Some.
      * by split.
      * by apply Hpaths.
    + intros r Hr'. destruct (Hresults r Hr') as [Hlt' Hnone].
      split; [done|]. rewrite lookup_insert_ne; [done | congruence].
  - split_and!.
    + intros k path Hk. destruct (Hpaths _ _ Hk). split; [done | lia].
    + intros r [Hold | ->%list_elem_of_singleton]%elem_of_app.
      * destruct (Hresults r Hold). split; [lia | done].
      * rewrite Hid. split; [lia | done].
    + rewrite map_app. simpl. apply NoDup_app. split_and!; [done | |].
      * intros x Hx ->%list_elem_of_singleton.
        apply list_elem_of_In, in_map_iff in Hx as (r & Heq & Hin).
        apply list_elem_of_In in Hin. destruct (Hresults r Hin). lia.
      * apply NoDup_singleton.
Qed.

Lemma effect_keeps_shape session w w' :
  (∀ k path, paths w !! k = Some path ->
     lessons_shaped (LearningPath.lessons path)) ->
  Effect session w w' ->
  ∀ k path, paths w' !! k = Some path ->
    lessons_shaped (LearningPath.lessons path).
Proof.
  intros Hshape Heffect.
  destruct Heffect
    as [Hp _ _ | doc _ _ _ Hdoc _ Hp _ _
        | k0 path0 i l now _ Hpath _ Hp _ _ | doc _ _ Hp _ _];
    rewrite Hp; try done.
  - intros k path [[_ <-] | [_ Hold]]%lookup_insert_Some; eauto.
  - intros k path [[_ <-] | [_ Hold]]%lookup_insert_Some; [|eauto].
    simpl. apply completed_lessons_shaped. eauto.
Qed.

Lemma ids_fresh_empty : ids_fresh empty_world.
Proof.
  split_and!.
  - intros k path Hk. simpl in Hk. by rewrite lookup_empty in Hk.
  - intros r Hr. simpl in Hr. by apply not_elem_of_nil in Hr.
  - apply NoDup_nil_2.
Qed.

Lemma shaped_empty : ∀ k path,
  paths empty_world !! k = Some path ->
  lessons_shaped (LearningPath.lessons path).
Proof. intros k path Hk. simpl in Hk. by rewrite lookup_empty in Hk. Qed.

(** ** The same invariants when requests overlap *)

Lemma completed_stays now i (lessons : list Lesson.t) : ∀ j l,
  lessons !! j = Some l ->
  ∃ l', alter (mark_completed now) i lessons !! j = Some l'
        ∧ Lesson.id l' = Lesson.id l
        ∧ Lesson.title l' = Lesson.title l
        ∧ Lesson.content l' = Lesson.content l
        ∧ (Lesson.completed l = true -> Lesson.completed l' = true).
Proof.
  intros j l Hl. destruct (decide (i = j)) as [-> | Hne].
  - exists (mark_completed now l).
    by rewrite list_lookup_alter_eq, Hl.
  - exists l. by rewrite list_lookup_alter_ne.
Qed.

Lemma in_turn_reachable rt w : reachable_in_turn rt w -> reachable rt w [].
Proof.
  induction 1; [apply reachable_empty | by apply reachable_request].
Qed.

Lemma updated_lesson_keeps (u : Update) i (lessons : list Lesson.t) : ∀ j l,
  lessons !! j = Some l ->
  ∃ l', alter (updated_lesson u) i lessons !! j = Some l'
        ∧ (Lesson.completed l = true -> Lesson.completed l' = true).
Proof.
  intros j l Hl. destruct (decide (i = j)) as [-> | Hne].
  - exists (updated_lesson u l). rewrite list_lookup_alter_eq, Hl.
    split; [done|]. simpl. intros ->. by destruct (set_completed u).
  - exists l. by rewrite list_lookup_alter_ne.
Qed.

Lemma updated_lesson_ids (u : Update) i lessons :
  map Lesson.id (alter (updated_lesson u) i lessons) = map Lesson.id lessons.
Proof.
  revert i. induction lessons as [|l lessons IH]; intros [|i]; simpl;
    try done.
  f_equal. apply IH.
Qed.

Lemma updated_lessons_shaped (u : Update) lessons :
  lessons_shaped lessons ->
  (∀ l, lessons !! update_lesson u = Some l ->
     if set_completed u then is_Some (set_completedAt u)
     else Lesson.completed l = true) ->
  lessons_shaped (alter (updated_lesson u) (update_lesson u) lessons).
Proof.
  intros [Hids Hflags] Hok. split.
  - by rewrite updated_lesson_ids, length_alter.
  - rewrite Forall_lookup in Hflags. apply Forall_lookup. intros j l' Hl'.
    destruct (decide (update_lesson u = j)) as [<- | Hne].
    + rewrite list_lookup_alter_eq in Hl'.
      destruct (lessons !! update_lesson u) as [l|] eqn:Hl; [|done].
      injection Hl' as <-. destruct (Hflags _ _ Hl) as [Hquiz Hiff].
      specialize (Hok l eq_refl). simpl. split; [done|].
      destruct (set_completed u), (set_completedAt u) as [time|];
        first [ exact Hiff | by destruct Hok | split; eauto ].
    + rewrite list_lookup_alter_ne in Hl' by done. eauto.
Qed.

Lemma effect_keeps_update_ok session w w' u :
  ids_fresh w -> Effect session w w' -> update_ok w u -> update_ok w' u.
Proof.
  intros (Hpaths & _ & _) Heffect (path & l & Hpath & Hl & Hok).
  unfold update_ok.
  destruct Heffect
    as [Hp _ _ | doc _ Hid _ _ _ Hp _ _
        | k0 path0 i l0 now _ Hpath0 _ Hp _ _ | doc _ _ Hp _ _];
    rewrite Hp; eauto.
  - exists path, l. destruct (Hpaths _ _ Hpath) as [_ Hlt].
    rewrite lookup_insert_ne by lia. done.
  - destruct (Hpaths _ _ Hpath0) as [Hkey _]. rewrite Hkey.
    destruct (decide (k0 = update_id u)) as [-> | Hne].
    + rewrite Hpath in Hpath0. injection Hpath0 as <-.
      destruct (completed_stays now i (LearningPath.lessons path) _ _ Hl)
        as (l' & Hl' & _ & _ & _ & Hstays).
      exists (with_lesson_completed now i path), l'.
      rewrite lookup_insert_eq. split_and!; [done | done |].
      destruct (set_completed u); auto.
    + exists path, l. by rewrite lookup_insert_ne.
Qed.

Lemma write_keeps_update_ok u u' w :
  update_ok w u' -> update_ok (LearningPath_updateOne u w).2 u'.
Proof.
  intros (path & l & Hpath & Hl & Hok).
  unfold update_ok, LearningPath_updateOne. simpl.
  destruct (decide (update_id u = update_id u')) as [Heq | Hne].
  - destruct (updated_lesson_keeps u (update_lesson u)
                (LearningPath.lessons path) _ _ Hl) as (l' & Hl' & Hstays).
    exists (updated u path), l'.
    rewrite Heq, lookup_alter_eq, Hpath. split_and!; [done | done |].
    destruct (set_completed u'); auto.
  - exists path, l. by rewrite lookup_alter_ne.
Qed.

Lemma write_keeps_ids_fresh u w :
  ids_fresh w -> ids_fresh (LearningPath_updateOne u w).2.
Proof.
  intros (Hpaths & Hresults & Hnodup).
  unfold LearningPath_updateOne. split_and!; simpl; [| |done].
  - intros k path [[<- (stored & Hstored & ->)] | [_ Hold]]%lookup_alter_Some;
      [|by apply Hpaths].
    by apply Hpaths in Hstored.
  - intros r Hr. destruct (Hresults r Hr) as [Hlt Hnone].
    split; [done|]. by apply lookup_alter_None.
Qed.

Lemma write_keeps_shape u w :
  (∀ k path, paths w !! k = Some path ->
     lessons_shaped (LearningPath.lessons path)) ->
  update_ok w u ->
  ∀ k path, paths (LearningPath_updateOne u w).2 !! k = Some path ->
    lessons_shaped (LearningPath.lessons path).
Proof.
  intros Hshape (stored & l & Hstored & Hl & Hok) k path.
  unfold LearningPath_updateOne. simpl.
  intros [[<- (stored' & Hstored' & ->)] | [_ Hold]]%lookup_alter_Some;
    [|eauto].
  rewrite Hstored in Hstored'. injection Hstored' as <-. simpl.
  apply updated_lessons_shaped; [eauto|].
  intros l' Hl'. rewrite Hl in Hl'. by injection Hl' as <-.
Qed.

Lemma read_gives_update_ok rt user id lessonId now w path u :
  ids_fresh w ->
  (∀ k path, paths w !! k = Some path ->
     lessons_shaped (LearningPath.lessons path)) ->
  complete_lesson_read rt user id lessonId now w = (Value (path, u), w) ->
  update_ok w u.
Proof.
  intros (Hpaths & _ & _) Hshape.
  unfold complete_lesson_read, LearningPath_findOne. run_handler.
  destruct (castObjectId rt id) as [oid|]; [|done].
  destruct (paths w !! oid) as [stored|] eqn:Hstored; [|done].
  destruct (bool_decide (LearningPath.userId stored = user)); [|done].
  destruct (find_lesson (parseInt rt lessonId) (LearningPath.lessons stored))
    as [i|] eqn:Hfind; [|done].
  intros [= _ <-].
  apply find_lesson_Some in Hfind as (l & Hl & _ & _).
  destruct (Hpaths _ _ Hstored) as [Hkey _].
  destruct (Hshape _ _ Hstored) as [_ Hflags].
  rewrite Forall_lookup in Hflags. destruct (Hflags _ _ Hl) as [_ Hiff].
  exists stored, l. unfold modified_fields. simpl.
  rewrite Hkey, Hl. simpl. split_and!; [done | done |].
  destruct (Lesson.completed l) eqn:Hcompleted; simpl; [done|].
  destruct (Lesson.completedAt l) as [time|] eqn:Htime.
  - destruct Hiff as [_ Hback]. by assert (false = true) by eauto.
  - rewrite bool_decide_eq_false_2 by done. eauto.
Qed.

Lemma effect_without_log session w w' w'' :
  Effect session w w' ->
  paths w'' = paths w' -> quizResults w'' = quizResults w' ->
  nextId w'' = nextId w' ->
  Effect session w w''.
Proof.
  intros Heffect Hp Hr Hn.
  destruct Heffect
    as [Hp' Hr' Hn' | doc ? ? ? ? ? Hp' Hr' Hn'
        | k path i l now ? ? ? Hp' Hr' Hn' | doc ? ? Hp' Hr' Hn'];
    rewrite <- Hp in Hp'; rewrite <- Hr in Hr'; rewrite <- Hn in Hn'.
  - by apply Nothing.
  - by apply PathCreated with doc.
  - by apply LessonCompleted with k path i l now.
  - by apply ResultStored with doc.
Qed.

Lemma effect_keeps_suspended_ok session w w' :
  ids_fresh w -> Effect session w w' ->
  ∀ pending, Forall (suspended_ok w) pending -> Forall (suspended_ok w') pending.
Proof.
  intros Hfresh Heffect pending Hpending.
  eapply Forall_impl; [exact Hpending|].
  intros [u|? ?]; [|done]. by apply effect_keeps_update_ok with session.
Qed.

Lemma reachable_invariant rt w pending :
  reachable rt w pending ->
  ids_fresh w
  ∧ (∀ k path, paths w !! k = Some path ->
       lessons_shaped (LearningPath.lessons path))
  ∧ Forall (suspended_ok w) pending.
Proof.
  induction 1
    as [|w pending session req _ (Hfresh & Hshape & Hpending)
        |w pending session req _ (Hfresh & Hshape & Hpending)
        |w pending session req pending' _ (Hfresh & Hshape & Hpending)
        |w pending user id lessonId now path u _ (Hfresh & Hshape & Hpending)
           Hread
        |w pending u pending' _ (Hfresh & Hshape & Hpending)].
  - split_and!; [apply ids_fresh_empty | apply shaped_empty | done].
  - pose proof (handle_effect rt session req w) as Heffect. split_and!.
    + by eapply effect_keeps_ids_fresh.
    + by eapply effect_keeps_shape.
    + by eapply effect_keeps_suspended_ok.
  - assert (Effect session w (prompt_sent rt session req w)) as Heffect
      by by apply Nothing.
    split_and!.
    + by eapply effect_keeps_ids_fresh.
    + by eapply effect_keeps_shape.
    + apply Forall_cons. split; [done|].
      by eapply effect_keeps_suspended_ok.
  - assert (Effect session w (documents_stored rt session req w)) as Heffect
      by (by apply (effect_without_log _ _ _ _ (handle_effect rt session req w))).
    apply Forall_app in Hpending as [Hbefore Hafter].
    apply Forall_cons in Hafter as [_ Hafter]. split_and!.
    + by eapply effect_keeps_ids_fresh.
    + by eapply effect_keeps_shape.
    + apply Forall_app. split; by eapply effect_keeps_suspended_ok.
  - split_and!; [done | done |].
    apply Forall_cons. split; [|done].
    by eapply read_gives_update_ok.
  - apply Forall_app in Hpending as [Hbefore Hafter].
    apply Forall_cons in Hafter as [Hu Hafter]. split_and!.
    + by apply write_keeps_ids_fresh.
    + by apply write_keeps_shape.
    + apply Forall_app. split;
        (eapply Forall_impl; [eassumption|]);
        (intros [u'|? ?]; [apply write_keeps_update_ok | done]).
Qed.

(** X2. In every world that requests can reach, also when they overlap,
    each path is stored under its own [_id], every [_id] of a path or
    quiz result is below the driver's next fresh one, and no two
    documents share an [_id]: neither a creation nor a pending update
    overwrites another document. *)
Theorem reachable_ids_fresh rt w pending :
  reachable rt w pending -> ids_fresh w.
Proof. intros Hreach. by destruct (reachable_invariant rt w pending Hreach). Qed.

(** X3. In every world that requests can reach, also when they
    overlap, the lessons of each path are numbered 1..n in order (so
    their ids are distinct), each has [hasQuiz] set, and a lesson has a
    completion time exactly when it is completed. *)
Theorem reachable_lessons_shaped rt w pending :
  reachable rt w pending ->
  ∀ k path, paths w !! k = Some path ->
    lessons_shaped (LearningPath.lessons path)
    ∧ NoDup (map Lesson.id (LearningPath.lessons path)).
Proof.
  intros Hreach k path Hk.
  destruct (reachable_invariant rt w pending Hreach) as (_ & Hshape & _).
  specialize (Hshape k path Hk). split; [done|].
  destruct Hshape as [-> _].
  apply (NoDup_fmap_2 Z.of_nat), NoDup_seq.
Qed.

(** The same store: the sample path has its five lessons, numbered 1 to
    5. *)
Lemma reachable_lessons_shaped_witness :
  let rt := sample_runtime sample_reply in
  let w0 := (handle rt (Some alice)
               (GeneratePath (topic_body "Python basics") 10%Z)
               empty_world).2 in
  let u1 := mkUpdate 0%N 0 true (Some 11%Z) (Some (of_Z 20)) (Some 11%Z) in
  let u2 := mkUpdate 0%N 1 true (Some 12%Z) (Some (of_Z 20)) (Some 12%Z) in
  let w := (LearningPath_updateOne u2 (LearningPath_updateOne u1 w0).2).2 in
  ∃ path,
    paths w !! 0%N = Some path
    ∧ lessons_shaped (LearningPath.lessons path)
    ∧ NoDup (map Lesson.id (LearningPath.lessons path)).
Proof.
  intros rt w0 u1 u2 w.
  assert (∃ path, paths w !! 0%N = Some path)
    as [path Hpath] by (eexists; by_evaluation).
  exists path. split; [done|].
  apply (reachable_lessons_shaped rt w []) with 0%N; [|done].
  apply (reachable_write rt _ [] u2 []).
  apply (reachable_write rt w0 [] u1 [AwaitingSave u2]).
  eapply (reachable_read rt w0 [AwaitingSave u2] alice first_id (str "1")
            11%Z);
    [|by_evaluation].
  eapply (reachable_read rt w0 [] alice first_id (str "2") 12%Z);
    [|by_evaluation].
  apply reachable_request, reachable_empty.
Defined.


(** The store after the two overlapping completions of lessons 1 and 2
    of the sample path. *)
Lemma reachable_ids_fresh_witness :
  let rt := sample_runtime sample_reply in
  let w0 := (handle rt (Some alice)
               (GeneratePath (topic_body "Python basics") 10%Z)
               empty_world).2 in
  let u1 := mkUpdate 0%N 0 true (Some 11%Z) (Some (of_Z 20)) (Some 11%Z) in
  let u2 := mkUpdate 0%N 1 true (Some 12%Z) (Some (of_Z 20)) (Some 12%Z) in
  ids_fresh (LearningPath_updateOne u2 (LearningPath_updateOne u1 w0).2).2.
Proof.
  intros rt w0 u1 u2. apply (reachable_ids_fresh rt _ []).
  apply (reachable_write rt _ [] u2 []).
  apply (reachable_write rt w0 [] u1 [AwaitingSave u2]).
  eapply (reachable_read rt w0 [AwaitingSave u2] alice first_id (str "1")
            11%Z);
    [|by_evaluation].
  eapply (reachable_read rt w0 [] alice first_id (str "2") 12%Z);
    [|by_evaluation].
  apply reachable_request, reachable_empty.
Defined.


(** ** Permanence and isolation *)

(** X4. No request removes a path, a lesson or a quiz result, changes
    the owner, id, title or text of a path or lesson, or turns a
    completed lesson back: in a world with fresh ids, every stored path
    is still stored under the same id afterwards, with the same owner
    and as many lessons, each with the same id, title and content and
    still completed if it was; and the quiz results stored before are
    the first ones stored afterwards, unaltered. *)
Theorem nothing_is_undone rt session req w :
  ids_fresh w ->
  (∀ k path, paths w !! k = Some path ->
     ∃ path', paths (handle rt session req w).2 !! k = Some path'
       ∧ LearningPath._id path' = LearningPath._id path
       ∧ LearningPath.userId path' = LearningPath.userId path
       ∧ LearningPath.title path' = LearningPath.title path
       ∧ LearningPath.createdAt path' = LearningPath.createdAt path
       ∧ length (LearningPath.lessons path')
         = length (LearningPath.lessons path)
       ∧ ∀ j l, LearningPath.lessons path !! j = Some l ->
           ∃ l', LearningPath.lessons path' !! j = Some l'
                 ∧ Lesson.id l' = Lesson.id l
                 ∧ Lesson.title l' = Lesson.title l
                 ∧ Lesson.content l' = Lesson.content l
                 ∧ (Lesson.completed l = true -> Lesson.completed l' = true))
  ∧ quizResults w `prefix_of` quizResults (handle rt session req w).2.
Proof.
  intros (Hpaths & Hresults & Hnodup).
  pose proof (handle_effect rt session req w) as Heffect.
  assert (∀ path : LearningPath.t,
            ∀ j l, LearningPath.lessons path !! j = Some l ->
              ∃ l', LearningPath.lessons path !! j = Some l'
                    ∧ Lesson.id l' = Lesson.id l
                    ∧ Lesson.title l' = Lesson.title l
                    ∧ Lesson.content l' = Lesson.content l
                    ∧ (Lesson.completed l = true ->
                       Lesson.completed l' = true)) as Hsame by eauto 10.
  destruct Heffect
    as [Hp Hr Hn | doc _ Hid _ _ _ Hp Hr Hn
        | k0 path0 i l0 now _ Hpath0 _ Hp Hr Hn | doc _ Hid Hp Hr Hn];
    rewrite Hp, Hr.
  - split; [|done]. intros k path Hk. exists path. split_and!; try done; apply Hsame.
  - split; [|done]. intros k path Hk. exists path.
    destruct (Hpaths _ _ Hk) as [_ Hlt].
    rewrite lookup_insert_ne by lia. split_and!; try done; apply Hsame.
  - split; [|done]. intros k path Hk.
    destruct (Hpaths _ _ Hpath0) as [Hkey _]. rewrite Hkey.
    destruct (decide (k0 = k)) as [-> | Hne].
    + rewrite Hk in Hpath0. injection Hpath0 as <-.
      exists (with_lesson_completed now i path).
      rewrite lookup_insert_eq. split_and!; try done.
      * simpl. apply length_alter.
      * intros j l Hl. simpl. by apply completed_stays.
    + exists path. rewrite lookup_insert_ne by done.
      split_and!; try done; apply Hsame.
  - split; [|by apply prefix_app_r].
    intros k path Hk. exists path. split_and!; try done; apply Hsame.
Qed.

Lemma nothing_is_undone_witness :
  let rt := sample_runtime sample_reply in
  let w := (handle rt (Some alice)
              (GeneratePath (topic_body "Python basics") 10%Z)
              empty_world).2 in
  let w' := (handle rt (Some alice) (CompleteLesson first_id (str "3") 20%Z)
               w).2 in
  ∃ path path',
    paths w !! 0%N = Some path
    ∧ paths w' !! 0%N = Some path'
    ∧ LearningPath.title path' = LearningPath.title path
    ∧ length (LearningPath.lessons path') = 5.
Proof.
  intros rt w w'.
  assert (ids_fresh w) as Hfresh.
  { eapply effect_keeps_ids_fresh; [apply ids_fresh_empty|].
    apply handle_effect. }
  assert (∃ path, paths w !! 0%N = Some path
                  ∧ length (LearningPath.lessons path) = 5)
    as (path & Hpath & Hlen) by (eexists; split; by_evaluation).
  destruct (nothing_is_undone rt (Some alice)
              (CompleteLesson first_id (str "3") 20%Z) w Hfresh)
    as [Hpaths _].
  destruct (Hpaths 0%N path Hpath)
    as (path' & Hpath' & _ & _ & Htitle & _ & Hlen' & _).
  exists path, path'. split_and!; [done | done | done | congruence].
Defined.


(** ** A completion in two steps *)

Lemma alter_as_insert {A} (f : A -> A) (k : ObjectId) (m : gmap ObjectId A) x :
  m !! k = Some x -> alter f k m = <[k := f x]> m.
Proof.
  intros Hk. apply map_eq. intros j. destruct (decide (k = j)) as [<- | Hne].
  - by rewrite lookup_alter_eq, lookup_insert_eq, Hk.
  - by rewrite lookup_alter_ne, lookup_insert_ne.
Qed.

Lemma updated_modified now i path l :
  LearningPath.lessons path !! i = Some l ->
  updated (modified_fields now i path) path = with_lesson_completed now i path.
Proof.
  intros Hl. unfold updated, modified_fields, with_lesson_completed. simpl.
  rewrite Hl. simpl. f_equal.
  - by case_bool_decide.
  - apply list_alter_ext; [|done].
    intros l' Hl'. rewrite Hl in Hl'. injection Hl' as <-.
    unfold updated_lesson, mark_completed. simpl. f_equal.
    + by destruct (Lesson.completed l).
    + by case_bool_decide.
  - by case_bool_decide.
Qed.

(** X26. A completion that nothing overlaps is the handler run at once:
    in a store where every path sits under its own [_id], reading with
    [findOne], assigning, and then sending the changed fields with
    [save] answers and stores exactly what the handler of the route
    does, errors included. *)
Theorem completion_in_one_go rt user id lessonId now w :
  (∀ k path, paths w !! k = Some path -> LearningPath._id path = k) ->
  catching "Failed to update lesson"
    (bind (complete_lesson_read rt user id lessonId now)
       complete_lesson_write) w
  = PATCH_lesson_complete rt (Some user) id lessonId now w.
Proof.
  intros Hkeys.
  unfold PATCH_lesson_complete, complete_lesson, complete_lesson_read,
    complete_lesson_write, LearningPath_findOne, LearningPath_save,
    LearningPath_updateOne.
  run_handler.
  destruct (castObjectId rt id) as [oid|]; [|done].
  destruct (paths w !! oid) as [path|] eqn:Hpath; [|done].
  destruct (bool_decide (LearningPath.userId path = user)); [|done].
  destruct (find_lesson (parseInt rt lessonId) (LearningPath.lessons path))
    as [i|] eqn:Hfind; [|done].
  apply find_lesson_Some in Hfind as (l & Hl & _ & _).
  simpl. rewrite (Hkeys _ _ Hpath).
  by rewrite (alter_as_insert _ _ _ _ Hpath), (updated_modified _ _ _ _ Hl).
Qed.

Lemma completion_in_one_go_witness :
  let rt := sample_runtime sample_reply in
  let w := (handle rt (Some alice)
              (GeneratePath (topic_body "Python basics") 10%Z)
              empty_world).2 in
  catching "Failed to update lesson"
    (bind (complete_lesson_read rt alice first_id (str "3") 20%Z)
       complete_lesson_write) w
  = PATCH_lesson_complete rt (Some alice) first_id (str "3") 20%Z w.
Proof.
  intros rt w.
  apply (completion_in_one_go rt alice first_id (str "3") 20%Z w).
  assert (reachable rt w []) as Hreach
    by apply reachable_request, reachable_empty.
  destruct (reachable_invariant rt w [] Hreach) as ((Hkeys & _) & _).
  intros k path Hk. by destruct (Hkeys k path Hk).
Defined.



(** ** A request in two parts *)

Lemma handle_documents rt session req w log :
  let w1 := mkWorld (paths w) (quizResults w) (nextId w) log in
  paths (handle rt session req w1).2 = paths (handle rt session req w).2
  ∧ quizResults (handle rt session req w1).2
    = quizResults (handle rt session req w).2
  ∧ nextId (handle rt session req w1).2 = nextId (handle rt session req w).2.
Proof.
  destruct session as [user|]; [|by destruct req].
  destruct req as [body now | id | id lessonId now | body | body now |]; simpl.
  - unfold POST_learning_paths_generate, generate_learning_path,
      LearningPath_create, call_model, parse_reply.
    run_handler. by split_cases.
  - unfold GET_learning_path, get_learning_path, LearningPath_findOne.
    run_handler. by split_cases.
  - unfold PATCH_lesson_complete, complete_lesson, LearningPath_findOne,
      LearningPath_save.
    run_handler. by split_cases.
  - unfold POST_quizzes_generate, generate_quiz, call_model, parse_reply.
    run_handler. by split_cases.
  - unfold POST_quizzes_submit, submit_quiz, QuizResult_create.
    run_handler. by split_cases.
  - unfold GET_quizzes_history, quiz_history, get. run_handler. done.
Qed.

Lemma handle_prompts rt session req w w' :
  prompts w' = prompts w ->
  prompts (handle rt session req w').2 = prompts (handle rt session req w).2.
Proof.
  intros Hlog.
  destruct session as [user|]; [|by destruct req].
  destruct req as [body now | id | id lessonId now | body | body now |]; simpl.
  - unfold POST_learning_paths_generate, generate_learning_path,
      LearningPath_create, call_model, parse_reply.
    run_handler. split_cases; congruence.
  - unfold GET_learning_path, get_learning_path, LearningPath_findOne.
    run_handler. split_cases; congruence.
  - unfold PATCH_lesson_complete, complete_lesson, LearningPath_findOne,
      LearningPath_save.
    run_handler. split_cases; congruence.
  - unfold POST_quizzes_generate, generate_quiz, call_model, parse_reply.
    run_handler. split_cases; congruence.
  - unfold POST_quizzes_submit, submit_quiz, QuizResult_create.
    run_handler. split_cases; congruence.
  - unfold GET_quizzes_history, quiz_history, get. run_handler. done.
Qed.

(** X8. What a request sends to the model and what it stores do not
    depend on each other: the prompts logged by a request are the same
    whatever the collections hold, the documents stored are the same
    whatever the log holds, and so a request that sends its prompt and
    then, with nothing in between, stores its documents leaves the world
    that the handler run at once leaves. *)
Theorem request_in_two_parts rt session req w :
  documents_stored rt session req (prompt_sent rt session req w)
  = (handle rt session req w).2
  ∧ (∀ w', prompts w' = prompts w ->
       prompts (handle rt session req w').2
       = prompts (handle rt session req w).2)
  ∧ (∀ log,
       let w' := (handle rt session req
                    (mkWorld (paths w) (quizResults w) (nextId w) log)).2 in
       paths w' = paths (handle rt session req w).2
       ∧ quizResults w' = quizResults (handle rt session req w).2
       ∧ nextId w' = nextId (handle rt session req w).2).
Proof.
  split_and!.
  - unfold documents_stored, prompt_sent.
    destruct (handle_documents rt session req w
                (prompts (handle rt session req w).2)) as (-> & -> & ->).
    simpl. by destruct ((handle rt session req w).2).
  - intros w'. apply handle_prompts.
  - intros log. apply handle_documents.
Qed.

(** Bob asks for a path while alice has one: the prompt is the one sent
    from the empty store. *)
Lemma request_in_two_parts_witness :
  let rt := sample_runtime sample_reply in
  let req := GeneratePath (topic_body "Python basics") 10%Z in
  prompts (handle rt (Some bob) req
             (mkWorld (paths world_with_path) [] 1%N [])).2
  = prompts (handle rt (Some bob) req empty_world).2.
Proof.
  intros rt req.
  destruct (request_in_two_parts rt (Some bob) req empty_world)
    as (_ & Hprompts & _).
  apply Hprompts. reflexivity.
Defined.

Lemma filter_Permutation {A} (f : A -> bool) (l l' : list A) :
  l ≡ₚ l' -> List.filter f l ≡ₚ List.filter f l'.
Proof.
  induction 1 as [|x l l' _ IH|x y l|l l' l'' _ IH1 _ IH2]; simpl.
  - done.
  - destruct (f x); by rewrite IH.
  - destruct (f x), (f y); try done. apply perm_swap.
  - by etrans.
Qed.

Lemma map_to_list_overwrite {A} (m : gmap ObjectId A) k x :
  ∃ rest, map_to_list (<[k := x]> m) ≡ₚ (k, x) :: rest
          ∧ (m !! k = None -> map_to_list m ≡ₚ rest)
          ∧ (∀ old, m !! k = Some old -> map_to_list m ≡ₚ (k, old) :: rest).
Proof.
  exists (map_to_list (delete k m)). split_and!.
  - rewrite <- insert_delete_eq.
    apply map_to_list_insert, lookup_delete_eq.
  - intros Hnone. by rewrite delete_id.
  - intros old Hold. symmetry. by apply map_to_list_delete.
Qed.

Lemma find_after_insert v w w' k doc :
  paths w' = <[k := doc]> (paths w) ->
  LearningPath.userId doc ≠ v ->
  (∀ old, paths w !! k = Some old -> LearningPath.userId old ≠ v) ->
  LearningPath_find v w' ≡ₚ LearningPath_find v w.
Proof.
  intros Hp Hdoc Hold. unfold LearningPath_find. rewrite Hp.
  destruct (map_to_list_overwrite (paths w) k doc) as (rest & Hnew & Hnone & Hsome).
  rewrite (filter_Permutation _ _ _ (Permutation_map snd Hnew)). simpl.
  rewrite bool_decide_eq_false_2 by done.
  destruct (paths w !! k) as [old|] eqn:Hk.
  - rewrite (filter_Permutation _ _ _ (Permutation_map snd (Hsome old eq_refl))).
    simpl. by rewrite bool_decide_eq_false_2 by eauto.
  - by rewrite (filter_Permutation _ _ _ (Permutation_map snd (Hnone eq_refl))).
Qed.

Lemma fold_sum {A} (f : A -> nat) (l : list A) : ∀ a,
  fold_left (fun acc x => acc + f x) l a = a + sum_list_with f l.
Proof.
  induction l as [|x l IH]; intros a; simpl; [lia|]. rewrite IH. lia.
Qed.

Lemma stats_of_found v w w' :
  LearningPath_find v w' ≡ₚ LearningPath_find v w ->
  QuizResult_find v w' = QuizResult_find v w ->
  stats_of v w' = stats_of v w.
Proof.
  intros Hpaths Hresults. unfold stats_of.
  pose proof (Permutation_length Hpaths) as Hlen.
  assert (∀ f : LearningPath.t -> nat,
            sum_list_with f (LearningPath_find v w')
            = sum_list_with f (LearningPath_find v w)) as Hsum
    by (intros f; by rewrite Hpaths).
  by rewrite Hresults, !fold_sum, !Hsum, Hlen.
Qed.

(** X5. A request of one user changes nothing of another user: in a
    world with fresh ids, the other user's paths, quiz results, quiz
    history and statistics are the same before and after. *)
Theorem other_users_untouched rt u v req w :
  u ≠ v ->
  ids_fresh w ->
  (∀ k path, LearningPath.userId path = v ->
     paths (handle rt (Some u) req w).2 !! k = Some path
     ↔ paths w !! k = Some path)
  ∧ QuizResult_find v (handle rt (Some u) req w).2 = QuizResult_find v w
  ∧ (GET_quizzes_history (Some v) (handle rt (Some u) req w).2).1
    = (GET_quizzes_history (Some v) w).1
  ∧ stats_of v (handle rt (Some u) req w).2 = stats_of v w.
Proof.
  intros Hne (Hpaths & Hresults & Hnodup).
  pose proof (handle_effect rt (Some u) req w) as Heffect.
  assert (paths w !! nextId w = None) as Hnext.
  { destruct (paths w !! nextId w) as [path|] eqn:Hpath; [|done].
    destruct (Hpaths _ _ Hpath) as [_ Hlt]. lia. }
  assert (∀ w' : World,
            QuizResult_find v w' = QuizResult_find v w ->
            (GET_quizzes_history (Some v) w').1
            = (GET_quizzes_history (Some v) w).1) as Hhistory.
  { intros w' Hfind. unfold GET_quizzes_history, quiz_history, get.
    run_handler. unfold QuizResult_find in Hfind. by rewrite Hfind. }
  destruct Heffect
    as [Hp Hr Hn | doc [= Hu] Hid _ _ _ Hp Hr Hn
        | k0 path0 i l0 now [= Hu] Hpath0 _ Hp Hr Hn | doc [= Hu] Hid Hp Hr Hn].
  - assert (QuizResult_find v (handle rt (Some u) req w).2
            = QuizResult_find v w) as Hfind
      by (unfold QuizResult_find; by rewrite Hr).
    split_and!; [by rewrite Hp | done | by apply Hhistory |].
    apply stats_of_found; [|done]. unfold LearningPath_find. by rewrite Hp.
  - assert (QuizResult_find v (handle rt (Some u) req w).2
            = QuizResult_find v w) as Hfind
      by (unfold QuizResult_find; by rewrite Hr).
    split_and!; [| done | by apply Hhistory |].
    + intros k path Hv. rewrite Hp. split.
      * intros [[_ <-] | [_ Hold]]%lookup_insert_Some; [congruence | done].
      * intros Hold. apply lookup_insert_Some. right. split; [|done].
        intros <-. congruence.
    + apply stats_of_found; [|done].
      apply (find_after_insert v w _ (nextId w) doc Hp); [congruence|].
      intros old Hold. congruence.
  - destruct (Hpaths _ _ Hpath0) as [Hkey _]. rewrite Hkey in Hp.
    assert (QuizResult_find v (handle rt (Some u) req w).2
            = QuizResult_find v w) as Hfind
      by (unfold QuizResult_find; by rewrite Hr).
    split_and!; [| done | by apply Hhistory |].
    + intros k path Hv. rewrite Hp. split.
      * intros [[_ <-] | [_ Hold]]%lookup_insert_Some; [|done].
        simpl in Hv. congruence.
      * intros Hold. apply lookup_insert_Some. right. split; [|done].
        intros <-. congruence.
    + apply stats_of_found; [|done].
      apply (find_after_insert v w _ k0 _ Hp); [simpl; congruence|].
      intros old Hold. congruence.
  - assert (QuizResult_find v (handle rt (Some u) req w).2
            = QuizResult_find v w) as Hfind.
    { unfold QuizResult_find. rewrite Hr, List.filter_app. simpl.
      rewrite bool_decide_eq_false_2 by congruence. by rewrite app_nil_r. }
    split_and!; [by rewrite Hp | done | by apply Hhistory |].
    apply stats_of_found; [|done]. unfold LearningPath_find. by rewrite Hp.
Qed.

Lemma other_users_untouched_witness :
  let rt := sample_runtime sample_reply in
  let w := (handle rt (Some alice)
              (GeneratePath (topic_body "Python basics") 10%Z)
              empty_world).2 in
  stats_of bob
    (handle rt (Some alice) (CompleteLesson first_id (str "3") 20%Z) w).2
  = stats_of bob w.
Proof.
  intros rt w.
  assert (ids_fresh w) as Hfresh.
  { eapply effect_keeps_ids_fresh; [apply ids_fresh_empty|].
    apply handle_effect. }
  destruct (other_users_untouched rt alice bob
              (CompleteLesson first_id (str "3") 20%Z) w)
    as (_ & _ & _ & Hstats); [unfold alice, bob; lia | done | done].
Defined.


(** ** Listing paths and statistics *)

#[local] Instance later_total : Total later.
Proof. intros a b. unfold later. lia. Qed.

#[local] Instance later_transitive : Transitive later.
Proof. intros a b c. unfold later. lia. Qed.

Lemma LearningPath_find_elem user w path :
  path ∈ LearningPath_find user w
  ↔ (∃ k, paths w !! k = Some path) ∧ LearningPath.userId path = user.
Proof.
  unfold LearningPath_find.
  rewrite list_elem_of_In, filter_In, in_map_iff, bool_decide_eq_true.
  split.
  - intros [([k p] & <- & Hin) Howner]. split; [|done]. exists k.
    by apply elem_of_map_to_list, list_elem_of_In.
  - intros [[k Hk] Howner]. split; [|done]. exists (k, path).
    split; [done|]. by apply list_elem_of_In, elem_of_map_to_list.
Qed.

(** X6. The list of paths answered to a user holds exactly the stored
    paths of that user, each once per id under which it is stored, from
    the most recently created on; the world is not changed. *)
Theorem listed_paths_are_the_callers user w :
  ∃ listed,
    GET_learning_paths (Some user) w = (Sent 200 listed, w)
    ∧ (∀ path, path ∈ listed
         ↔ (∃ k, paths w !! k = Some path)
           ∧ LearningPath.userId path = user)
    ∧ listed ≡ₚ LearningPath_find user w
    ∧ length listed
      = length (List.filter
                  (fun kp => bool_decide (LearningPath.userId kp.2 = user))
                  (map_to_list (paths w)))
    ∧ StronglySorted later listed.
Proof.
  exists (merge_sort later (LearningPath_find user w)).
  pose proof (merge_sort_Permutation later (LearningPath_find user w)) as Hperm.
  split_and!.
  - done.
  - intros path. by rewrite Hperm, LearningPath_find_elem.
  - done.
  - rewrite (Permutation_length Hperm). unfold LearningPath_find.
    induction (map_to_list (paths w)) as [|[k p] l IH]; simpl; [done|].
    destruct (bool_decide (LearningPath.userId p = user)); simpl; by rewrite IH.
  - apply StronglySorted_merge_sort; apply _.
Qed.

Lemma completed_count_le lessons : completed_count lessons ≤ length lessons.
Proof. unfold completed_count. apply List.filter_length_le. Qed.




(** ** Completing a lesson again *)




(** ** Validation *)

Lemma trimStart_nil s : trimStart s = [] -> forallb is_whitespace s = true.
Proof.
  induction s as [|c s IH]; simpl; [done|].
  destruct (is_whitespace c); [done|]. done.
Qed.

Lemma trimStart_head s c rest :
  trimStart s = c :: rest -> is_whitespace c = false.
Proof.
  induction s as [|x s IH]; simpl; [done|].
  destruct (is_whitespace x) eqn:Hx; [done|]. by intros [= <- _].
Qed.

Lemma trim_nil s : trim s = [] -> forallb is_whitespace s = true.
Proof.
  unfold trim. intros Hnil.
  apply (f_equal (@rev N)) in Hnil. rewrite rev_involutive in Hnil.
  simpl in Hnil. apply trimStart_nil in Hnil.
  destruct (trimStart s) as [|c rest] eqn:Hstart; [by apply trimStart_nil|].
  apply trimStart_head in Hstart.
  rewrite forallb_forall in Hnil.
  rewrite (Hnil c) in Hstart; [done|]. apply in_rev. rewrite rev_involutive.
  by left.
Qed.

Lemma blank_topic_rejected_by_check rt user body now w s :
  member body "topic" = Some (JStr s) ->
  forallb is_whitespace s = true ->
  POST_learning_paths_generate rt (Some user) body now w
  = (fail 400 "Topic is required", w).
Proof.
  intros Htopic Hs.
  unfold POST_learning_paths_generate, generate_learning_path.
  run_handler. rewrite Htopic. simpl.
  destruct s as [|c s]; [done|]. simpl.
  by rewrite (trim_blank _ Hs).
Qed.

Lemma generate_400_only_blank rt session body now w topic :
  member body "topic" = Some topic ->
  status (POST_learning_paths_generate rt session body now w).1 = 400 ->
  truthy topic = false
  ∨ ∃ s, topic = JStr s ∧ forallb is_whitespace s = true.
Proof.
  intros Htopic.
  unfold POST_learning_paths_generate, generate_learning_path,
    LearningPath_create, call_model, parse_reply.
  destruct session as [user|]; [|done].
  run_handler. rewrite Htopic. simpl.
  destruct (truthy topic) eqn:Htruthy; simpl; [|by left].
  destruct topic as [| | | |s| |]; simpl; try done.
  case_bool_decide as Hlen; simpl.
  - intros _. right. exists s. split; [done|].
    apply trim_nil. by apply nil_length_inv.
  - split_cases; done.
Qed.

(** X10. With a body that has a [topic], path generation answers 400
    exactly when the topic is falsy or a string of white space only, and
    then nothing is sent to the model and nothing stored. A truthy topic
    that is not a string (a number, an array, an object) is not a
    validation error: [topic.trim] throws and the answer is 500, again
    with the world unchanged. *)
Theorem topic_validation rt user body now w topic :
  member body "topic" = Some topic ->
  (status (POST_learning_paths_generate rt (Some user) body now w).1 = 400
   ↔ truthy topic = false
     ∨ ∃ s, topic = JStr s ∧ forallb is_whitespace s = true)
  ∧ (status (POST_learning_paths_generate rt (Some user) body now w).1 = 400 ->
     POST_learning_paths_generate rt (Some user) body now w
     = (fail 400 "Topic is required", w))
  ∧ (truthy topic = true -> as_string topic = None ->
     POST_learning_paths_generate rt (Some user) body now w
     = (fail 500 "Failed to generate learning path", w)).
Proof.
  intros Htopic.
  assert (truthy topic = false
          ∨ (∃ s, topic = JStr s ∧ forallb is_whitespace s = true) ->
          POST_learning_paths_generate rt (Some user) body now w
          = (fail 400 "Topic is required", w)) as Hblank.
  { intros [Hfalsy | (s & -> & Hs)].
    - unfold POST_learning_paths_generate, generate_learning_path.
      run_handler. by rewrite Htopic; simpl; rewrite Hfalsy.
    - apply (blank_topic_rejected_by_check rt user body now w s Htopic Hs). }
  pose proof (generate_400_only_blank rt (Some user) body now w topic Htopic)
    as Hback.
  split_and!.
  - split; [done|]. intros H. by rewrite (Hblank H).
  - intros H. by apply Hblank, Hback.
  - intros Htruthy Hstring.
    unfold POST_learning_paths_generate, generate_learning_path.
    run_handler.
    by rewrite Htopic; simpl; rewrite Htruthy; simpl; rewrite Hstring.
Qed.

Lemma topic_validation_witness :
  POST_learning_paths_generate (sample_runtime sample_reply) (Some alice)
    (JObj [(str "topic", JNum (of_Z 7))]) 10%Z world_with_path
  = (fail 500 "Failed to generate learning path", world_with_path).
Proof.
  destruct (topic_validation (sample_runtime sample_reply) alice
              (JObj [(str "topic", JNum (of_Z 7))]) 10%Z world_with_path
              (JNum (of_Z 7)))
    as (_ & _ & Hnumber); [reflexivity|].
  apply Hnumber; reflexivity.
Defined.


(** X11. A quiz request or a quiz submission in which one of the four
    required fields is falsy (absent, [null], [false], 0, NaN or the
    empty string) is answered 400 "Missing required fields" with the
    world unchanged: no prompt is sent and nothing is stored. In
    particular a lesson id of 0 counts as missing. *)
Theorem falsy_fields_rejected rt user w :
  (∀ body pathId lessonId lessonTitle lessonContent,
     member body "pathId" = Some pathId ->
     member body "lessonId" = Some lessonId ->
     member body "lessonTitle" = Some lessonTitle ->
     member body "lessonContent" = Some lessonContent ->
     truthy pathId && truthy lessonId && truthy lessonTitle
     && truthy lessonContent = false ->
     POST_quizzes_generate rt (Some user) body w
     = (fail 400 "Missing required fields", w))
  ∧ (∀ body now pathId lessonId answers questions,
       member body "pathId" = Some pathId ->
       member body "lessonId" = Some lessonId ->
       member body "answers" = Some answers ->
       member body "questions" = Some questions ->
       truthy pathId && truthy lessonId && truthy answers
       && truthy questions = false ->
       POST_quizzes_submit rt (Some user) body now w
       = (fail 400 "Missing required fields", w))
  ∧ truthy (JNum (of_Z 0)) = false.
Proof.
  split_and!; [| |done].
  - intros body pathId lessonId lessonTitle lessonContent Hp Hl Ht Hc Hfalsy.
    unfold POST_quizzes_generate, generate_quiz.
    run_handler. rewrite Hp, Hl, Ht, Hc. simpl. by rewrite Hfalsy.
  - intros body now pathId lessonId answers questions Hp Hl Ha Hq Hfalsy.
    unfold POST_quizzes_submit, submit_quiz.
    run_handler. rewrite Hp, Hl, Ha, Hq. simpl. by rewrite Hfalsy.
Qed.

Lemma falsy_fields_rejected_witness :
  let body := JObj [(str "pathId", JStr first_id);
                    (str "lessonId", JNum (of_Z 0));
                    (str "lessonTitle", JStr (str "Values"));
                    (str "lessonContent", JStr (str "Numbers and strings"))]
  in
  POST_quizzes_generate (sample_runtime sample_reply) (Some alice) body
    world_with_path
  = (fail 400 "Missing required fields", world_with_path).
Proof.
  intros body.
  destruct (falsy_fields_rejected (sample_runtime sample_reply) alice
              world_with_path) as (Hquiz & _ & _).
  apply (Hquiz body (JStr first_id) (JNum (of_Z 0)) (JStr (str "Values"))
           (JStr (str "Numbers and strings"))); reflexivity.
Defined.


Lemma count_correct_null answers questions : ∀ idx correctCount,
  Exists (fun q => nullish q = true) questions ->
  count_correct answers questions idx correctCount = None.
Proof.
  induction questions as [|q rest IH]; intros idx n Hnull; simpl.
  - by apply Exists_nil in Hnull.
  - destruct (at_index answers idx) as [a|]; simpl; [|done].
    apply Exists_cons in Hnull as [Hq | Hrest].
    + by destruct q.
    + destruct (member q "correct"); simpl; [|done]. by apply IH.
Qed.

(** X12. A submission whose four fields are present but whose
    [questions] is not an array, or is an array with a [null] entry, is
    answered 500 "Failed to submit quiz" (the loop throws); no quiz
    result is stored and the world is unchanged. *)
Theorem malformed_questions_fail rt user body now w pathId lessonId answers
    questions :
  member body "pathId" = Some pathId ->
  member body "lessonId" = Some lessonId ->
  member body "answers" = Some answers ->
  member body "questions" = Some questions ->
  truthy pathId = true -> truthy lessonId = true -> truthy answers = true ->
  truthy questions = true ->
  as_array questions = None
  ∨ (∃ entries, questions = JArr entries
                ∧ Exists (fun q => nullish q = true) entries) ->
  POST_quizzes_submit rt (Some user) body now w
  = (fail 500 "Failed to submit quiz", w).
Proof.
  intros Hp Hl Ha Hq Tp Tl Ta Tq Hbad.
  unfold POST_quizzes_submit, submit_quiz.
  run_handler. rewrite Hp, Hl, Ha, Hq. simpl. rewrite Tp, Tl, Ta, Tq. simpl.
  destruct Hbad as [-> | (entries & -> & Hnull)]; [done|]. simpl.
  by rewrite (count_correct_null answers entries 0 0 Hnull).
Qed.

Lemma malformed_questions_fail_witness :
  POST_quizzes_submit (sample_runtime sample_reply) (Some alice)
    (submission (JObj []) [JNull]) 30%Z world_with_path
  = (fail 500 "Failed to submit quiz", world_with_path).
Proof.
  apply (malformed_questions_fail (sample_runtime sample_reply) alice
           (submission (JObj []) [JNull]) 30%Z world_with_path
           (JStr first_id) (JNum (of_nat 1)) (JObj []) (JArr [JNull]));
    try reflexivity.
  right. exists [JNull]. split; [reflexivity|].
  apply Exists_cons_hd. reflexivity.
Defined.






(** ** The extracted span *)

(** X14. What is extracted from a reply is a contiguous part of it that
    begins with an opening brace and ends with a closing brace, and
    extraction is idempotent: extracting from the extracted span gives
    the span again. A text that begins with an opening brace and ends
    with a closing brace is extracted whole, whatever lies between (so
    two objects in one reply are handed to the parser as one text). *)
Theorem extraction_is_idempotent responseText m :
  (match_braces responseText = Some m ->
   (∃ before after, responseText = before ++ m ++ after)
   ∧ head m = Some open_brace
   ∧ last m = Some close_brace
   ∧ 2 ≤ length m
   ∧ match_braces m = Some m)
  ∧ (∀ inside,
       match_braces ([open_brace] ++ inside ++ [close_brace])
       = Some ([open_brace] ++ inside ++ [close_brace])).
Proof.
  assert (∀ inside,
            match_braces ([open_brace] ++ inside ++ [close_brace])
            = Some ([open_brace] ++ inside ++ [close_brace])) as Hwhole.
  { intros inside. apply match_braces_Some. exists [], inside, [].
    split_and!; [by rewrite app_nil_r | apply not_elem_of_nil
                | apply not_elem_of_nil | done]. }
  split; [|done].
  intros (before & inside & after & -> & _ & _ & ->)%match_braces_Some.
  split_and!.
  - exists before, after. by rewrite <- !app_assoc.
  - done.
  - by rewrite app_assoc, last_snoc.
  - rewrite !length_app. simpl. lia.
  - apply Hwhole.
Qed.

Lemma extraction_is_idempotent_witness :
  match_braces sample_path_text = Some sample_path_text.
Proof.
  destruct (extraction_is_idempotent sample_reply sample_path_text)
    as [Hmatch _].
  apply Hmatch. by_evaluation.
Defined.


(** ** Progress bounds *)

Lemma percent_bounds_checked :
  forallb (fun n =>
    forallb (fun c =>
      SFltb (of_Z 0) (percent c n) && SFleb (percent c n) (of_Z 100)
      && Bool.eqb (bool_decide (percent c n = of_Z 100)) (c =? n))
      (seq 1 n))
    (seq 1 100) = true.
Proof. by_evaluation. Qed.

Lemma completed_count_all lessons :
  completed_count lessons = length lessons
  ↔ Forall (fun l => Lesson.completed l = true) lessons.
Proof.
  unfold completed_count. induction lessons as [|l lessons IH]; simpl.
  - split; [by constructor | done].
  - pose proof (List.filter_length_le Lesson.completed lessons) as Hle.
    destruct (Lesson.completed l) eqn:Hc; simpl.
    + split.
      * intros [= Hlen]. constructor; [done | by apply IH].
      * intros [_ Hall]%Forall_cons. f_equal. by apply IH.
    + split; [lia|]. intros [Hl _]%Forall_cons. congruence.
Qed.

(** X15. After a lesson of a path with at most 100 lessons is completed,
    the stored progress is a number above 0 and at most 100, and it is
    100 exactly when every lesson of the path is completed. *)
Theorem progress_after_completion_is_bounded now i path l :
  LearningPath.lessons path !! i = Some l ->
  length (LearningPath.lessons path) ≤ 100 ->
  let path' := with_lesson_completed now i path in
  SFltb (of_Z 0) (LearningPath.progress path') = true
  ∧ SFleb (LearningPath.progress path') (of_Z 100) = true
  ∧ (LearningPath.progress path' = of_Z 100
     ↔ Forall (fun l => Lesson.completed l = true)
         (LearningPath.lessons path')).
Proof.
  intros Hl Hlen path'. subst path'. simpl.
  set (lessons := alter (mark_completed now) i (LearningPath.lessons path)).
  assert (length lessons = length (LearningPath.lessons path)) as Hsame
    by apply length_alter.
  assert (0 < completed_count lessons) as Hpos.
  { destruct (completed_count lessons) eqn:Hzero; [|lia]. exfalso.
    assert (Lesson.completed (mark_completed now l) = false) as Hflag;
      [|done].
    apply (completed_count_zero _ _ Hzero).
    eapply (list_elem_of_lookup_2 _ i). subst lessons.
    by rewrite list_lookup_alter_eq, Hl. }
  pose proof (completed_count_le lessons) as Hle.
  pose proof percent_bounds_checked as Hall.
  rewrite forallb_forall in Hall.
  specialize (Hall (length lessons)). rewrite forallb_forall in Hall.
  specialize (Hall ltac:(apply in_seq; lia) (completed_count lessons)
                ltac:(apply in_seq; lia)).
  apply andb_prop in Hall as [[Hlow Hhigh]%andb_prop Hfull].
  split_and!; [done | done |].
  rewrite <- completed_count_all.
  apply Bool.eqb_prop in Hfull.
  rewrite <- Nat.eqb_eq, <- Hfull. apply symmetry, bool_decide_eq_true.
Qed.

Lemma progress_after_completion_is_bounded_witness :
  ∃ path,
    paths world_with_path !! 0%N = Some path
    ∧ SFltb (of_Z 0)
        (LearningPath.progress (with_lesson_completed 20%Z 2 path)) = true
    ∧ SFleb (LearningPath.progress (with_lesson_completed 20%Z 2 path))
        (of_Z 100) = true.
Proof.
  assert (∃ path l,
            paths world_with_path !! 0%N = Some path
            ∧ LearningPath.lessons path !! 2 = Some l
            ∧ length (LearningPath.lessons path) = 5)
    as (path & l & Hpath & Hl & Hlen).
  { do 2 eexists. split; [by_evaluation|]. split; by_evaluation. }
  pose proof (progress_after_completion_is_bounded 20%Z 2 path l Hl
                ltac:(lia)) as H.
  cbv zeta in H. destruct H as (Hpositive & Hbounded & _).
  exists path. split_and!; [exact Hpath | exact Hpositive | exact Hbounded].
Defined.


(** ** Accounts and sessions *)

Lemma User_findOne_Some googleId a user :
  User_findOne googleId a = Some user ->
  ∃ k, users a !! k = Some user ∧ User.googleId user = googleId.
Proof.
  unfold User_findOne. intros [Hin Hg]%find_some.
  apply in_map_iff in Hin as ([k u] & <- & Hin).
  exists k. split; [|by apply bool_decide_eq_true in Hg].
  by apply elem_of_map_to_list, list_elem_of_In.
Qed.

Lemma User_findOne_None googleId a :
  User_findOne googleId a = None ->
  ∀ k user, users a !! k = Some user -> User.googleId user ≠ googleId.
Proof.
  unfold User_findOne. intros Hnone k user Hk.
  assert (In user (map snd (map_to_list (users a)))) as Hin.
  { apply in_map_iff. exists (k, user). split; [done|].
    by apply list_elem_of_In, elem_of_map_to_list. }
  pose proof (find_none _ _ Hnone user Hin) as Hno. simpl in Hno.
  by apply bool_decide_eq_false in Hno.
Qed.

Lemma verify_keeps_accounts_ok validUser profile now a :
  accounts_ok a -> accounts_ok (verify validUser profile now a).2.
Proof.
  intros [Hkeys Hunique]. unfold verify.
  destruct (User_findOne (Profile.id profile) a) as [user|] eqn:Hfind.
  - apply User_findOne_Some in Hfind as (k & Hk & Hg).
    destruct (Hkeys _ _ Hk) as [Hid Hlt]. rewrite Hid.
    split; simpl.
    + intros k' u [[<- <-] | [_ Hold]]%lookup_insert_Some; [done | eauto].
    + intros k1 k2 u1 u2 [[<- <-] | [Hne1 Hold1]]%lookup_insert_Some
        [[<- <-] | [Hne2 Hold2]]%lookup_insert_Some Hg'; simpl in *.
      * done.
      * by apply (Hunique k k2 user u2).
      * by apply (Hunique k1 k u1 user).
      * by apply (Hunique k1 k2 u1 u2).
  - pose proof (User_findOne_None _ _ Hfind) as Hfresh.
    destruct (first_email _) as [email|]; [|done].
    destruct (first_photo _) as [picture|]; [|done].
    destruct (validUser a _); [|done]. simpl.
    assert (users a !! nextUserId a = None) as Hnext.
    { destruct (users a !! nextUserId a) as [u|] eqn:Hu; [|done].
      destruct (Hkeys _ _ Hu). lia. }
    split; simpl.
    + intros k' u [[<- <-] | [_ Hold]]%lookup_insert_Some.
      * split; [done | lia].
      * destruct (Hkeys _ _ Hold). split; [done | lia].
    + intros k1 k2 u1 u2 [[<- <-] | [Hne1 Hold1]]%lookup_insert_Some
        [[<- <-] | [Hne2 Hold2]]%lookup_insert_Some Hg'; simpl in *.
      * done.
      * by destruct (Hfresh _ _ Hold2).
      * by destruct (Hfresh _ _ Hold1).
      * by apply (Hunique k1 k2 u1 u2).
Qed.

Lemma accounts_ok_none : accounts_ok no_accounts.
Proof. split; intros ? *; simpl; by rewrite lookup_empty. Qed.

(** X16. However many times and with whatever profiles the verify
    callback runs, starting from no accounts and one run after another,
    no two stored users have the same Google id, and every user is
    stored under its own [_id]: as long as its runs do not overlap, the
    find-or-create keeps Google ids unique without the unique index. *)
Theorem google_ids_stay_unique validUser calls :
  accounts_ok (accounts_after_in_turn validUser calls).
Proof.
  unfold accounts_after_in_turn.
  generalize accounts_ok_none. generalize no_accounts.
  induction calls as [|call calls IH]; intros a Ha; simpl; [done|].
  by apply IH, verify_keeps_accounts_ok.
Qed.

(** X17. Logging in again with a Google id that is already stored
    creates no user: the stored user is answered with only its
    [lastLogin] set to the time of the login, it replaces the stored one
    under the same [_id], and the profile's name, e-mail and photo are
    not looked at. *)
Theorem returning_user_is_updated validUser profile now a k user :
  accounts_ok a ->
  users a !! k = Some user ->
  User.googleId user = Profile.id profile ->
  let user' := User.mk k (User.googleId user) (User.email user)
                 (User.name user) (User.picture user) (User.createdAt user)
                 now in
  verify validUser profile now a
  = (Some user', mkAccounts (<[k := user']> (users a)) (nextUserId a))
  ∧ dom (users (verify validUser profile now a).2) = dom (users a).
Proof.
  intros [Hkeys Hunique] Hk Hg user'.
  assert (verify validUser profile now a
          = (Some user', mkAccounts (<[k := user']> (users a))
                           (nextUserId a))) as Hrun.
  { unfold verify.
    destruct (User_findOne (Profile.id profile) a) as [found|] eqn:Hfind.
    - apply User_findOne_Some in Hfind as (k' & Hk' & Hg').
      assert (k' = k) as -> by (apply (Hunique k' k found user); congruence).
      rewrite Hk in Hk'. injection Hk' as <-.
      destruct (Hkeys _ _ Hk) as [Hid _]. subst user'. by rewrite Hid.
    - by destruct (User_findOne_None _ _ Hfind k user Hk). }
  split; [done|]. rewrite Hrun. simpl.
  apply dom_insert_lookup_L. by exists user.
Qed.

Lemma returning_user_is_updated_witness :
  ∃ user,
    (verify sample_validUser sample_profile 9%Z accounts_with_one).1
    = Some user
    ∧ User.createdAt user = 5%Z
    ∧ User.lastLogin user = 9%Z
    ∧ dom (users (verify sample_validUser sample_profile 9%Z
                    accounts_with_one).2)
      = dom (users accounts_with_one).
Proof.
  assert (accounts_ok accounts_with_one) as Hok
    by apply verify_keeps_accounts_ok, accounts_ok_none.
  assert (∃ user, users accounts_with_one !! 0%N = Some user
                  ∧ User.googleId user = Profile.id sample_profile
                  ∧ User.createdAt user = 5%Z)
    as (user & Huser & Hgoogle & Hcreated).
  { eexists. split; [by_evaluation|]. split; by_evaluation. }
  pose proof (returning_user_is_updated sample_validUser sample_profile 9%Z
                accounts_with_one 0%N user Hok Huser Hgoogle) as H.
  cbv zeta in H. destruct H as [Hrun Hdom].
  eexists. rewrite Hrun. split_and!; [reflexivity | done | done | ].
  by rewrite Hrun in Hdom.
Defined.


(** X18. A first login needs [profile.emails[0]] and a [profile.photos]
    array: when the Google id is not stored yet and the profile has no
    photos array, or no e-mail entry, the callback reports an error and
    no user is created, although the picture is optional in the schema;
    with an empty photos array the user is created without picture. *)
Theorem first_login_needs_email_and_photos validUser profile now a :
  User_findOne (Profile.id profile) a = None ->
  (nullish (Profile.photos profile) = true
   ∨ nullish (Profile.emails profile) = true
   ∨ Profile.emails profile = JArr [] ->
   verify validUser profile now a = (None, a))
  ∧ (∀ email,
       first_email (Profile.emails profile) = Some email ->
       Profile.photos profile = JArr [] ->
       let user := User.mk (nextUserId a) (Profile.id profile) email
                     (Profile.displayName profile) JUndefined now now in
       validUser a user = true ->
       verify validUser profile now a
       = (Some user, mkAccounts (<[nextUserId a := user]> (users a))
                       (N.succ (nextUserId a)))).
Proof.
  intros Hnew. unfold verify. rewrite Hnew. split.
  - intros [Hphotos | [Hemails | Hemails]].
    + destruct (first_email _); [|done].
      by destruct (Profile.photos profile).
    + by destruct (Profile.emails profile).
    + by rewrite Hemails.
  - intros email Hemail Hphotos. cbv zeta. intros Hvalid.
    rewrite Hemail, Hphotos. simpl. by rewrite Hvalid.
Qed.

Lemma first_login_needs_email_and_photos_witness :
  verify sample_validUser profile_without_emails 7%Z accounts_with_one
  = (None, accounts_with_one)
  ∧ ∃ user,
      (verify sample_validUser profile_without_photo 7%Z accounts_with_one).1
      = Some user
      ∧ User._id user = 1%N
      ∧ User.picture user = JUndefined.
Proof.
  split.
  - destruct (first_login_needs_email_and_photos sample_validUser
                profile_without_emails 7%Z accounts_with_one)
      as [Hnone _]; [by_evaluation|].
    apply Hnone. right. left. reflexivity.
  - destruct (first_login_needs_email_and_photos sample_validUser
                profile_without_photo 7%Z accounts_with_one)
      as [_ Hcreated]; [by_evaluation|].
    pose proof (Hcreated (JStr (str "bob@example.org")) eq_refl eq_refl)
      as Hrun.
    cbv zeta in Hrun. rewrite Hrun by by_evaluation.
    eexists. split_and!; [reflexivity | by_evaluation | reflexivity].
Defined.


(** X19. After a login that verifies a user, the session holds the
    user's id, every later request finds that user again through
    [deserializeUser], the routes run for that user's [_id], and
    GET /api/auth/user answers the user's id, name, e-mail and
    picture. *)
Theorem login_opens_session validUser profile now cookie a user a' :
  verify validUser profile now a = (Some user, a') ->
  login validUser profile now cookie a = (Some (User._id user), a')
  ∧ deserializeUser (serializeUser user) a' = Some user
  ∧ session_of (Some (User._id user)) a' = Some (User._id user)
  ∧ GET_auth_user (Some (User._id user)) a'
    = Sent 200 (CurrentUser.mk (User._id user) (User.name user)
                  (User.email user) (User.picture user)).
Proof.
  intros Hverify.
  assert (users a' !! User._id user = Some user) as Hstored.
  { unfold verify in Hverify.
    destruct (User_findOne (Profile.id profile) a) as [found|].
    - injection Hverify as <- <-. simpl. apply lookup_insert_eq.
    - destruct (first_email _); [|done]. destruct (first_photo _); [|done].
      destruct (validUser a _); [|done].
      injection Hverify as <- <-. simpl. apply lookup_insert_eq. }
  unfold login, GET_auth_user, session_of, req_user, deserializeUser,
    serializeUser.
  rewrite Hverify. simpl. by rewrite Hstored.
Qed.

Lemma login_opens_session_witness :
  login sample_validUser sample_profile 5%Z None no_accounts
  = (Some 0%N, accounts_with_one)
  ∧ GET_auth_user (Some 0%N) accounts_with_one
    = Sent 200 (CurrentUser.mk 0%N (JStr (str "Alice"))
                  (JStr (str "alice@example.org"))
                  (JStr (str "https://example.org/a.png"))).
Proof.
  destruct (login_opens_session sample_validUser sample_profile 5%Z None
              no_accounts
              (User.mk 0%N (str "google-1") (JStr (str "alice@example.org"))
                 (JStr (str "Alice"))
                 (JStr (str "https://example.org/a.png")) 5%Z 5%Z)
              accounts_with_one)
    as (Hlogin & _ & _ & Huser); [by_evaluation|].
  split; [exact Hlogin | exact Huser].
Defined.


(** X20. A request whose session holds no stored user (no session, a
    session after logout, or the id of a user that is not stored) is
    answered 401 by every protected route and changes nothing; and
    logout always leaves such a session. *)
Theorem no_user_no_access rt cookie a req w :
  req_user cookie a = None ->
  session_of cookie a = None
  ∧ handle rt (session_of cookie a) req w
    = (fail 401 "Unauthorized. Please login.", w)
  ∧ GET_learning_paths (session_of cookie a) w
    = (Refused 401 "Unauthorized. Please login.", w)
  ∧ GET_stats (session_of cookie a) w
    = (Refused 401 "Unauthorized. Please login.", w)
  ∧ GET_auth_user cookie a = Refused 401 "Unauthorized. Please login."
  ∧ (∀ cookie', req_user (POST_auth_logout cookie').2 a = None).
Proof.
  intros Hnone. unfold session_of, GET_auth_user. rewrite Hnone. simpl.
  split_and!; try done. by destruct req.
Qed.

Lemma no_user_no_access_witness :
  handle (sample_runtime sample_reply) (session_of (Some bob) sample_accounts)
    (GetPath first_id) world_with_path
  = (fail 401 "Unauthorized. Please login.", world_with_path).
Proof.
  destruct (no_user_no_access (sample_runtime sample_reply) (Some bob)
              sample_accounts (GetPath first_id) world_with_path)
    as (_ & Hrefused & _); [by_evaluation | exact Hrefused].
Defined.


(** * Properties of the frontend *)

Lemma trim_truthy topic :
  truthy (JStr (trim topic)) = negb (forallb is_whitespace topic).
Proof.
  destruct (forallb is_whitespace topic) eqn:Hblank; simpl.
  - by rewrite (trim_blank _ Hblank).
  - destruct (trim topic) eqn:Htrim; [|done].
    apply trim_nil in Htrim. congruence.
Qed.

Lemma PATCH_refused_keeps_world rt session id lessonId now w :
  status (PATCH_lesson_complete rt session id lessonId now w).1 ≠ 200 ->
  (PATCH_lesson_complete rt session id lessonId now w).2 = w.
Proof.
  unfold PATCH_lesson_complete, complete_lesson, LearningPath_findOne,
    LearningPath_save.
  run_handler. by split_cases.
Qed.

Lemma fetchStats_data s b :
  (fetchStats s b).2 = b
  ∧ ∀ s', (fetchStats s b).1 = s' ->
      App.user s' = App.user s
      ∧ App.currentView s' = App.currentView s
      ∧ App.learningPaths s' = App.learningPaths s
      ∧ App.activePath s' = App.activePath s
      ∧ App.currentLesson s' = App.currentLesson s
      ∧ App.quiz s' = App.quiz s
      ∧ App.quizAnswers s' = App.quizAnswers s
      ∧ App.showResults s' = App.showResults s
      ∧ App.newTopic s' = App.newTopic s
      ∧ App.loading s' = App.loading s
      ∧ App.alerts s' = App.alerts s
      ∧ App.stats s'
        = match session b with
          | Some user => Some (stats_of user (world b))
          | None => App.stats s
          end.
Proof.
  unfold fetchStats, GET_stats, authenticated, with_world.
  destruct (session b) as [user|]; destruct b; simpl;
    (split; [done|]); by intros s' <-.
Qed.

Lemma response_data_refused r : status r ≠ 200 -> response_data r = None.
Proof. intros Hne. unfold response_data. by rewrite bool_decide_eq_false_2. Qed.

Lemma response_data_200 r : status r = 200 -> response_data r = Some (body r).
Proof. intros Hok. unfold response_data. by rewrite bool_decide_eq_true_2. Qed.

Lemma with_world_same b : with_world (world b) b = b.
Proof. by destruct b. Qed.


(** X21. The frontend never sends a blank topic, and a topic it sends is
    never refused as blank: when [newTopic] is empty or white space only
    [generateLearningPath] does nothing at all, and otherwise the
    server's answer to the request it sends is not a 400. *)
Theorem blank_topic_is_not_sent rt now s b :
  (forallb is_whitespace (App.newTopic s) = true ->
   generateLearningPath rt now s b = (s, b))
  ∧ (forallb is_whitespace (App.newTopic s) = false ->
     status (POST_learning_paths_generate rt (session b)
               (topic_request (App.newTopic s)) now (world b)).1 ≠ 400
     ∧ world (generateLearningPath rt now s b).2
       = (POST_learning_paths_generate rt (session b)
            (topic_request (App.newTopic s)) now (world b)).2).
Proof.
  unfold generateLearningPath. rewrite trim_truthy. split.
  - by intros ->.
  - intros Hblank. rewrite Hblank. simpl. split.
    + intros H400.
      destruct (generate_400_only_blank rt (session b)
                  (topic_request (App.newTopic s)) now (world b)
                  (JStr (App.newTopic s)) eq_refl H400)
        as [Hfalsy | (t & [= <-] & Ht)]; [|congruence].
      destruct (App.newTopic s); [done | done].
    + destruct (POST_learning_paths_generate rt (session b)
                  (topic_request (App.newTopic s)) now (world b))
        as [r w] eqn:Hrun.
      simpl.
      destruct (decide (status r = 200)) as [Hok|Hne];
        [rewrite response_data_200 by done
        |by rewrite response_data_refused].
      destruct (body r); try done.
      match goal with |- context [fetchStats ?s0 ?b0] =>
        pose proof (proj1 (fetchStats_data s0 b0)) as Hb;
        destruct (fetchStats s0 b0) as [s1 b1] end.
      simpl in *. by subst b1.
Qed.

Lemma blank_topic_is_not_sent_witness :
  generateLearningPath (sample_runtime sample_reply) 10%Z
    (app_with_topic [32; 32]%N) sample_backend
  = (app_with_topic [32; 32]%N, sample_backend)
  ∧ status (POST_learning_paths_generate (sample_runtime sample_reply)
              (session sample_backend) (topic_request (str "Rust")) 10%Z
              (world sample_backend)).1 ≠ 400.
Proof.
  split.
  - destruct (blank_topic_is_not_sent (sample_runtime sample_reply) 10%Z
                (app_with_topic [32; 32]%N) sample_backend) as [Hblank _].
    apply Hblank. reflexivity.
  - destruct (blank_topic_is_not_sent (sample_runtime sample_reply) 10%Z
                (app_with_topic (str "Rust")) sample_backend) as [_ Hsent].
    destruct Hsent as [Hstatus _]; [reflexivity | exact Hstatus].
Defined.


(** X22. The frontend shows nothing of a request that failed: when the
    server refuses to generate a path or a quiz, every state variable
    keeps its value, [loading] is false again and one alert has been
    raised; the same holds for [generateQuiz] without an active path;
    and a refused [completeLesson] raises its alert and changes neither
    the state nor the stored paths. *)
Theorem refused_requests_change_nothing_shown rt ObjectId_text Number_text now
    lesson s b :
  (forallb is_whitespace (App.newTopic s) = false ->
   status (POST_learning_paths_generate rt (session b)
             (topic_request (App.newTopic s)) now (world b)).1 ≠ 200 ->
   let s' := (generateLearningPath rt now s b).1 in
   same_data s s' ∧ App.loading s' = false
   ∧ App.alerts s'
     = App.alerts s
       ++ ["Failed to generate learning path. Please try again."%string])
  ∧ ((∀ path, App.activePath s = Some path ->
        status (POST_quizzes_generate rt (session b)
                  (quiz_request_for ObjectId_text path lesson)
                  (world b)).1 ≠ 200) ->
     let s' := (generateQuiz rt ObjectId_text (App.activePath s) lesson s b).1
     in
     same_data s s' ∧ App.loading s' = false
     ∧ App.alerts s'
       = App.alerts s ++ ["Failed to generate quiz. Please try again."%string])
  ∧ ((∀ path current,
        App.activePath s = Some path -> App.currentLesson s = Some current ->
        status (PATCH_lesson_complete rt (session b)
                  (ObjectId_text (LearningPath._id path))
                  (Number_text (Lesson.id current)) now (world b)).1 ≠ 200) ->
     completeLesson rt ObjectId_text Number_text now s b
     = (alert "Failed to complete lesson. Please try again." s, b)).
Proof.
  split_and!.
  - intros Hblank Hrefused. unfold generateLearningPath.
    rewrite trim_truthy, Hblank. simpl in *.
    destruct (POST_learning_paths_generate rt (session b)
                (topic_request (App.newTopic s)) now (world b)) as [r w].
    simpl in *. by rewrite response_data_refused.
  - intros Hrefused. unfold generateQuiz.
    destruct (App.activePath s) as [path|]; [|done].
    specialize (Hrefused path eq_refl).
    destruct (POST_quizzes_generate rt (session b)
                (quiz_request_for ObjectId_text path lesson) (world b))
      as [r w].
    simpl in *. by rewrite response_data_refused.
  - intros Hrefused. unfold completeLesson.
    destruct (App.activePath s) as [path|]; [|done].
    destruct (App.currentLesson s) as [current|]; [|done].
    specialize (Hrefused path current eq_refl eq_refl).
    pose proof (PATCH_refused_keeps_world rt (session b)
                  (ObjectId_text (LearningPath._id path))
                  (Number_text (Lesson.id current)) now (world b) Hrefused)
      as Hworld.
    destruct (PATCH_lesson_complete rt (session b)
                (ObjectId_text (LearningPath._id path))
                (Number_text (Lesson.id current)) now (world b)) as [r w].
    simpl in *. subst w. by rewrite response_data_refused, with_world_same.
Qed.

Lemma refused_requests_change_nothing_shown_witness :
  App.alerts
    (generateLearningPath (sample_runtime sample_reply) 10%Z
       (app_with_topic (str "Rust")) anonymous_backend).1
  = ["Failed to generate learning path. Please try again."%string]
  ∧ completeLesson (sample_runtime sample_reply) sample_ObjectId_text
      sample_Number_text 20%Z (app_on_lesson world_with_path 0%N 2)
      anonymous_backend
    = (alert "Failed to complete lesson. Please try again."
         (app_on_lesson world_with_path 0%N 2), anonymous_backend).
Proof.
  split.
  - destruct (refused_requests_change_nothing_shown
                (sample_runtime sample_reply) sample_ObjectId_text
                sample_Number_text 10%Z
                (Lesson.mk 1%Z JUndefined JUndefined false true None)
                (app_with_topic (str "Rust")) anonymous_backend)
      as (Hpath & _ & _).
    destruct Hpath as (_ & _ & Halerts);
      [reflexivity | vm_compute; lia | exact Halerts].
  - destruct (refused_requests_change_nothing_shown
                (sample_runtime sample_reply) sample_ObjectId_text
                sample_Number_text 20%Z
                (Lesson.mk 1%Z JUndefined JUndefined false true None)
                (app_on_lesson world_with_path 0%N 2) anonymous_backend)
      as (_ & _ & Hcomplete).
    apply Hcomplete. intros path current _ _. vm_compute. lia.
Defined.





(** X24. After [handleLogout] the frontend is refused everything until a
    new login: the session is gone while both stores are as before, so
    the two fetches change nothing, [checkAuth] finds no user and a
    request for a path only raises an alert; the user, the list and the
    active path are cleared, but the statistics, the quiz and the
    lesson of the user who left stay in the state. *)
Theorem logout_ends_the_session rt s b :
  let s' := (handleLogout s b).1 in
  let b' := (handleLogout s b).2 in
  (session b' = None ∧ world b' = world b ∧ accounts b' = accounts b)
  ∧ (App.user s' = None ∧ App.learningPaths s' = []
     ∧ App.activePath s' = None ∧ App.currentView s' = "dashboard"%string)
  ∧ (App.stats s' = App.stats s ∧ App.quiz s' = App.quiz s
     ∧ App.quizAnswers s' = App.quizAnswers s
     ∧ App.currentLesson s' = App.currentLesson s)
  ∧ ∀ s0 now,
      fetchLearningPaths s0 b' = (s0, b')
      ∧ fetchStats s0 b' = (s0, b')
      ∧ checkAuth s0 b' = (setUser None s0, b')
      ∧ (forallb is_whitespace (App.newTopic s0) = false ->
         generateLearningPath rt now s0 b'
         = (setLoading false
              (alert "Failed to generate learning path. Please try again."
                 (setLoading true s0)), b')).
Proof.
  simpl. split_and!; try done.
  intros s0 now. split_and!; try done.
  intros Hblank. unfold generateLearningPath.
  by rewrite trim_truthy, Hblank.
Qed.

Lemma logout_ends_the_session_witness :
  let b' := (handleLogout initial_app sample_backend).2 in
  session sample_backend = Some alice
  ∧ session b' = None
  ∧ generateLearningPath (sample_runtime sample_reply) 10%Z
      (app_with_topic (str "Rust")) b'
    = (setLoading false
         (alert "Failed to generate learning path. Please try again."
            (setLoading true (app_with_topic (str "Rust")))), b').
Proof.
  intros b'.
  destruct (logout_ends_the_session (sample_runtime sample_reply)
              initial_app sample_backend)
    as ((Hsession & _) & _ & _ & Hafter).
  split_and!; [by_evaluation | exact Hsession |].
  destruct (Hafter (app_with_topic (str "Rust")) 10%Z)
    as (_ & _ & _ & Hrefused).
  apply Hrefused. reflexivity.
Defined.


(** X25. Mounting the component with a session shows that user's data
    and nothing else: the user of the session, the stored paths of that
    user only, most recent first, and the statistics of that user, with
    both stores unchanged; without a session it shows no user and
    fetches nothing. *)
Theorem mount_loads_the_users_data s b :
  (∀ user, req_user (cookie b) (accounts b) = Some user ->
     let s' := (mount s b).1 in
     (mount s b).2 = b
     ∧ App.user s'
       = Some (CurrentUser.mk (User._id user) (User.name user)
                 (User.email user) (User.picture user))
     ∧ App.learningPaths s'
       = merge_sort later (LearningPath_find (User._id user) (world b))
     ∧ Forall (fun path => LearningPath.userId path = User._id user
                           ∧ ∃ k, paths (world b) !! k = Some path)
         (App.learningPaths s')
     ∧ App.stats s' = Some (stats_of (User._id user) (world b)))
  ∧ (req_user (cookie b) (accounts b) = None ->
     mount s b = (setUser None s, b)).
Proof.
  unfold mount, checkAuth, GET_auth_user, user_effect, fetchLearningPaths,
    fetchStats, GET_learning_paths, GET_stats, authenticated, session,
    session_of.
  split.
  - intros user Huser. rewrite Huser. simpl. rewrite Huser. simpl.
    rewrite Huser. simpl. rewrite !with_world_same.
    split_and!; try done.
    apply Forall_forall. intros path Hin.
    rewrite merge_sort_Permutation in Hin.
    apply LearningPath_find_elem in Hin. by destruct Hin.
  - by intros ->.
Qed.

Lemma mount_loads_the_users_data_witness :
  App.user (mount initial_app sample_backend).1
  = Some (CurrentUser.mk alice (JStr (str "Alice"))
            (JStr (str "alice@example.org")) JUndefined)
  ∧ App.stats (mount initial_app sample_backend).1
    = Some (stats_of alice world_with_path)
  ∧ mount initial_app anonymous_backend
    = (setUser None initial_app, anonymous_backend).
Proof.
  destruct (mount_loads_the_users_data initial_app sample_backend)
    as [Hloaded _].
  destruct (mount_loads_the_users_data initial_app anonymous_backend)
    as [_ Hnone].
  destruct (Hloaded alice_account) as (_ & Huser & _ & _ & Hstats);
    [by_evaluation|].
  split_and!; [exact Huser | exact Hstats | apply Hnone; reflexivity].
Defined.
